(** * FabGPT scraper: a shallow embedding of [scraper.py]

    The development follows the source file top-down:

    - [Py]      the fragment of Python's data model the scraper relies on
                (JSON values as [response.json()] returns them, exceptions,
                numbers passed to [time.sleep]);
    - [Net]     the world the scraper talks to (HTTP attempts, sleeps, the
                log, the clock) and [make_github_request];
    - [Rate]    [get_rate_limit_status], the inline throttle of the search
                loop and the pre-flight check of [main];
    - [Searching] [search_repositories];
    - [Stats]   [get_file_content_and_stats];
    - [Walk]    [find_python_files];
    - [Orch]    [process_repository] running on several worker threads that
                share [processed_files] under [processed_files_lock], and the
                aggregation loop of [main];
    - [Existing] [load_existing_data], and what it reads back from the file
                [main] writes;
    - [Naming]  [create_unique_filename].

    Modelling conventions.  Python [int] is [Z].  Python [float] is IEEE-754
    binary64, taken from the standard library's executable specification
    ([spec_float], precision 53, emax 1024).  Python [str] holding JSON text
    or a path is a [string] (its UTF-8 bytes: the tests the scraper applies
    to such values compare against ASCII literals, which UTF-8 preserves, and
    where the characters of such a string are iterated or counted the bytes
    are grouped into code points); the decoded text of a file is a list of
    code points, because [splitlines] and [\s] look at non-ASCII characters.
    A JSON object is an association list read at the first binding of a key,
    its keys taken pairwise distinct as those of a [dict] are.  A naive local
    [datetime] is the number of microseconds from 1970-01-01 00:00:00 to it
    on the local calendar; what local time is at an instant is the C
    library's answer and is left open, so the UTC offset may change during a
    run.  Where what a library call does depends on the interpreter and the
    platform ([datetime.fromtimestamp], [time.sleep]), the model follows
    CPython 3.11 on x86-64 Linux.  Console output and the progress bars have
    no effect on any value and are left out. *)

From Stdlib Require Import ZArith List String Ascii Bool Lia.
From Stdlib Require Import Floats.SpecFloat.
From stdpp Require Import base gmap sets list strings list_numbers pretty.

Local Open Scope string_scope.
Local Open Scope list_scope.
Local Open Scope Z_scope.

(* ===================================================================== *)
(** * Python values *)
(* ===================================================================== *)

Module Py.

(** What [response.json()] can return.  JSON numbers are integers here: the
    GitHub payloads the scraper reads carry no fractional numbers. *)
Local Unset Elimination Schemes.
Inductive json : Type :=
| JNull
| JBool (b : bool)
| JNum (n : Z)
| JStr (s : string)
| JList (l : list json)
| JDict (d : list (string * json)).
Local Set Elimination Schemes.

(** Exceptions that can travel through the scraper.  [GitHubAPIError] carries
    the three values interpolated in its message:
    [f"Failed to make request to {url} after {MAX_RETRIES} attempts: {e}"]. *)
Inductive exn : Type :=
| GitHubAPIError (url : string) (attempts : Z) (cause : string)
| ValueError (msg : string)
| TypeError (msg : string)
| KeyError (key : string)
| AttributeError (msg : string)
| DecodeError (msg : string)
| OverflowError (msg : string)
| OSError (msg : string).

Inductive result (A : Type) : Type :=
| Ok (a : A)
| Raise (e : exn).
Arguments Ok {A} a.
Arguments Raise {A} e.

Definition rbind {A B} (r : result A) (k : A -> result B) : result B :=
  match r with
  | Ok a => k a
  | Raise e => Raise e
  end.

(** A number handed to [time.sleep]: an [int] or a [float]. *)
Inductive pynum : Type :=
| PyInt (z : Z)
| PyFloat (f : spec_float).

(** ** binary64 *)

Definition float := spec_float.
Definition float_of_Z (z : Z) : float := binary_normalize 53 1024 z 0 false.
Definition fdiv : float -> float -> float := SFdiv 53 1024.
Definition fmul : float -> float -> float := SFmul 53 1024.
Definition fadd : float -> float -> float := SFadd 53 1024.
Definition fleb : float -> float -> bool := SFleb.
Definition fltb : float -> float -> bool := SFltb.
Definition fzero : float := S754_zero false.

(** [a / b] on two ints (true division).  CPython rounds the exact quotient
    once; for operands below 2^53 this is the quotient of the two
    conversions, which is what the model computes. *)
Definition int_truediv (a b : Z) : float := fdiv (float_of_Z a) (float_of_Z b).

(** A finite float rounded to an integer away from zero. *)
Definition round_away (f : float) : option Z :=
  match f with
  | S754_zero _ => Some 0
  | S754_finite s m e =>
      let n := if 0 <=? e then Zpos m * 2 ^ e else - ((- Zpos m) / 2 ^ (- e)) in
      Some (if s then - n else n)
  | _ => None
  end.

(** A duration as [time.sleep] takes it: a number of nanoseconds in a
    signed 64-bit integer.  An int is multiplied by [10**9], which must not
    overflow.  A float must not be NaN; it is multiplied by [1e9] as a
    float and rounded away from zero, and the result must lie between
    [-2**63] and [2**63]; the conversion of [2**63] itself to 64 bits gives
    [-2**63] (x86-64). *)
Definition too_large : string := "timestamp too large to convert to C _PyTime_t".

Definition nanoseconds (d : pynum) : result Z :=
  match d with
  | PyInt z =>
      if (z <? -9223372036) || (9223372036 <? z) then Raise (OverflowError too_large)
      else Ok (z * 1000000000)
  | PyFloat S754_nan => Raise (ValueError "Invalid value NaN (not a number)")
  | PyFloat f =>
      match round_away (fmul f (float_of_Z 1000000000)) with
      | Some n =>
          if (n <? - 2 ^ 63) || (2 ^ 63 <? n) then Raise (OverflowError too_large)
          else Ok (if n =? 2 ^ 63 then - 2 ^ 63 else n)
      | None => Raise (OverflowError too_large)
      end
  end.

(** ** Dictionaries, membership, subscripting, truth, iteration *)

Fixpoint dict_get (k : string) (d : list (string * json)) : option json :=
  match d with
  | [] => None
  | (k', v) :: d' => if String.eqb k k' then Some v else dict_get k d'
  end.

Definition is_str (k : string) (j : json) : bool :=
  match j with
  | JStr s => String.eqb k s
  | _ => false
  end.

(** [k in s] on two strings: [k] occurs in [s]. *)
Fixpoint substringb (k s : string) : bool :=
  String.prefix k s ||
  match s with
  | EmptyString => false
  | String _ s' => substringb k s'
  end.

(** [k in j] for a string literal [k]. *)
Definition py_in (k : string) (j : json) : result bool :=
  match j with
  | JDict d => Ok (bool_decide (is_Some (dict_get k d)))
  | JList l => Ok (existsb (is_str k) l)
  | JStr s => Ok (substringb k s)
  | JNull => Raise (TypeError "argument of type 'NoneType' is not iterable")
  | JBool _ => Raise (TypeError "argument of type 'bool' is not iterable")
  | JNum _ => Raise (TypeError "argument of type 'int' is not iterable")
  end.

(** [j[k]] for a string literal [k]. *)
Definition py_getitem (j : json) (k : string) : result json :=
  match j with
  | JDict d =>
      match dict_get k d with
      | Some v => Ok v
      | None => Raise (KeyError k)
      end
  | JList _ => Raise (TypeError "list indices must be integers or slices, not str")
  | JStr _ => Raise (TypeError "string indices must be integers, not 'str'")
  | _ => Raise (TypeError "object is not subscriptable")
  end.

(** Truth value of a JSON value ([if data:], [not data["items"]]). *)
Definition py_truthy (j : json) : bool :=
  match j with
  | JNull => false
  | JBool b => b
  | JNum n => negb (n =? 0)
  | JStr s => negb (String.eqb s "")
  | JList l => negb (Nat.eqb (length l) 0)
  | JDict d => negb (Nat.eqb (length d) 0)
  end.

(** The characters of a string held as UTF-8 bytes: a byte [10xxxxxx]
    continues the character before it. *)
Definition is_continuation (c : ascii) : bool :=
  let n := N_of_ascii c in ((128 <=? n) && (n <? 192))%N.

Fixpoint code_points (s : string) : list string :=
  match s with
  | EmptyString => []
  | String c s' =>
      let rest := code_points s' in
      match s' with
      | String c2 _ =>
          if is_continuation c2 then
            match rest with
            | g :: gs => String c g :: gs
            | [] => [String c EmptyString]
            end
          else String c EmptyString :: rest
      | EmptyString => String c EmptyString :: rest
      end
  end.

Definition chars (s : string) : list json := map JStr (code_points s).

(** [for item in j]: the items in iteration order. *)
Definition py_iter (j : json) : result (list json) :=
  match j with
  | JList l => Ok l
  | JDict d => Ok (map (fun kv => JStr (fst kv)) d)
  | JStr s => Ok (chars s)
  | JNull => Raise (TypeError "'NoneType' object is not iterable")
  | JBool _ => Raise (TypeError "'bool' object is not iterable")
  | JNum _ => Raise (TypeError "'int' object is not iterable")
  end.

(** [len(j)] for the values that have a length. *)
Definition py_len (j : json) : result Z :=
  match j with
  | JList l => Ok (Z.of_nat (length l))
  | JDict d => Ok (Z.of_nat (length d))
  | JStr s => Ok (Z.of_nat (length (code_points s)))
  | _ => Raise (TypeError "object has no len()")
  end.

(** [j <= n] and [j == n] against an int literal.  A JSON boolean is an int
    in Python; ordering any other non-number against an int raises, while
    equality is just false. *)
Definition py_le_int (j : json) (n : Z) : result bool :=
  match j with
  | JNum z => Ok (z <=? n)
  | JBool b => Ok (Z.b2z b <=? n)
  | _ => Raise (TypeError "'<=' not supported between these instances")
  end.

Definition py_eq_int (j : json) (n : Z) : bool :=
  match j with
  | JNum z => z =? n
  | JBool b => Z.b2z b =? n
  | _ => false
  end.

(** [l[:n]]. *)
Definition slice_to {A} (l : list A) (n : Z) : list A :=
  if 0 <=? n then take (Z.to_nat n) l
  else take (length l - Z.to_nat (- n))%nat l.

(** [isinstance(j, dict)]. *)
Definition is_dict (j : json) : bool :=
  match j with
  | JDict _ => true
  | _ => false
  end.

(** [range(n)]. *)
Definition range (n : Z) : list Z := seqZ 0 n.

End Py.
Export Py.

(* ===================================================================== *)
(** * The world and the request executor *)
(* ===================================================================== *)

Module Net.

Definition GITHUB_API_URL : string := "https://api.github.com".
Definition MAX_RETRIES : Z := 3.
Definition RETRY_DELAY : Z := 5.

(** One call of [requests.get] or [requests.post] with the arguments the
    scraper passes. *)
Inductive http_call : Type :=
| HttpGet (url : string) (headers : list (string * string))
          (params : option (list (string * json)))
| HttpPost (url : string) (headers : list (string * string))
           (data : option json).

(** What one attempt yields: [response.json()] after [raise_for_status()], or
    a [requests.exceptions.RequestException] with its text. *)
Inductive http_outcome : Type :=
| Response (body : json)
| RequestException (e : string).

(** The remote side, the wall clock and the time zone.  [respond n c] is the
    outcome of the [n]-th HTTP attempt of the run when it is the call [c];
    [clock n] is the naive local [datetime] that the [n]-th reading of
    [datetime.now()] returns; [localtime t] is what the C library's
    [localtime] gives for the instant [t] seconds after the epoch: the local
    date and time of day, as the seconds from 1970-01-01 00:00:00 to it on
    the local calendar (in UTC this is [Some t]), or [None] where it fails;
    [monotonic k] is the reading of the monotonic clock, in nanoseconds,
    that a call of [time.sleep] takes when [k] sleeps have been carried
    out. *)
Record remote : Type := {
  respond : nat -> http_call -> http_outcome;
  clock : nat -> Z;
  localtime : Z -> option Z;
  monotonic : nat -> Z
}.

Inductive level : Type := ERROR | WARNING.

(** The part of the world the scraper changes: the number of HTTP attempts
    made so far, the durations slept by [time.sleep] in order, the records
    written to the log in order, and the number of clock readings.
    A log record is the level and the format string of the [logging] call
    that wrote it, as it stands in the source; the values it interpolates
    are not rendered. *)
Record world : Type := {
  calls : nat;
  slept : list pynum;
  logged : list (level * string);
  ticks : nat
}.

Definition world0 : world :=
  {| calls := 0; slept := []; logged := []; ticks := 0 |}.

Definition attempt_made (w : world) : world :=
  {| calls := S (calls w); slept := slept w; logged := logged w; ticks := ticks w |}.

Definition sleep (d : pynum) (w : world) : world :=
  {| calls := calls w; slept := slept w ++ [d]; logged := logged w; ticks := ticks w |}.

Definition logging (l : level) (msg : string) (w : world) : world :=
  {| calls := calls w; slept := slept w; logged := logged w ++ [(l, msg)]; ticks := ticks w |}.

Definition tick (w : world) : world :=
  {| calls := calls w; slept := slept w; logged := logged w; ticks := S (ticks w) |}.

(** Computations that change the world and return or raise. *)
Definition M (A : Type) : Type := world -> world * result A.

Definition ret {A} (a : A) : M A := fun w => (w, Ok a).
Definition raise {A} (e : exn) : M A := fun w => (w, Raise e).
Definition bind {A B} (m : M A) (k : A -> M B) : M B :=
  fun w =>
    match m w with
    | (w1, Ok a) => k a w1
    | (w1, Raise e) => (w1, Raise e)
    end.
(** A pure step that may raise. *)
Definition lift {A} (r : result A) : M A := fun w => (w, r).

Declare Scope py_scope.
Delimit Scope py_scope with py.
Notation "x <- m ;; k" := (bind m (fun x => k))
  (at level 100, m at next level, right associativity) : py_scope.

Definition headers_of (token : string) : list (string * string) :=
  [("Authorization", "token " +:+ token);
   ("User-Agent", "GitHub-Repo-Scraper/1.0")].

Section Executor.

Variable R : remote.

(** The call the body of the [try] issues for [method], if any. *)
Definition http_call_of (url : string) (headers : list (string * string))
    (params : option (list (string * json))) (method : string)
    (data : option json) : option http_call :=
  if String.eqb method "GET" then Some (HttpGet url headers params)
  else if String.eqb method "POST" then Some (HttpPost url headers data)
  else None.

Definition failed_msg : string :=
  "Failed to make request to {url} after {MAX_RETRIES} attempts: {e}".

Definition retry_msg : string :=
  "Request failed: {e}. Retrying in {wait_time} seconds... (Attempt {attempt + 1}/{MAX_RETRIES})".

(** The [for attempt in range(MAX_RETRIES)] loop, by recursion on the
    attempts that remain. *)
Fixpoint request_loop (attempts : list Z) (url : string)
    (headers : list (string * string)) (params : option (list (string * json)))
    (method : string) (data : option json) (w : world) : world * result json :=
  match attempts with
  | [] => (w, Ok JNull)
  | attempt :: rest =>
      match http_call_of url headers params method data with
      | None => (w, Raise (ValueError ("Unsupported HTTP method: " +:+ method)))
      | Some c =>
          match respond R (calls w) c with
          | Response body => (attempt_made w, Ok body)
          | RequestException e =>
              let w1 := attempt_made w in
              if attempt =? MAX_RETRIES - 1 then
                (logging ERROR failed_msg w1,
                 Raise (GitHubAPIError url MAX_RETRIES e))
              else
                let wait_time := RETRY_DELAY * 2 ^ attempt in
                request_loop rest url headers params method data
                  (sleep (PyInt wait_time) (logging WARNING retry_msg w1))
          end
      end
  end.

Definition make_github_request (url : string) (headers : list (string * string))
    (params : option (list (string * json))) (method : string)
    (data : option json) : M json :=
  request_loop (range MAX_RETRIES) url headers params method data.

(** The default arguments [params=None, method="GET", data=None]. *)
Definition github_get (url : string) (headers : list (string * string)) : M json :=
  make_github_request url headers None "GET" None.

(** [time.sleep(d)] for a duration that is computed.  The duration is
    converted to nanoseconds; a negative one is refused; the sleep lasts
    until the monotonic clock reaches its reading plus the duration, a sum
    made in 64 bits, and the system refuses a deadline that wrapped around.
    (The delays of the retry loop above are the constants 5 and 10.) *)
Definition time_sleep (d : pynum) : M unit :=
  fun w =>
    match nanoseconds d with
    | Raise e => (w, Raise e)
    | Ok timeout =>
        if timeout <? 0 then (w, Raise (ValueError "sleep length must be non-negative"))
        else if 2 ^ 63 <=? monotonic R (length (slept w)) + timeout
        then (w, Raise (OSError "[Errno 22] Invalid argument"))
        else (sleep d w, Ok tt)
    end.

End Executor.

End Net.
Export Net.

(* ===================================================================== *)
(** * Rate limits *)
(* ===================================================================== *)

Module Rate.

(** One quota category of the dictionary [get_rate_limit_status] builds; the
    two values are whatever the payload holds at these keys. *)
Record quota : Type := { remaining : json; reset : json }.

(** The dictionary [get_rate_limit_status] returns. *)
Record snapshot : Type := { core : quota; search : quota }.

(** The dictionary display of the [return] statement, its four subscript
    chains evaluated in order. *)
Definition read_quota (data : json) (category : string) : result quota :=
  rbind (py_getitem data "resources") (fun r1 =>
  rbind (py_getitem r1 category) (fun c1 =>
  rbind (py_getitem c1 "remaining") (fun rem =>
  rbind (py_getitem data "resources") (fun r2 =>
  rbind (py_getitem r2 category) (fun c2 =>
  rbind (py_getitem c2 "reset") (fun rst =>
  Ok {| remaining := rem; reset := rst |})))))).

Definition read_snapshot (data : json) : result snapshot :=
  rbind (read_quota data "core") (fun c =>
  rbind (read_quota data "search") (fun s =>
  Ok {| core := c; search := s |})).

(** ** Naive datetimes

    A naive [datetime] is the number of microseconds from 1970-01-01
    00:00:00 to it on the calendar it is on, and a [timedelta] a number of
    microseconds, so that subtracting two datetimes is subtracting two
    numbers.  A [datetime] lies in the years 1 to 9999. *)

(** The first second of year 1 and the last second of year 9999. *)
Definition year_1_start : Z := -62135596800.
Definition year_9999_end : Z := 253402300799.

(** The year a second falls in, on the proleptic Gregorian calendar. *)
Definition year_of (second : Z) : Z :=
  let z := second / 86400 + 719468 in
  let era := z / 146097 in
  let doe := z mod 146097 in
  let yoe := (doe - doe / 1460 + doe / 36524 - doe / 146096) / 365 in
  let doy := doe - (365 * yoe + yoe / 4 - yoe / 100) in
  let mp := (5 * doy + 2) / 153 in
  yoe + era * 400 + (if mp <? 10 then 0 else 1).

(** [utc_to_seconds] of the datetime module, on the date and time of day a
    second stands for: it refuses a year outside [MINYEAR..MAXYEAR]. *)
Definition utc_to_seconds (second : Z) : result Z :=
  if (second <? year_1_start) || (year_9999_end <? second)
  then Raise (ValueError ("year " +:+ pretty (year_of second) +:+ " is out of range"))
  else Ok second.

Definition max_fold_seconds : Z := 24 * 3600.

(** The argument of [fromtimestamp] as a number of seconds. *)
Definition timestamp_of (j : json) : result Z :=
  match j with
  | JNum z => Ok z
  | JBool b => Ok (Z.b2z b)
  | JNull => Raise (TypeError "'NoneType' object cannot be interpreted as an integer")
  | JStr _ => Raise (TypeError "'str' object cannot be interpreted as an integer")
  | JList _ => Raise (TypeError "'list' object cannot be interpreted as an integer")
  | JDict _ => Raise (TypeError "'dict' object cannot be interpreted as an integer")
  end.

(** [delta.total_seconds()]: the microseconds over [10**6] as a true
    division of ints, which rounds the exact quotient once. *)
Definition total_seconds (microseconds : Z) : float :=
  match microseconds with
  | Z0 => fzero
  | Zpos p => fdiv (S754_finite false p 0) (S754_finite false 1000000 0)
  | Zneg p => fdiv (S754_finite true p 0) (S754_finite false 1000000 0)
  end.

(** [(reset_time - now).total_seconds() + 1]. *)
Definition seconds_until (reset_time now : Z) : float :=
  fadd (total_seconds (reset_time - now)) (float_of_Z 1).

(** [max(0, wait_time)]: the second argument wins only when it is greater. *)
Definition max0 (wait_time : float) : pynum :=
  if fltb (float_of_Z 0) wait_time then PyFloat wait_time else PyInt 0.

Definition low_quota_msg : string :=
  "Search rate limit low. Waiting until {reset_time.strftime('%Y-%m-%d %H:%M:%S')} ({wait_time:.0f} seconds)".

Section Monitor.

Variable R : remote.

Definition now : M Z := fun w => (tick w, Ok (clock R (ticks w))).

(** [local(u)] of the datetime module: the local date and time of day at an
    instant, if it has a year a [datetime] can hold. *)
Definition local (t : Z) : result Z :=
  match localtime R t with
  | Some second => utc_to_seconds second
  | None => Raise (OSError "[Errno 75] Value too large for defined data type")
  end.

(** [datetime.fromtimestamp(j)] without a time zone.  The timestamp has to
    fit the platform's 64-bit [time_t].  Besides the local time at the
    instant, the constructor looks at the local time 24 hours earlier, and
    when the UTC offset dropped in between at a third one, to tell the two
    readings of a repeated hour apart; each of these has to be a time a
    [datetime] can hold.  The result is the local time at the instant. *)
Definition fromtimestamp (j : json) : result Z :=
  rbind (timestamp_of j) (fun timet =>
  if (timet <? - 2 ^ 63) || (2 ^ 63 <=? timet)
  then Raise (OverflowError "timestamp out of range for platform time_t")
  else
    rbind (local timet) (fun result_seconds =>
    rbind (local (timet - max_fold_seconds)) (fun probe_seconds =>
    let transition := result_seconds - probe_seconds - max_fold_seconds in
    rbind (if transition <? 0 then local (timet + transition) else Ok probe_seconds)
      (fun _ => Ok (result_seconds * 1000000))))).

Definition get_rate_limit_status (token : string) : M (option snapshot) :=
  fun w =>
    match github_get R (GITHUB_API_URL +:+ "/rate_limit") (headers_of token) w with
    | (w1, Ok data) =>
        if py_truthy data then
          match read_snapshot data with
          | Ok s => (w1, Ok (Some s))
          | Raise _ =>
              (logging ERROR "Unexpected error getting rate limit status: {e}" w1, Ok None)
          end
        else (w1, Ok None)
    | (w1, Raise (GitHubAPIError _ _ _)) =>
        (logging ERROR "Error getting rate limit status: {e}" w1, Ok None)
    | (w1, Raise _) =>
        (logging ERROR "Unexpected error getting rate limit status: {e}" w1, Ok None)
    end.

(** The body of the [if] that both throttles share: compute the wait from
    the category's reset time and the clock, then sleep. *)
Definition wait_for_reset (q : quota) (notice : option string) : M unit :=
  (reset_time <- lift (fromtimestamp (reset q)) ;;
   t <- now ;;
   let wait_time := max0 (seconds_until reset_time t) in
   fun w =>
     let w1 := match notice with
               | Some msg => logging WARNING msg w
               | None => w
               end in
     time_sleep R wait_time w1)%py.

(** Lines 132-147: the throttle at the head of every iteration of the search
    loop. *)
Definition search_throttle (token : string) : M unit :=
  (rate_limit <- get_rate_limit_status token ;;
   match rate_limit with
   | Some s =>
       low <- lift (py_le_int (remaining (search s)) 1) ;;
       if low then wait_for_reset (search s) (Some low_quota_msg)
       else ret tt
   | None => ret tt
   end)%py.

(** Lines 477-508 of [main]: the check made once before any work.  The
    result says whether [main] goes on ([true]) or returns ([false]); the
    whole block sits in a [try] whose handler catches every exception and
    returns. *)
Definition preflight_body (token : string) : M bool :=
  (rate_limit_status <- get_rate_limit_status token ;;
   match rate_limit_status with
   | None => ret false
   | Some s =>
       if py_eq_int (remaining (core s)) 0 then
         _ <- wait_for_reset (core s) None ;;
         again <- get_rate_limit_status token ;;
         match again with
         | Some _ => ret true
         | None => raise (TypeError "'NoneType' object is not subscriptable")
         end
       else ret true
   end)%py.

Definition preflight (token : string) (w : world) : world * bool :=
  match preflight_body token w with
  | (w1, Ok go) => (w1, go)
  | (w1, Raise _) => (w1, false)
  end.

End Monitor.

End Rate.
Export Rate.

(* ===================================================================== *)
(** * Repository search *)
(* ===================================================================== *)

Module Searching.

Definition per_page : Z := 100.

Definition query_of (start_date end_date : string) : string :=
  "language:python pushed:" +:+ start_date +:+ ".." +:+ end_date +:+ " is:public".

Definition search_params (query : string) (page : Z) : list (string * json) :=
  [("q", JStr query); ("sort", JStr "updated"); ("order", JStr "desc");
   ("per_page", JNum per_page); ("page", JNum page)].

Definition len {A} (l : list A) : Z := Z.of_nat (length l).

(** The inner [for item in data["items"]] with its [break]. *)
Fixpoint append_items (items repos : list json) (max_repos : Z) : list json :=
  match items with
  | [] => repos
  | item :: rest =>
      let repos1 := repos ++ [item] in
      if max_repos <=? len repos1 then repos1
      else append_items rest repos1 max_repos
  end.

(** How an iteration of the [while] ends. *)
Inductive flow : Type :=
| Break (repos : list json)
| Continue (repos : list json) (page : Z).

Section Pagination.

Variable R : remote.

(** The body of the [try] in one iteration. *)
Definition search_page (headers : list (string * string)) (query : string)
    (max_repos : Z) (repos : list json) (page : Z) : M flow :=
  (data <- make_github_request R (GITHUB_API_URL +:+ "/search/repositories")
             headers (Some (search_params query page)) "GET" None ;;
   has_items <- lift (py_in "items" data) ;;
   if negb has_items then ret (Break repos)
   else
     items <- lift (py_getitem data "items") ;;
     if negb (py_truthy items) then ret (Break repos)
     else
       its <- lift (py_iter items) ;;
       let repos1 := append_items its repos max_repos in
       n <- lift (py_len items) ;;
       if n <? per_page then ret (Break repos1)
       else ret (Continue repos1 (page + 1)))%py.

(** One iteration of the [while]: the throttle, then the [try] with its
    handler for [GitHubAPIError]. *)
Definition search_iteration (token : string) (headers : list (string * string))
    (query : string) (max_repos : Z) (repos : list json) (page : Z) : M flow :=
  (_ <- search_throttle R token ;;
   fun w =>
     match search_page headers query max_repos repos page w with
     | (w1, Raise (GitHubAPIError _ _ _)) =>
         (logging ERROR "Error during repository search: {e}" w1, Ok (Break repos))
     | other => other
     end)%py.

(** [while len(repos) < max_repos].  The loop has no syntactic bound, so the
    model counts iterations down from [fuel]; [None] means the count ran
    out before the loop ended. *)
Fixpoint search_loop (fuel : nat) (token : string)
    (headers : list (string * string)) (query : string) (max_repos : Z)
    (repos : list json) (page : Z) (w : world)
    : option (world * result (list json)) :=
  if len repos <? max_repos then
    match fuel with
    | O => None
    | S fuel' =>
        match search_iteration token headers query max_repos repos page w with
        | (w1, Ok (Break repos1)) => Some (w1, Ok repos1)
        | (w1, Ok (Continue repos1 page1)) =>
            search_loop fuel' token headers query max_repos repos1 page1 w1
        | (w1, Raise e) => Some (w1, Raise e)
        end
    end
  else Some (w, Ok repos).

(** Every iteration that continues adds a repository, so [max_repos]
    iterations are enough ([RepositorySearcher.search_loop_returns]). *)
Definition search_repositories (token : string) (max_repos : Z)
    (start_date end_date : string) (w : world)
    : option (world * result (list json)) :=
  match search_loop (Z.to_nat max_repos) token (headers_of token)
          (query_of start_date end_date) max_repos [] 1 w with
  | Some (w1, Ok repos) => Some (w1, Ok (slice_to repos max_repos))
  | other => other
  end.

End Pagination.

End Searching.
Export Searching.

(* ===================================================================== *)
(** * File content and statistics *)
(* ===================================================================== *)

Module Stats.

(** Decoded text: the code points of a Python [str]. *)
Definition text : Type := list N.

(** The line boundaries of [str.splitlines]: LF, VT, FF, CR, FS, GS, RS,
    NEL, LS and PS. *)
Definition is_linebreak (c : N) : bool :=
  existsb (N.eqb c) [10; 11; 12; 13; 28; 29; 30; 133; 8232; 8233]%N.

(** [str.splitlines()]: [cur] holds the current line reversed.  CR LF is one
    boundary; a last line without terminator still counts; nothing follows a
    final terminator. *)
Fixpoint splitlines_from (cur : text) (s : text) : list text :=
  match s with
  | [] =>
      match cur with
      | [] => []
      | _ => [rev cur]
      end
  | c :: rest =>
      if N.eqb c 13 then
        match rest with
        | c2 :: rest2 =>
            if N.eqb c2 10 then rev cur :: splitlines_from [] rest2
            else rev cur :: splitlines_from [] rest
        | [] => rev cur :: splitlines_from [] rest
        end
      else if is_linebreak c then rev cur :: splitlines_from [] rest
      else splitlines_from (c :: cur) rest
  end.

Definition splitlines (s : text) : list text := splitlines_from [] s.

(** The characters [\s] matches in a [str] pattern. *)
Definition is_space (c : N) : bool :=
  ((9 <=? c) && (c <=? 13) || (28 <=? c) && (c <=? 32) ||
   existsb (N.eqb c) [133; 160; 5760; 8232; 8233; 8239; 8287; 12288] ||
   (8192 <=? c) && (c <=? 8202))%N.

(** [re.match(r"^\s*#", line)]: leading whitespace, then [#]. *)
Fixpoint is_comment (line : text) : bool :=
  match line with
  | [] => false
  | c :: rest =>
      if N.eqb c 35 then true
      else if is_space c then is_comment rest
      else false
  end.

(** The [for line in lines] loop that counts comment lines. *)
Definition count_comments (lines : list text) : Z :=
  fold_left (fun comment_lines line =>
               if is_comment line then comment_lines + 1 else comment_lines)
            lines 0.

Definition code_lines_of (num_lines comment_lines : Z) : Z :=
  num_lines - comment_lines.

Definition comment_ratio_of (comment_lines code_lines : Z) : float :=
  if 0 <? code_lines then fmul (int_truediv comment_lines code_lines) (float_of_Z 100)
  else fzero.

(** Lines 203-218: from the decoded content to the returned triple. *)
Definition stats_of (decoded_content : text) : text * Z * float :=
  let lines := splitlines decoded_content in
  let num_lines := Z.of_nat (length lines) in
  if num_lines =? 0 then ([], 0, fzero)
  else
    let comment_lines := count_comments lines in
    let code_lines := code_lines_of num_lines comment_lines in
    (decoded_content, num_lines, comment_ratio_of comment_lines code_lines).

Section Content.

Variable R : remote.

(** [base64.b64decode(v).decode("utf-8", errors="replace")] applied to the
    value found at ["content"].  Its result does not depend on the world; it
    may raise (a value that is not text, bad padding). *)
Variable decode_content : json -> result text.

Definition contents_url (repo_full_name file_path : string) : string :=
  GITHUB_API_URL +:+ "/repos/" +:+ repo_full_name +:+ "/contents/" +:+ file_path.

(** The function returns a triple, or [None] when control falls off its end. *)
Definition get_file_content_and_stats (token repo_full_name file_path : string)
    : M (option (text * Z * float)) :=
  fun w =>
    match github_get R (contents_url repo_full_name file_path) (headers_of token) w with
    | (w1, Ok file_data) =>
        match py_in "content" file_data with
        | Ok true =>
            match rbind (py_getitem file_data "content") decode_content with
            | Ok decoded_content => (w1, Ok (Some (stats_of decoded_content)))
            | Raise e => (w1, Raise e)
            end
        | Ok false => (w1, Ok None)
        | Raise e => (w1, Raise e)
        end
    | (w1, Raise (GitHubAPIError _ _ _)) =>
        (logging ERROR "Error getting file stats for {repo_full_name}/{file_path}: {e}" w1, Ok (Some ([], 0, fzero)))
    | (w1, Raise e) => (w1, Raise e)
    end.

End Content.

End Stats.
Export Stats.

(* ===================================================================== *)
(** * The file-tree walk *)
(* ===================================================================== *)

Module Walk.

(** ** The regular expressions of [exclude_patterns] *)

Inductive atom : Type :=
| Caret                (* ^ *)
| Chr (c : ascii)      (* a literal or escaped character *)
| Any                  (* . *)
| AnyStar.             (* .* *)

(** Reads a pattern made of [^], [.], [.*], escapes and literals. *)
Fixpoint compile (p : string) : list atom :=
  match p with
  | EmptyString => []
  | String c p1 =>
      if Ascii.eqb c "^" then Caret :: compile p1
      else if Ascii.eqb c "\" then
        match p1 with
        | String c2 p2 => Chr c2 :: compile p2
        | EmptyString => []
        end
      else if Ascii.eqb c "." then
        match p1 with
        | String c2 p2 =>
            if Ascii.eqb c2 "*" then AnyStar :: compile p2 else Any :: compile p1
        | EmptyString => [Any]
        end
      else Chr c :: compile p1
  end.

Definition newline : ascii := "010".

(** Does the pattern match at this position?  [bol] says whether the
    position is the start of the subject ([^] matches only there; [.] does
    not match a newline). *)
Fixpoint match_here (p : list atom) (bol : bool) (s : string) {struct p} : bool :=
  match p with
  | [] => true
  | Caret :: p1 => bol && match_here p1 bol s
  | Chr c :: p1 =>
      match s with
      | String c1 s1 => Ascii.eqb c c1 && match_here p1 false s1
      | EmptyString => false
      end
  | Any :: p1 =>
      match s with
      | String c1 s1 => negb (Ascii.eqb c1 newline) && match_here p1 false s1
      | EmptyString => false
      end
  | AnyStar :: p1 =>
      (fix star (bol : bool) (s : string) {struct s} : bool :=
         match_here p1 bol s ||
         match s with
         | String c1 s1 => negb (Ascii.eqb c1 newline) && star false s1
         | EmptyString => false
         end) bol s
  end.

Fixpoint search_from (p : list atom) (bol : bool) (s : string) : bool :=
  match_here p bol s ||
  match s with
  | String _ s1 => search_from p false s1
  | EmptyString => false
  end.

(** [re.search(pattern, s)] as a truth value. *)
Definition re_search (pattern s : string) : bool :=
  search_from (compile pattern) true s.

Definition exclude_patterns : list string :=
  ["^env/"; "^venv/"; ".*/site-packages/"; ".*/dist-packages/";
   "^tests/"; "^docs/"; "^\."].

(** [any(re.search(pattern, path) for pattern in exclude_patterns)]. *)
Definition excluded (path : string) : bool :=
  existsb (fun pattern => re_search pattern path) exclude_patterns.

(** [s.endswith(suffix)]. *)
Definition endswith (s suffix : string) : bool :=
  let n := String.length s in
  let m := String.length suffix in
  (m <=? n)%nat && String.eqb (substring (n - m) m s) suffix.

(** [f"{j}"].  The display of a list or dictionary is abridged. *)
Definition py_format (j : json) : string :=
  match j with
  | JStr s => s
  | JNull => "None"
  | JBool true => "True"
  | JBool false => "False"
  | JNum z => pretty z
  | JList _ => "[...]"
  | JDict _ => "{...}"
  end.

(** An element of the list [find_python_files] returns:
    [(path, num_lines, comment_ratio)]. *)
Definition candidate : Type := string * Z * float.

Section Walker.

Variable R : remote.
Variable decode_content : json -> result text.

Definition repo_url_of (repo_full_name : string) : string :=
  GITHUB_API_URL +:+ "/repos/" +:+ repo_full_name.

Definition tree_url (repo_full_name : string) (default_branch : json) : string :=
  GITHUB_API_URL +:+ "/repos/" +:+ repo_full_name +:+ "/git/trees/"
    +:+ py_format default_branch +:+ "?recursive=1".

(** Lines 280-295: the body of [for item in tree_data["tree"]], from the
    list [results] before the item to the list after it. *)
Definition walk_item (token repo_full_name : string) (min_lines max_lines : Z)
    (quality_threshold : float) (item : json) (results : list candidate)
    : M (list candidate) :=
  (ty <- lift (py_getitem item "type") ;;
   if is_str "blob" ty then
     path <- lift (py_getitem item "path") ;;
     match path with
     | JStr p =>
         if endswith p ".py" then
           if excluded p then ret results
           else
             stats <- get_file_content_and_stats R decode_content token repo_full_name p ;;
             match stats with
             | None => raise (TypeError "cannot unpack non-iterable NoneType object")
             | Some (_, num_lines, comment_ratio) =>
                 if (min_lines <=? num_lines) && (num_lines <=? max_lines)
                    && fleb quality_threshold comment_ratio
                 then ret (results ++ [(p, num_lines, comment_ratio)])
                 else ret results
             end
         else ret results
     | _ => raise (AttributeError "object has no attribute 'endswith'")
     end
   else ret results)%py.

(** The [for] loop.  [results] is a list the loop appends to, so what was
    appended before an exception is still there when a handler runs: the loop
    yields the list together with the exception that ended it, if any. *)
Fixpoint walk_items (token repo_full_name : string) (min_lines max_lines : Z)
    (quality_threshold : float) (items : list json) (results : list candidate)
    (w : world) : world * list candidate * option exn :=
  match items with
  | [] => (w, results, None)
  | item :: rest =>
      match walk_item token repo_full_name min_lines max_lines quality_threshold
              item results w with
      | (w1, Ok results1) =>
          walk_items token repo_full_name min_lines max_lines quality_threshold
            rest results1 w1
      | (w1, Raise e) => (w1, results, Some e)
      end
  end.

(** Lines 272-295, inside the outer [try]: the tree request, the test for
    ["tree"], and the loop. *)
Definition walk_tree (token repo_full_name : string) (min_lines max_lines : Z)
    (quality_threshold : float) (default_branch : json) (w : world)
    : world * list candidate * option exn :=
  match github_get R (tree_url repo_full_name default_branch) (headers_of token) w with
  | (w1, Raise e) => (w1, [], Some e)
  | (w1, Ok tree_data) =>
      match py_in "tree" tree_data with
      | Raise e => (w1, [], Some e)
      | Ok false => (w1, [], None)
      | Ok true =>
          match rbind (py_getitem tree_data "tree") py_iter with
          | Raise e => (w1, [], Some e)
          | Ok items =>
              walk_items token repo_full_name min_lines max_lines
                quality_threshold items [] w1
          end
      end
  end.

Definition find_python_files (token repo_full_name : string)
    (min_lines max_lines : Z) (quality_threshold : float) : M (list candidate) :=
  fun w =>
    match github_get R (repo_url_of repo_full_name) (headers_of token) w with
    | (w1, Raise (GitHubAPIError _ _ _)) =>
        (logging ERROR "Failed to fetch repository info for {repo_full_name}: {e}" w1, Ok [])
    | (w1, Raise e) => (w1, Raise e)
    | (w1, Ok repo_info) =>
        match (if is_dict repo_info then py_in "default_branch" repo_info
               else Ok false) with
        | Raise e => (w1, Raise e)
        | Ok false =>
            (logging WARNING "Repository info for {repo_full_name} is invalid or missing 'default_branch'.  Repo info: {repo_info}" w1,
             Ok [])
        | Ok true =>
            match py_getitem repo_info "default_branch" with
            | Raise e => (w1, Raise e)
            | Ok default_branch =>
                match walk_tree token repo_full_name min_lines max_lines
                        quality_threshold default_branch w1 with
                | (w2, results, None) => (w2, Ok results)
                | (w2, results, Some (GitHubAPIError _ _ _)) =>
                    (logging ERROR "Error during file search in {repo_full_name}: {e}" w2, Ok results)
                | (w2, _, Some e) => (w2, Raise e)
                end
            end
        end
    end.

End Walker.

End Walk.
Export Walk.

(* ===================================================================== *)
(** * Worker threads, the shared set and the aggregation *)
(* ===================================================================== *)

Module Orch.

(** An element of [existing_data] and of [processed_files]. *)
Definition key : Type := string * string.

(** The dictionary appended to [results]. *)
Record record : Type := {
  repo_url : string;
  python_file : string;
  num_lines : Z;
  comment_ratio : float
}.

Definition key_of (r : record) : key := (repo_url r, python_file r).

(** Where a thread stands in [process_repository].  Between two of these
    points a thread touches at most one shared object, so every interleaving
    of the threads is an interleaving of these steps. *)
Inductive pc : Type :=
| AtFor                      (* line 364: about to take the next file *)
| AtWith (c : candidate)     (* line 366: about to acquire the lock *)
| AtTest (c : candidate)     (* line 367: lock held, about to test the set *)
| AtAppend (c : candidate)   (* line 368: lock held, about to append *)
| AtAdd (c : candidate)      (* line 376: lock held, about to add the key *)
| AtExit                     (* leaving the [with]: about to release *)
| Returned                   (* line 381: the future holds the two results *)
| Crashed (e : exn)          (* [find_python_files] raised: the future holds [e] *)
| Joined.                    (* [main] has taken the future's outcome *)

(** The locals of one call of [process_repository]. *)
Record thread : Type := {
  html_url : string;
  initial_existing_data : gset key;
  python_files : list candidate;
  position : nat;
  at_pc : pc;
  results : list record;
  skipped_count : Z
}.

(** What the worker threads and [main] share: the set and its lock, the
    futures, and the two accumulators of [main]. *)
Record pool : Type := {
  processed_files : gset key;
  processed_files_lock : option nat;
  threads : list thread;
  all_results : list record;
  total_skipped : Z
}.

Definition path_of (c : candidate) : string := c.1.1.

Definition candidate_key (url : string) (c : candidate) : key := (url, path_of c).

Definition record_of (url : string) (c : candidate) : record :=
  {| repo_url := url; python_file := path_of c;
     num_lines := c.1.2; comment_ratio := c.2 |}.

Definition goto (t : thread) (p : pc) : thread :=
  {| html_url := html_url t; initial_existing_data := initial_existing_data t;
     python_files := python_files t; position := position t; at_pc := p;
     results := results t; skipped_count := skipped_count t |}.

Definition advance (t : thread) (p : pc) (skip : Z) : thread :=
  {| html_url := html_url t; initial_existing_data := initial_existing_data t;
     python_files := python_files t; position := S (position t); at_pc := p;
     results := results t; skipped_count := skipped_count t + skip |}.

Definition append (t : thread) (r : record) (p : pc) : thread :=
  {| html_url := html_url t; initial_existing_data := initial_existing_data t;
     python_files := python_files t; position := position t; at_pc := p;
     results := results t ++ [r]; skipped_count := skipped_count t |}.

(** The pool after thread [i] became [t], with the set and the lock as
    given. *)
Definition update (s : pool) (set : gset key) (lock : option nat) (i : nat)
    (t : thread) : pool :=
  {| processed_files := set;
     processed_files_lock := lock;
     threads := <[i := t]> (threads s);
     all_results := all_results s;
     total_skipped := total_skipped s |}.

(** One step of the call of [process_repository] that runs in thread [i],
    from line 364 on.  A thread that cannot move (it waits for the lock, it
    is done, or there is no such thread) leaves the pool as it is. *)
Definition process_repository (i : nat) (s : pool) : pool :=
  let set := processed_files s in
  let lock := processed_files_lock s in
  match threads s !! i with
  | None => s
  | Some t =>
      match at_pc t with
      | AtFor =>
          match python_files t !! position t with
          | None => update s set lock i (goto t Returned)
          | Some c =>
              if decide (candidate_key (html_url t) c ∈ initial_existing_data t)
              then update s set lock i (advance t AtFor 1)
              else update s set lock i (advance t (AtWith c) 0)
          end
      | AtWith c =>
          match lock with
          | None => update s set (Some i) i (goto t (AtTest c))
          | Some _ => s
          end
      | AtTest c =>
          if decide (candidate_key (html_url t) c ∈ set)
          then update s set lock i (goto t AtExit)
          else update s set lock i (goto t (AtAppend c))
      | AtAppend c =>
          update s set lock i (append t (record_of (html_url t) c) (AtAdd c))
      | AtAdd c =>
          update s ({[ candidate_key (html_url t) c ]} ∪ set) lock i (goto t AtExit)
      | AtExit => update s set None i (goto t AtFor)
      | Returned | Crashed _ | Joined => s
      end
  end.

(** Lines 552-561: [main] takes the outcome of future [i] once it is
    complete.  One that returned extends [all_results] and [total_skipped];
    one that raised is logged and adds nothing. *)
Definition join (i : nat) (s : pool) : pool :=
  match threads s !! i with
  | None => s
  | Some t =>
      match at_pc t with
      | Returned =>
          {| processed_files := processed_files s;
             processed_files_lock := processed_files_lock s;
             threads := <[i := goto t Joined]> (threads s);
             all_results := all_results s ++ results t;
             total_skipped := total_skipped s + skipped_count t |}
      | Crashed _ =>
          {| processed_files := processed_files s;
             processed_files_lock := processed_files_lock s;
             threads := <[i := goto t Joined]> (threads s);
             all_results := all_results s;
             total_skipped := total_skipped s |}
      | _ => s
      end
  end.

(** What happens next: a worker moves, or [main] takes a completed future. *)
Inductive action : Type :=
| Work (i : nat)
| Join (i : nat).

Definition exec (s : pool) (a : action) : pool :=
  match a with
  | Work i => process_repository i s
  | Join i => join i s
  end.

(** An interleaving is the list of the actions in the order they happen. *)
Definition run (schedule : list action) (s : pool) : pool :=
  fold_left exec schedule s.

(** A task submitted to the executor: the repository's [html_url] and what
    [find_python_files] did for it. *)
Definition job : Type := string * result (list candidate).

Definition files_of (j : job) : list candidate :=
  match j.2 with
  | Ok files => files
  | Raise _ => []
  end.

Definition start (existing_data : gset key) (j : job) : thread :=
  {| html_url := j.1;
     initial_existing_data := existing_data;
     python_files := files_of j;
     position := 0;
     at_pc := match j.2 with Ok _ => AtFor | Raise e => Crashed e end;
     results := [];
     skipped_count := 0 |}.

(** Lines 472-550: an empty [processed_files], a free lock, one thread per
    repository, each with its copy of [existing_data]; nothing collected. *)
Definition submit (existing_data : gset key) (jobs : list job) : pool :=
  {| processed_files := ∅;
     processed_files_lock := None;
     threads := map (start existing_data) jobs;
     all_results := [];
     total_skipped := 0 |}.

Definition joined (t : thread) : bool :=
  match at_pc t with
  | Joined => true
  | _ => false
  end.

(** [main] has left the executor block: every future was taken. *)
Definition all_joined (s : pool) : bool := forallb joined (threads s).

End Orch.

(* ===================================================================== *)
(** * Data of earlier runs *)
(* ===================================================================== *)

Module Existing.

(** What [json.load] can return: the values of [response.json()], and
    floats, which the files the scraper writes hold. *)
Local Unset Elimination Schemes.
Inductive value : Type :=
| VNull
| VBool (b : bool)
| VInt (n : Z)
| VFloat (f : float)
| VStr (s : string)
| VList (l : list value)
| VDict (d : list (string * value)).
Local Set Elimination Schemes.

(** The exceptions [open] and [json.load] raise on a file of the
    directory. *)
Inductive io_error : Type :=
| JSONDecodeError
| FileNotFoundError
| PermissionError
| IsADirectoryError
| UnicodeDecodeError.

(** [except (json.JSONDecodeError, FileNotFoundError)]. *)
Definition caught (e : io_error) : bool :=
  match e with
  | JSONDecodeError | FileNotFoundError => true
  | _ => false
  end.

(** What [open(filepath, "r")] followed by [json.load(f)] gives for one
    name of the directory. *)
Inductive reading : Type :=
| Parsed (data : value)
| Fails (e : io_error) (msg : string).

(** What [os.listdir(directory)] returns, in its order, each name with what
    reading it gives. *)
Definition directory : Type := list (string * reading).

(** An exception that leaves [load_existing_data]: one of the loop over the
    items, or one of reading a file that the handler does not catch. *)
Inductive thrown : Type :=
| OfItems (e : exn)
| OfFile (e : io_error) (msg : string).

Inductive outcome (A : Type) : Type :=
| Yields (a : A)
| Throws (r : thrown).
Arguments Yields {A} a.
Arguments Throws {A} r.

Fixpoint v_get (k : string) (d : list (string * value)) : option value :=
  match d with
  | [] => None
  | (k', v) :: d' => if String.eqb k k' then Some v else v_get k d'
  end.

Definition v_is_str (k : string) (v : value) : bool :=
  match v with
  | VStr s => String.eqb k s
  | _ => false
  end.

(** [k in v] for a string literal [k]. *)
Definition v_in (k : string) (v : value) : result bool :=
  match v with
  | VDict d => Ok (bool_decide (is_Some (v_get k d)))
  | VList l => Ok (existsb (v_is_str k) l)
  | VStr s => Ok (substringb k s)
  | VNull => Raise (TypeError "argument of type 'NoneType' is not iterable")
  | VBool _ => Raise (TypeError "argument of type 'bool' is not iterable")
  | VInt _ => Raise (TypeError "argument of type 'int' is not iterable")
  | VFloat _ => Raise (TypeError "argument of type 'float' is not iterable")
  end.

(** [v[k]] for a string literal [k]. *)
Definition v_getitem (v : value) (k : string) : result value :=
  match v with
  | VDict d =>
      match v_get k d with
      | Some x => Ok x
      | None => Raise (KeyError k)
      end
  | VList _ => Raise (TypeError "list indices must be integers or slices, not str")
  | VStr _ => Raise (TypeError "string indices must be integers, not 'str'")
  | _ => Raise (TypeError "object is not subscriptable")
  end.

(** The type name of a value that has no hash. *)
Definition unhashable (v : value) : option string :=
  match v with
  | VList _ => Some "list"
  | VDict _ => Some "dict"
  | _ => None
  end.

(** [existing_data.add((a, b))].  The tuple is hashed, which raises when a
    component is a list or a dictionary.  The set is only ever asked whether
    it holds a pair of strings ([process_repository], line 365), and a pair
    with a component of another type equals no pair of strings: the model
    keeps the pairs of strings of the set. *)
Definition add_pair (a b : value) (existing_data : gset Orch.key)
    : result (gset Orch.key) :=
  match unhashable a, unhashable b with
  | Some ty, _ | None, Some ty =>
      Raise (TypeError ("unhashable type: '" +:+ ty +:+ "'"))
  | None, None =>
      Ok match a, b with
         | VStr repo_url, VStr python_file => {[ (repo_url, python_file) ]} ∪ existing_data
         | _, _ => existing_data
         end
  end.

(** Lines 330-333: the body of [for item in data]. *)
Definition load_item (item : value) (existing_data : gset Orch.key)
    : result (gset Orch.key) :=
  rbind (v_in "repo_url" item) (fun has_url =>
  if has_url then
    rbind (v_in "python_file" item) (fun has_file =>
    if has_file then
      rbind (v_getitem item "repo_url") (fun a =>
      rbind (v_getitem item "python_file") (fun b =>
      add_pair a b existing_data))
    else Ok existing_data)
  else Ok existing_data).

Fixpoint load_items (items : list value) (existing_data : gset Orch.key)
    : result (gset Orch.key) :=
  match items with
  | [] => Ok existing_data
  | item :: rest => rbind (load_item item existing_data) (load_items rest)
  end.

(** Lines 323-338: the body of [for filename in os.listdir(directory)]. *)
Definition load_file (filename : string) (f : reading) (existing_data : gset Orch.key)
    (w : world) : world * outcome (gset Orch.key) :=
  if endswith filename ".json" then
    match f with
    | Parsed (VList items) =>
        match load_items items existing_data with
        | Ok existing_data1 => (w, Yields existing_data1)
        | Raise e => (w, Throws (OfItems e))
        end
    | Parsed _ => (w, Yields existing_data)
    | Fails e msg =>
        if caught e
        then (logging WARNING "Could not read {filename}: {e}" w, Yields existing_data)
        else (w, Throws (OfFile e msg))
    end
  else (w, Yields existing_data).

Fixpoint load_files (d : directory) (existing_data : gset Orch.key) (w : world)
    : world * outcome (gset Orch.key) :=
  match d with
  | [] => (w, Yields existing_data)
  | (filename, f) :: rest =>
      match load_file filename f existing_data w with
      | (w1, Yields existing_data1) => load_files rest existing_data1 w1
      | (w1, Throws r) => (w1, Throws r)
      end
  end.

Definition load_existing_data (d : directory) (w : world)
    : world * outcome (gset Orch.key) :=
  load_files d ∅ w.

(** The dictionary [process_repository] appends (lines 369-374), as a
    value. *)
Definition record_value (r : Orch.record) : value :=
  VDict [("repo_url", VStr (Orch.repo_url r));
         ("python_file", VStr (Orch.python_file r));
         ("num_lines", VInt (Orch.num_lines r));
         ("comment_ratio", VFloat (Orch.comment_ratio r))].

(** What [json.load] reads back from the file [main] wrote with
    [json.dump(all_results, f, indent=4)]: the list of the dictionaries,
    which [json] writes and reads without loss. *)
Definition dumped (all_results : list Orch.record) : value :=
  VList (map record_value all_results).

End Existing.

(* ===================================================================== *)
(** * The name of the output file *)
(* ===================================================================== *)

Module Naming.

(** [s.replace] of every ["-"] by the empty string. *)
Fixpoint remove_dashes (s : string) : string :=
  match s with
  | EmptyString => EmptyString
  | String c s' =>
      if Ascii.eqb c "-" then remove_dashes s' else String c (remove_dashes s')
  end.

Section Filename.

Variable R : remote.

(** [d.strftime("%Y%m%d-%H%M%S")] for a reading [d] of the clock, and
    [f"{x}"] for a float [x]: the text each gives is left open, they are
    functions of their argument alone. *)
Variable strftime : Z -> string.
Variable format_float : float -> string.

(** [base_name] is a parameter the body does not use. *)
Definition create_unique_filename (base_name : string)
    (max_repos min_lines max_lines : Z) (quality_threshold : float)
    (start_date end_date extension : string) : M string :=
  (d <- now R ;;
   let timestamp := strftime d in
   let start_date_str := remove_dashes start_date in
   let end_date_str := remove_dashes end_date in
   ret (timestamp +:+ "-" +:+ pretty max_repos +:+ "repos-Min" +:+ pretty min_lines
        +:+ "-Max" +:+ pretty max_lines +:+ "-Quality" +:+ format_float quality_threshold
        +:+ "-" +:+ start_date_str +:+ "-" +:+ end_date_str +:+ "." +:+ extension))%py.

End Filename.

End Naming.

(* ===================================================================== *)
(** * Vocabulary of the properties *)
(* ===================================================================== *)

(** What the properties are stated and proved with: notions about floats and
    patterns, what it means for the remote not to fail, the invariants of
    the worker pool, and the concrete remotes, payloads and schedules the
    examples run on.  Nothing here is part of the scraper. *)

Module Vocabulary.

Import Orch.

(** ** binary64 *)

(** [x] is a number (not NaN) whose sign bit is [s]. *)
Definition signed (s : bool) (x : float) : Prop :=
  match x with
  | S754_zero s1 | S754_infinity s1 | S754_finite s1 _ _ => s1 = s
  | S754_nan => False
  end.

(** [x] is neither zero, nor an infinity, nor NaN. *)
Definition is_finite (x : float) : Prop :=
  match x with
  | S754_finite _ _ _ => True
  | _ => False
  end.

(** ** Patterns and the exclusion rule *)

(** The atoms of a pattern that is one literal. *)
Definition literal (s : string) : list atom := map Chr (list_ascii_of_string s).

(** The exclusion rule in the words of the specification: rooted at [env/],
    [venv/], [tests/] or [docs/], or with a [site-packages/] or
    [dist-packages/] segment anywhere in the path, or starting with a dot. *)
Definition has_segment (name path : string) : bool :=
  String.prefix (name +:+ "/") path || substringb ("/" +:+ name +:+ "/") path.

Definition excluded_as_specified (path : string) : bool :=
  String.prefix "env/" path || String.prefix "venv/" path
  || String.prefix "tests/" path || String.prefix "docs/" path
  || has_segment "site-packages" path || has_segment "dist-packages" path
  || String.prefix "." path.

(** Lines 287-295 of [find_python_files]: what the loop does with the
    outcome [fetched] of [get_file_content_and_stats] for a file that passed
    the path filter. *)
Definition keep (min_lines max_lines : Z) (quality_threshold : float)
    (path : string) (results : list candidate)
    (fetched : world * result (option (text * Z * float)))
    : world * result (list candidate) :=
  match fetched with
  | (w1, Ok (Some (_, num_lines, comment_ratio))) =>
      (w1, Ok (if (min_lines <=? num_lines) && (num_lines <=? max_lines)
                  && fleb quality_threshold comment_ratio
               then results ++ [(path, num_lines, comment_ratio)]
               else results))
  | (w1, Ok None) =>
      (w1, Raise (TypeError "cannot unpack non-iterable NoneType object"))
  | (w1, Raise e) => (w1, Raise e)
  end.

(** ** A remote that does not fail *)

Definition search_url : string := GITHUB_API_URL +:+ "/search/repositories".

Definition rate_url : string := GITHUB_API_URL +:+ "/rate_limit".

(** The payload of [GET /rate_limit] with the given numbers. *)
Definition rate_payload (core_remaining core_reset search_remaining search_reset : Z)
    : json :=
  JDict [("resources",
          JDict [("core", JDict [("remaining", JNum core_remaining);
                                 ("reset", JNum core_reset)]);
                 ("search", JDict [("remaining", JNum search_remaining);
                                   ("reset", JNum search_reset)])])].



(** [time.sleep] carries out the duration [d] when [k] sleeps have been
    carried out: the duration converts to a number of nanoseconds that is
    not negative, and with it the monotonic clock stays below [2**63]. *)
Definition carried_out (R : remote) (k : nat) (d : pynum) : bool :=
  match nanoseconds d with
  | Ok timeout => (0 <=? timeout) && (monotonic R k + timeout <? 2 ^ 63)
  | Raise _ => false
  end.

(** The pause until the reset time [r] can be made at any moment of the
    run: [r] is a time [datetime.fromtimestamp] accepts, and the wait from
    any reading of the clock is one [time.sleep] carries out. *)
Definition pausable (R : remote) (r : Z) : Prop :=
  exists reset_time,
    fromtimestamp R (JNum r) = Ok reset_time
    /\ forall k n, carried_out R k (max0 (seconds_until reset_time (clock R n))) = true.


(** ** The worker pool: keys emitted and the lock *)

(** The program points inside the [with] block. *)
Definition holds_lock (p : pc) : bool :=
  match p with
  | AtTest _ | AtAppend _ | AtAdd _ | AtExit => true
  | _ => false
  end.

(** The candidate a thread has taken from the list and not yet settled. *)
Definition in_hand (p : pc) : option candidate :=
  match p with
  | AtWith c | AtTest c | AtAppend c | AtAdd c => Some c
  | _ => None
  end.

(** The key a thread has appended a record for and not yet added to the set. *)
Definition adding (t : thread) : option key :=
  match at_pc t with
  | AtAdd c => Some (candidate_key (html_url t) c)
  | _ => None
  end.

(** The keys of the records a thread holds that [main] has not taken. *)
Definition unjoined_keys (t : thread) : list key :=
  if joined t then [] else map key_of (results t).

(** The keys of all records emitted so far, taken by [main] or not, one
    occurrence per record. *)
Definition emitted (s : pool) : list key :=
  map key_of (all_results s) ++ concat (map unjoined_keys (threads s)).

(** The invariant of the pool for the snapshot [E]: every thread has a copy
    of [E]; the lock is held by exactly the thread inside the [with] block;
    no key was emitted twice and none is in [E]; the emitted keys are those
    of [processed_files], plus the one of the thread between its append and
    its add; a thread about to append holds a key that is not in the set; a
    key in hand is not in [E]; a future that raised has no results. *)
Record inv (E : gset key) (s : pool) : Prop := {
  inv_copy : forall i t, threads s !! i = Some t -> initial_existing_data t = E;
  inv_lock : forall i t, threads s !! i = Some t ->
    (holds_lock (at_pc t) = true <-> processed_files_lock s = Some i);
  inv_nodup : NoDup (emitted s);
  inv_fresh : forall k, k ∈ emitted s -> k ∉ E;
  inv_set : forall k, k ∈ emitted s <->
    k ∈ processed_files s \/ exists i t, threads s !! i = Some t /\ adding t = Some k;
  inv_append : forall i t c, threads s !! i = Some t -> at_pc t = AtAppend c ->
    candidate_key (html_url t) c ∉ processed_files s;
  inv_hand : forall i t c, threads s !! i = Some t -> in_hand (at_pc t) = Some c ->
    candidate_key (html_url t) c ∉ E;
  inv_crash : forall i t e, threads s !! i = Some t -> at_pc t = Crashed e ->
    results t = []
}.

(** Splits a lookup in an updated thread list into the updated thread and
    the others. *)
Ltac updated H :=
  apply list_lookup_insert_Some in H as [(<- & <- & _)|(? & H)].

(** ** The worker pool: one thread and its candidates *)

(** [tstep set t set1 t1]: with the shared set equal to [set], thread [t]
    can move to [t1], leaving the set equal to [set1].  These are the moves
    of [process_repository], seen from the thread that makes them. *)
Inductive tstep (set : gset key) (t : thread) : gset key -> thread -> Prop :=
| ts_end :
    at_pc t = AtFor -> python_files t !! position t = None ->
    tstep set t set (goto t Returned)
| ts_skip c :
    at_pc t = AtFor -> python_files t !! position t = Some c ->
    candidate_key (html_url t) c ∈ initial_existing_data t ->
    tstep set t set (advance t AtFor 1)
| ts_take c :
    at_pc t = AtFor -> python_files t !! position t = Some c ->
    candidate_key (html_url t) c ∉ initial_existing_data t ->
    tstep set t set (advance t (AtWith c) 0)
| ts_acquire c :
    at_pc t = AtWith c -> tstep set t set (goto t (AtTest c))
| ts_seen c :
    at_pc t = AtTest c -> candidate_key (html_url t) c ∈ set ->
    tstep set t set (goto t AtExit)
| ts_unseen c :
    at_pc t = AtTest c -> candidate_key (html_url t) c ∉ set ->
    tstep set t set (goto t (AtAppend c))
| ts_append c :
    at_pc t = AtAppend c ->
    tstep set t set (append t (record_of (html_url t) c) (AtAdd c))
| ts_add c :
    at_pc t = AtAdd c ->
    tstep set t ({[ candidate_key (html_url t) c ]} ∪ set) (goto t AtExit)
| ts_release :
    at_pc t = AtExit -> tstep set t set (goto t AtFor).

(** The keys of the candidates of a thread, and of a task as submitted. *)
Definition task_keys (t : thread) : list key :=
  map (candidate_key (html_url t)) (python_files t).

Definition job_keys (j : job) : list key :=
  map (candidate_key j.1) (files_of j).

(** The keys of all candidates of all tasks, with repetitions. *)
Definition candidates (jobs : list job) : list key := concat (map job_keys jobs).

(** The account a thread gives of its candidates, for the snapshot [E] and
    the shared set [set]: every candidate it has passed is in [E], or in
    [set], or in its hand; the one in hand is one of its files and not in
    [E]; a thread that returned has passed them all; a task that raised has
    none; the skip counter is the number of passed candidates that are in
    [E]; every record comes from a file whose key is not in [E]. *)
Record covered (E set : gset key) (t : thread) : Prop := {
  cov_copy : initial_existing_data t = E;
  cov_done : forall p c, (p < position t)%nat -> python_files t !! p = Some c ->
    (candidate_key (html_url t) c ∈ E) \/ (candidate_key (html_url t) c ∈ set)
    \/ (in_hand (at_pc t) = Some c);
  cov_hand : forall c, in_hand (at_pc t) = Some c ->
    c ∈ python_files t /\ (candidate_key (html_url t) c ∉ E);
  cov_end : at_pc t = Returned \/ at_pc t = Joined ->
    (length (python_files t) <= position t)%nat;
  cov_crash : forall e, at_pc t = Crashed e -> python_files t = [];
  cov_skipped : skipped_count t =
    Z.of_nat (length (filter (fun c => candidate_key (html_url t) c ∈ E)
                        (take (position t) (python_files t))));
  cov_results : forall r, r ∈ results t ->
    exists c, c ∈ python_files t /\ (candidate_key (html_url t) c ∉ E)
              /\ r = record_of (html_url t) c
}.

(** Closes the goal [cov_done] of a thread that moved on from the program
    point given by [Hpc] without passing a new candidate. *)
Ltac passed Hdone Hpc :=
  let p := fresh "p" in
  let c := fresh "c" in
  let Hp := fresh "Hp" in
  let Hc := fresh "Hc" in
  let Hcase := fresh "Hcase" in
  intros p c Hp Hc;
  destruct (Hdone p c Hp Hc) as [Hcase|[Hcase|Hcase]];
  [ now left
  | right; left; first [assumption | apply elem_of_union; right; assumption]
  | rewrite Hpc in Hcase; cbn in Hcase;
    first [ discriminate
          | right; right; assumption
          | inversion Hcase; subst; right; left;
            first [ assumption
                  | apply elem_of_union; left; apply elem_of_singleton; reflexivity ] ] ].

(** Every thread gives its account, and every record of [all_results] is a
    record of some thread. *)
Record accounted (E : gset key) (s : pool) : Prop := {
  acc_threads : forall i t, threads s !! i = Some t -> covered E (processed_files s) t;
  acc_results : forall r, r ∈ all_results s ->
    exists i t, threads s !! i = Some t /\ r ∈ results t
}.

(** The files of a thread whose skip counter [main] has not added to
    [total_skipped] yet. *)
Definition owed (t : thread) : list candidate :=
  if joined t then [] else python_files t.

(** A thread all of whose candidates are in its snapshot: it has no record,
    and it is at the loop head having skipped all it passed, or it returned
    having skipped all its files, or its task raised, or it was joined. *)
Record quiet (t : thread) : Prop := {
  q_known : forall c, c ∈ python_files t ->
    candidate_key (html_url t) c ∈ initial_existing_data t;
  q_results : results t = [];
  q_pc : (at_pc t = AtFor /\ skipped_count t = Z.of_nat (position t)
          /\ (position t <= length (python_files t))%nat)
         \/ (at_pc t = Returned /\ skipped_count t = Z.of_nat (length (python_files t)))
         \/ ((exists e, at_pc t = Crashed e) /\ python_files t = [])
         \/ at_pc t = Joined
}.

(** The invariant of a run in which every candidate is in the snapshot: [n]
    candidates in all, each either counted in [total_skipped] or owed. *)
Record rerun (n : Z) (s : pool) : Prop := {
  rr_quiet : forall i t, threads s !! i = Some t -> quiet t;
  rr_results : all_results s = [];
  rr_skipped : total_skipped s + Z.of_nat (length (concat (map owed (threads s)))) = n
}.

(** ** Remotes, payloads and schedules of the examples

    The remotes of the examples keep local time in UTC and their monotonic
    clock at 0. *)

(** A remote whose first [n] attempts time out and whose later attempts
    answer [body]. *)
Definition failing_first (n : nat) (body : json) : remote :=
  {| respond := fun k _ =>
       if (k <? n)%nat then RequestException "timed out" else Response body;
     clock := fun _ => 0; localtime := Some;
     monotonic := fun _ => 0 |}.

(** A remote that answers every attempt with [body] and whose clock always
    reads [t] microseconds after 1970-01-01 00:00:00. *)
Definition steady (body : json) (t : Z) : remote :=
  {| respond := fun _ _ => Response body; clock := fun _ => t; localtime := Some;
     monotonic := fun _ => 0 |}.

(** ASCII text as code points. *)
Definition text_of (s : string) : text :=
  map (fun c => N.of_nat (nat_of_ascii c)) (list_ascii_of_string s).

(** A decoder that takes the value at ["content"] as ASCII text. *)
Definition decode_ascii (j : json) : result text :=
  match j with
  | JStr s => Ok (text_of s)
  | _ => Raise (TypeError "a bytes-like object is required")
  end.

(** A tree entry. *)
Definition entry (ty path : string) : json :=
  JDict [("path", JStr path); ("mode", JStr "100644"); ("type", JStr ty)].

(** A remote that serves one repository whose default branch is [main]: its
    description, its tree, and for every other URL the outcome
    [contents url]. *)
Definition serving (full_name : string) (info : json) (tree : json)
    (contents : string -> http_outcome) : remote :=
  {| respond := fun _ c =>
       match c with
       | HttpGet url _ _ =>
           if String.eqb url (repo_url_of full_name) then Response info
           else if String.eqb url (tree_url full_name (JStr "main")) then Response tree
           else contents url
       | HttpPost _ _ _ => RequestException "405 Method Not Allowed"
       end;
     clock := fun _ => 0; localtime := Some;
     monotonic := fun _ => 0 |}.

Definition main_branch : json := JDict [("default_branch", JStr "main")].

(** The payload of a file holding the line [x = 1]. *)
Definition one_line : http_outcome := Response (JDict [("content", JStr "x = 1")]).

(** The outcome of an attempt on a file that cannot be fetched. *)
Definition unreachable : http_outcome := RequestException "502 Bad Gateway".

(** A repository with the files [a.py], [b.py] and [c.py], where the
    payload for [b.py] has no ["content"]. *)
Definition bare_entry_remote : remote :=
  serving "o/r" main_branch
    (JDict [("tree", JList [entry "blob" "a.py"; entry "blob" "b.py";
                            entry "blob" "c.py"])])
    (fun url => if String.eqb url (contents_url "o/r" "b.py")
                then Response (JDict [("type", JStr "file"); ("size", JNum 5)])
                else one_line).


(** A repository descriptor as the search returns it. *)
Definition repo (name : string) : json :=
  JDict [("full_name", JStr name); ("html_url", JStr ("https://github.com/" +:+ name))].

(** The schedule that lets each thread in turn run to its end (six steps per
    file at most, and one to return) and be joined. *)
Definition one_by_one (jobs : list job) : list action :=
  flat_map (fun ij : nat * job =>
              let n := length (files_of ij.2) in
              repeat (Work ij.1) (6 * n + 1) ++ [Join ij.1])
           (combine (seq 0 (length jobs)) jobs).

(** ** Outcomes of a request, and sleeps *)

(** The call gave up: it raised [GitHubAPIError]. *)
Definition gave_up {A} (r : result A) : bool :=
  match r with
  | Raise (GitHubAPIError _ _ _) => true
  | _ => false
  end.

(** A duration that is not negative and not NaN. *)
Definition sleepable (d : pynum) : bool :=
  match d with
  | PyInt z => 0 <=? z
  | PyFloat f => fleb fzero f
  end.

(** ** The budget of a search *)

(** The number of pages of 100 that hold [max_repos] repositories. *)
Definition pages_for (max_repos : Z) : nat := Z.to_nat ((max_repos + 99) / 100).

(** A payload that is no container: [null], a boolean or a number. *)
Definition is_scalar (j : json) : bool :=
  match j with
  | JNull | JBool _ | JNum _ => true
  | _ => false
  end.

(** ** Files written line by line *)



(** ** What the walk asks for and returns *)

(** The path of a tree entry whose content the walk requests: a blob whose
    path ends in [.py] and is not excluded. *)
Definition wanted (item : json) : option string :=
  match py_getitem item "type", py_getitem item "path" with
  | Ok ty, Ok (JStr p) =>
      if is_str "blob" ty && endswith p ".py" && negb (excluded p) then Some p else None
  | _, _ => None
  end.

Definition wanted_paths (items : list json) : list string := omap wanted items.

(** A candidate as the walk may return it: its path ends in [.py] and is not
    excluded, its line count is within the bounds and its ratio reaches the
    threshold. *)
Definition admissible (min_lines max_lines : Z) (quality_threshold : float)
    (c : candidate) : bool :=
  endswith c.1.1 ".py" && negb (excluded c.1.1)
  && (min_lines <=? c.1.2) && (c.1.2 <=? max_lines) && fleb quality_threshold c.2.

(** ** Files of earlier runs *)

Import Existing.

(** The pair of strings a list item contributes, if any. *)
Definition item_key (item : value) : option key :=
  match item with
  | VDict d =>
      match v_get "repo_url" d, v_get "python_file" d with
      | Some (VStr repo_url), Some (VStr python_file) => Some (repo_url, python_file)
      | _, _ => None
      end
  | _ => None
  end.

(** An item the loop passes without raising: a dictionary in which the two
    values, when both are there, have a hash; a list or a string that does
    not hold both names.  (A list or a string that holds both is subscripted
    with a string, which raises, as does the membership test on a number,
    a boolean or [null].) *)
Definition item_ok (item : value) : bool :=
  match item with
  | VDict d =>
      match v_get "repo_url" d, v_get "python_file" d with
      | Some a, Some b =>
          bool_decide (unhashable a = None) && bool_decide (unhashable b = None)
      | _, _ => true
      end
  | VList l =>
      negb (existsb (v_is_str "repo_url") l && existsb (v_is_str "python_file") l)
  | VStr s => negb (substringb "repo_url" s && substringb "python_file" s)
  | _ => false
  end.

(** The items of a file the function looks into. *)
Definition items_of (filename : string) (f : reading) : list value :=
  if endswith filename ".json" then
    match f with
    | Parsed (VList items) => items
    | _ => []
    end
  else [].

(** A file the function gets past: no exception of reading it escapes the
    handler, and every item is passed. *)
Definition file_ok (filename : string) (f : reading) : bool :=
  forallb item_ok (items_of filename f)
  && (negb (endswith filename ".json")
      || match f with
         | Fails e _ => caught e
         | Parsed _ => true
         end).

(** The keys a file holds. *)
Definition file_keys (filename : string) (f : reading) : list key :=
  omap item_key (items_of filename f).

(** The warnings a file adds to the log. *)
Definition file_warnings (filename : string) (f : reading) : list (level * string) :=
  if endswith filename ".json" then
    match f with
    | Fails e _ => if caught e then [(WARNING, "Could not read {filename}: {e}")] else []
    | Parsed _ => []
    end
  else [].

(** The world with more records in its log. *)
Definition logged_more (w : world) (records : list (level * string)) : world :=
  {| calls := calls w; slept := slept w; logged := logged w ++ records;
     ticks := ticks w |}.

(** A value that is no container and no string. *)
Definition v_scalar (v : value) : bool :=
  match v with
  | VNull | VBool _ | VInt _ | VFloat _ => true
  | _ => false
  end.

(** ** The worker pool: progress and collection *)

(** The lock is held by a thread that is inside the [with] block. *)
Definition owned (s : pool) : Prop :=
  forall i, processed_files_lock s = Some i ->
    exists t, threads s !! i = Some t /\ holds_lock (at_pc t) = true.

(** An upper bound on the steps a thread still takes before [main] has
    taken its future: six per file not yet taken from the list, and what is
    left of the file in hand. *)
Definition rank (p : pc) : nat :=
  match p with
  | AtWith _ => 7
  | AtTest _ => 6
  | AtAppend _ => 5
  | AtAdd _ => 4
  | AtExit => 3
  | AtFor => 2
  | Returned | Crashed _ => 1
  | Joined => 0
  end.

Definition steps_left (t : thread) : nat :=
  6 * (length (python_files t) - position t) + rank (at_pc t).

Definition work_left (s : pool) : nat :=
  foldr (fun t n => steps_left t + n)%nat 0%nat (threads s).

(** What [main] has taken from a thread. *)
Definition taken (t : thread) : list record := if joined t then results t else [].

Definition counted (t : thread) : Z := if joined t then skipped_count t else 0.

Definition sumZ (l : list Z) : Z := foldr Z.add 0 l.

(** [main]'s two accumulators hold what the futures taken so far returned;
    a future that raised holds nothing. *)
Record collected (s : pool) : Prop := {
  col_results : all_results s ≡ₚ concat (map taken (threads s));
  col_skipped : total_skipped s = sumZ (map counted (threads s));
  col_crashed : forall i t e, threads s !! i = Some t -> at_pc t = Crashed e ->
    results t = [] /\ skipped_count t = 0
}.

End Vocabulary.

(* ===================================================================== *)
(** * Properties of the request executor *)
(* ===================================================================== *)

Module RequestExecutor.

Import Vocabulary.

Section Facts.

Variable R : remote.

(** The request loop written out for the three attempts of [range(3)]. *)
Lemma make_github_request_cases url headers params method data c w :
  http_call_of url headers params method data = Some c ->
  make_github_request R url headers params method data w =
    match respond R (calls w) c with
    | Response body => (attempt_made w, Ok body)
    | RequestException e1 =>
        let w1 := sleep (PyInt 5) (logging WARNING retry_msg (attempt_made w)) in
        match respond R (S (calls w)) c with
        | Response body => (attempt_made w1, Ok body)
        | RequestException e2 =>
            let w2 := sleep (PyInt 10) (logging WARNING retry_msg (attempt_made w1)) in
            match respond R (S (S (calls w))) c with
            | Response body => (attempt_made w2, Ok body)
            | RequestException e3 =>
                (logging ERROR failed_msg (attempt_made w2),
                 Raise (GitHubAPIError url 3 e3))
            end
        end
    end.
Proof.
  intros Hc. unfold make_github_request, range, MAX_RETRIES.
  change (seqZ 0 3) with [0; 1; 2].
  cbn [request_loop]. rewrite !Hc.
  destruct (respond R (calls w) c) as [b1|e1]; [reflexivity|].
  change (0 =? 3 - 1) with false. change (5 * 2 ^ 0) with 5. cbn iota.
  change (calls (sleep _ (logging _ _ (attempt_made w)))) with (S (calls w)).
  destruct (respond R (S (calls w)) c) as [b2|e2]; [reflexivity|].
  change (1 =? 3 - 1) with false. change (5 * 2 ^ 1) with 10. cbn iota.
  match goal with
  | |- context [respond R (calls ?x) c] =>
      change (calls x) with (S (S (calls w)))
  end.
  destruct (respond R (S (S (calls w))) c) as [b3|e3]; reflexivity.
Qed.

(** A method other than GET and POST raises at once, before any attempt. *)
Lemma make_github_request_unsupported url headers params method data w :
  http_call_of url headers params method data = None ->
  make_github_request R url headers params method data w =
    (w, Raise (ValueError ("Unsupported HTTP method: " +:+ method))).
Proof.
  intros Hc. unfold make_github_request, range, MAX_RETRIES.
  change (seqZ 0 3) with [0; 1; 2]. cbn [request_loop]. now rewrite Hc.
Qed.

(** The only exception [github_get] can raise is [GitHubAPIError]. *)
Lemma github_get_raises url headers w w1 e :
  github_get R url headers w = (w1, Raise e) ->
  exists cause, e = GitHubAPIError url 3 cause.
Proof.
  unfold github_get.
  rewrite (make_github_request_cases url headers None "GET" None
             (HttpGet url headers None)) by reflexivity.
  repeat match goal with
         | |- context [match respond R ?n ?c with _ => _ end] =>
             destruct (respond R n c)
         end; cbn zeta; intros H; inversion H; eauto.
Qed.

(** Three failed attempts in a row end the call with [GitHubAPIError]. *)
Lemma make_github_request_exhausted url headers params method data c w :
  http_call_of url headers params method data = Some c ->
  (forall j, (j < 3)%nat ->
     exists e, respond R (calls w + j)%nat c = RequestException e) ->
  exists w1 cause,
    make_github_request R url headers params method data w
      = (w1, Raise (GitHubAPIError url 3 cause))
    /\ calls w1 = (calls w + 3)%nat.
Proof.
  intros Hc Hfail.
  rewrite (make_github_request_cases _ _ _ _ _ c w Hc).
  destruct (Hfail 0%nat ltac:(lia)) as [e0 H0].
  destruct (Hfail 1%nat ltac:(lia)) as [e1 H1].
  destruct (Hfail 2%nat ltac:(lia)) as [e2 H2].
  rewrite Nat.add_0_r in H0.
  replace (calls w + 1)%nat with (S (calls w)) in H1 by lia.
  replace (calls w + 2)%nat with (S (S (calls w))) in H2 by lia.
  rewrite H0. cbn zeta. rewrite H1, H2.
  eexists _, e2. split; [reflexivity|]. cbn. lia.
Qed.

(** A first attempt that succeeds is the whole call. *)
Lemma make_github_request_first url headers params method data c w body :
  http_call_of url headers params method data = Some c ->
  respond R (calls w) c = Response body ->
  make_github_request R url headers params method data w = (attempt_made w, Ok body).
Proof.
  intros Hc H. rewrite (make_github_request_cases _ _ _ _ _ c w Hc). now rewrite H.
Qed.

(** C4.  Every call of the request executor makes at most three attempts.
    When the first [k < 3] attempts fail and the next one succeeds, the call
    returns the payload of that success, after [k + 1] attempts.  When all
    three attempts fail, the call raises [GitHubAPIError] whose attempt count
    is 3, after exactly 3 attempts. *)
Theorem make_github_request_attempts url headers params method data c w :
  http_call_of url headers params method data = Some c ->
  let out := make_github_request R url headers params method data w in
  (forall (k : nat) payload, (k < 3)%nat ->
     (forall j, (j < k)%nat ->
        exists e, respond R (calls w + j)%nat c = RequestException e) ->
     respond R (calls w + k)%nat c = Response payload ->
     out.2 = Ok payload /\ calls out.1 = (calls w + S k)%nat)
  /\ ((forall j, (j < 3)%nat ->
         exists e, respond R (calls w + j)%nat c = RequestException e) ->
      exists cause,
        out.2 = Raise (GitHubAPIError url 3 cause) /\
        calls out.1 = (calls w + 3)%nat)
  /\ (calls out.1 <= calls w + 3)%nat.
Proof.
  intros Hc out. subst out.
  rewrite (make_github_request_cases _ _ _ _ _ c w Hc).
  split; [|split].
  - intros k payload Hk Hfail Hok.
    destruct k as [|[|[|k]]]; try lia.
    + rewrite Nat.add_0_r in Hok. rewrite Hok. cbn. split; [reflexivity|lia].
    + destruct (Hfail 0%nat ltac:(lia)) as [e0 H0].
      rewrite Nat.add_0_r in H0. rewrite H0.
      replace (calls w + 1)%nat with (S (calls w)) in Hok by lia.
      cbn zeta. rewrite Hok. cbn. split; [reflexivity|lia].
    + destruct (Hfail 0%nat ltac:(lia)) as [e0 H0].
      destruct (Hfail 1%nat ltac:(lia)) as [e1 H1].
      rewrite Nat.add_0_r in H0. rewrite H0.
      replace (calls w + 1)%nat with (S (calls w)) in H1 by lia.
      replace (calls w + 2)%nat with (S (S (calls w))) in Hok by lia.
      cbn zeta. rewrite H1, Hok. cbn. split; [reflexivity|lia].
  - intros Hfail.
    destruct (Hfail 0%nat ltac:(lia)) as [e0 H0].
    destruct (Hfail 1%nat ltac:(lia)) as [e1 H1].
    destruct (Hfail 2%nat ltac:(lia)) as [e2 H2].
    rewrite Nat.add_0_r in H0.
    replace (calls w + 1)%nat with (S (calls w)) in H1 by lia.
    replace (calls w + 2)%nat with (S (S (calls w))) in H2 by lia.
    rewrite H0. cbn zeta. rewrite H1, H2. exists e2. cbn. split; [reflexivity|lia].
  - repeat match goal with
           | |- context [match respond R ?n c with _ => _ end] =>
               destruct (respond R n c)
           end; cbn; lia.
Qed.


End Facts.

(** The theorem at a remote that fails twice and then answers, and at one
    that fails three times. *)
Lemma make_github_request_attempts_witness :
  let ok := make_github_request (failing_first 2 (JNum 7)) "u" [] None "GET" None world0 in
  let ko := make_github_request (failing_first 3 (JNum 7)) "u" [] None "GET" None world0 in
  (ok.2 = Ok (JNum 7) /\ calls ok.1 = 3%nat) /\
  (exists cause, ko.2 = Raise (GitHubAPIError "u" 3 cause) /\ calls ko.1 = 3%nat).
Proof.
  split.
  - destruct (make_github_request_attempts (failing_first 2 (JNum 7))
                "u" [] None "GET" None (HttpGet "u" [] None) world0 eq_refl)
      as [H _].
    apply (H 2%nat (JNum 7)).
    + repeat constructor.
    + intros j Hj. exists "timed out".
      destruct j as [|[|j]]; [reflexivity | reflexivity | exfalso; lia].
    + reflexivity.
  - destruct (make_github_request_attempts (failing_first 3 (JNum 7))
                "u" [] None "GET" None (HttpGet "u" [] None) world0 eq_refl)
      as (_ & H & _).
    apply H. intros j Hj. exists "timed out".
    destruct j as [|[|[|j]]]; [reflexivity | reflexivity | reflexivity | exfalso; lia].
Defined.

(** The sleeps of a call that fails for good. *)
Example backoff_delays_exhausted :
  slept (make_github_request (failing_first 3 JNull) "u" [] None "GET" None world0).1
  = [PyInt 5; PyInt 10].
Proof. reflexivity. Qed.

End RequestExecutor.

(* ===================================================================== *)
(** * Properties of the rate-limit checks *)
(* ===================================================================== *)

Module RateLimitMonitor.

Import Vocabulary.

Section Facts.

Variable R : remote.

(** [get_rate_limit_status] swallows every exception. *)
Lemma get_rate_limit_status_total token w :
  exists o, (get_rate_limit_status R token w).2 = Ok o.
Proof.
  unfold get_rate_limit_status.
  destruct (github_get R _ _ w) as [w1 [data|e]]; cbn.
  - destruct (py_truthy data); [|eauto].
    destruct (read_snapshot data); eauto.
  - destruct e; eauto.
Qed.

(** [time.sleep] either sleeps the duration or raises and leaves the world
    as it was. *)
Lemma time_sleep_carried_out d w :
  carried_out R (length (slept w)) d = true -> time_sleep R d w = (sleep d w, Ok tt).
Proof.
  unfold carried_out, time_sleep. destruct (nanoseconds d) as [timeout|e]; [|discriminate].
  intros [Hpos Hfit]%andb_prop.
  apply Z.leb_le in Hpos. apply Z.ltb_lt in Hfit.
  destruct (Z.ltb_spec timeout 0); [lia|].
  destruct (Z.leb_spec (2 ^ 63) (monotonic R (length (slept w)) + timeout)); [lia|].
  reflexivity.
Qed.

Lemma time_sleep_refused d w :
  carried_out R (length (slept w)) d = false -> exists e, time_sleep R d w = (w, Raise e).
Proof.
  unfold carried_out, time_sleep. destruct (nanoseconds d) as [timeout|e]; [|eauto].
  intros Hno.
  destruct (Z.ltb_spec timeout 0); [eauto|].
  destruct (Z.leb_spec (2 ^ 63) (monotonic R (length (slept w)) + timeout)); [eauto|].
  exfalso. apply andb_false_iff in Hno as [Hno|Hno].
  - apply Z.leb_gt in Hno. lia.
  - apply Z.ltb_ge in Hno. lia.
Qed.

(** The pause both checks share: once the reset time is a [datetime], one
    reading of the clock and one call of [time.sleep]. *)
Lemma wait_for_reset_sleep q notice reset_time w :
  fromtimestamp R (reset q) = Ok reset_time ->
  wait_for_reset R q notice w =
    time_sleep R (max0 (seconds_until reset_time (clock R (ticks w))))
      (match notice with
       | Some msg => logging WARNING msg (tick w)
       | None => tick w
       end).
Proof.
  intros Hr. unfold wait_for_reset, bind, lift, now. rewrite Hr.
  destruct notice; reflexivity.
Qed.

Lemma wait_for_reset_no_datetime q notice e w :
  fromtimestamp R (reset q) = Raise e -> wait_for_reset R q notice w = (w, Raise e).
Proof. intros Hr. unfold wait_for_reset, bind, lift. now rewrite Hr. Qed.





(** Where local time is [off] seconds from UTC at the reset time, that time
    as a [datetime] is the timestamp moved by [off]. *)
Lemma fromtimestamp_offset r off reset_time :
  fromtimestamp R (JNum r) = Ok reset_time ->
  localtime R r = Some (r + off) ->
  reset_time = (r + off) * 1000000.
Proof.
  unfold fromtimestamp. cbn [timestamp_of rbind].
  destruct ((r <? - 2 ^ 63) || (2 ^ 63 <=? r)); [discriminate|].
  intros H Hloc. unfold local at 1 in H. rewrite Hloc in H.
  unfold utc_to_seconds at 1 in H.
  destruct ((r + off <? year_1_start) || (year_9999_end <? r + off)); [discriminate|].
  cbn [rbind] in H.
  destruct (local R (r - max_fold_seconds)) as [probe_seconds|]; [|discriminate].
  cbn [rbind] in H.
  destruct (if r + off - probe_seconds - max_fold_seconds <? 0
            then local R (r + (r + off - probe_seconds - max_fold_seconds))
            else Ok probe_seconds); [|discriminate].
  cbn [rbind] in H. congruence.
Qed.

(** C9, as the code has it.  Given a fresh snapshot with numeric fields: the
    throttle of the search loop goes for a pause exactly when the remaining
    count of the [search] category is at most 1; the check [main] makes
    before any work goes for one exactly when the remaining count of the
    [core] category equals 0, and after the pause reads the status once
    more.  The pause is made when [datetime.fromtimestamp] accepts the reset
    time and [time.sleep] carries out the wait: it is then one sleep of
    [max(0, (reset_time - now).total_seconds() + 1)] seconds, computed from
    the category's reset time and one reading of the clock, both as local
    times.  When the reset time is refused, or the wait is, nothing is
    slept: the search raises the exception, and [main] returns.  Where local
    time is at the same distance from UTC at the reset time and at the
    reading of the clock, the wait is [max(0, reset - now + 1)] with [reset]
    and [now] in seconds since the epoch. *)
Theorem throttle_pauses token w w1 s :
  get_rate_limit_status R token w = (w1, Ok (Some s)) ->
  (forall n r, remaining (search s) = JNum n -> reset (search s) = JNum r ->
     let w2 := logging WARNING low_quota_msg (tick w1) in
     (1 < n -> search_throttle R token w = (w1, Ok tt))
     /\ (n <= 1 -> forall reset_time,
           fromtimestamp R (JNum r) = Ok reset_time ->
           let wait_time := max0 (seconds_until reset_time (clock R (ticks w1))) in
           (carried_out R (length (slept w1)) wait_time = true ->
            search_throttle R token w = (sleep wait_time w2, Ok tt))
           /\ (carried_out R (length (slept w1)) wait_time = false ->
               exists e, search_throttle R token w = (w2, Raise e)))
     /\ (n <= 1 -> forall e,
           fromtimestamp R (JNum r) = Raise e ->
           search_throttle R token w = (w1, Raise e)))
  /\ (forall n r, remaining (core s) = JNum n -> reset (core s) = JNum r ->
     (n <> 0 -> preflight R token w = (w1, true))
     /\ (n = 0 -> forall reset_time,
           fromtimestamp R (JNum r) = Ok reset_time ->
           let wait_time := max0 (seconds_until reset_time (clock R (ticks w1))) in
           (carried_out R (length (slept w1)) wait_time = true ->
            let again := get_rate_limit_status R token (sleep wait_time (tick w1)) in
            preflight R token w =
              (again.1, match again.2 with Ok (Some _) => true | _ => false end))
           /\ (carried_out R (length (slept w1)) wait_time = false ->
               preflight R token w = (tick w1, false)))
     /\ (n = 0 -> forall e,
           fromtimestamp R (JNum r) = Raise e ->
           preflight R token w = (w1, false)))
  /\ (forall r off reset_time now_us,
        fromtimestamp R (JNum r) = Ok reset_time ->
        localtime R r = Some (r + off) ->
        max0 (seconds_until reset_time (now_us + off * 1000000))
        = max0 (fadd (total_seconds (r * 1000000 - now_us)) (float_of_Z 1))).
Proof.
  intros Hs. split_and!.
  - intros n r Hn Hr w2.
    assert (forall low, (n <=? 1) = low ->
              search_throttle R token w =
                if low then wait_for_reset R (search s) (Some low_quota_msg) w1
                else (w1, Ok tt)) as Hthrottle.
    { intros low <-. unfold search_throttle, bind. rewrite Hs. unfold lift at 1.
      rewrite Hn. cbn [py_le_int]. now destruct (n <=? 1). }
    split_and!.
    + intros Hhigh. apply (Hthrottle false). apply Z.leb_gt. lia.
    + intros Hlow reset_time Hreset wait_time.
      rewrite (Hthrottle true) by (apply Z.leb_le; lia).
      rewrite (wait_for_reset_sleep _ _ reset_time) by (now rewrite Hr).
      fold wait_time. fold w2. split.
      * intros Hgo. now rewrite time_sleep_carried_out.
      * intros Hno. now apply time_sleep_refused.
    + intros Hlow e Hreset.
      rewrite (Hthrottle true) by (apply Z.leb_le; lia).
      apply wait_for_reset_no_datetime. now rewrite Hr.
  - intros n r Hn Hr.
    assert (forall zero, (n =? 0) = zero ->
              preflight R token w =
                if zero then
                  match wait_for_reset R (core s) None w1 with
                  | (w2, Ok _) =>
                      let again := get_rate_limit_status R token w2 in
                      (again.1, match again.2 with Ok (Some _) => true | _ => false end)
                  | (w2, Raise _) => (w2, false)
                  end
                else (w1, true)) as Hcheck.
    { intros zero <-. unfold preflight, preflight_body, bind. rewrite Hs, Hn.
      cbn [py_eq_int]. destruct (n =? 0); [|reflexivity].
      destruct (wait_for_reset R (core s) None w1) as [w2 [[]|e]]; [|reflexivity].
      cbn zeta.
      destruct (get_rate_limit_status_total token w2) as [o Ho].
      destruct (get_rate_limit_status R token w2) as [w3 res]. cbn in Ho. subst res.
      destruct o; reflexivity. }
    split_and!.
    + intros Hn0. apply (Hcheck false). now apply Z.eqb_neq.
    + intros Hn0 reset_time Hreset wait_time.
      rewrite (Hcheck true) by (now apply Z.eqb_eq).
      rewrite (wait_for_reset_sleep _ _ reset_time) by (now rewrite Hr).
      fold wait_time. split.
      * intros Hgo. now rewrite time_sleep_carried_out.
      * intros Hno. destruct (time_sleep_refused wait_time (tick w1) Hno) as [e ->].
        reflexivity.
    + intros Hn0 e Hreset.
      rewrite (Hcheck true) by (now apply Z.eqb_eq).
      rewrite (wait_for_reset_no_datetime _ _ e) by (now rewrite Hr). reflexivity.
  - intros r off reset_time now_us Hreset Hloc.
    rewrite (fromtimestamp_offset r off reset_time Hreset Hloc).
    unfold seconds_until. do 3 f_equal. lia.
Qed.

End Facts.

(** With one request left in [core], the check before any work does not
    pause, although the remaining count is at most 1. *)
Lemma preflight_no_pause_at_one :
  let R := steady (rate_payload 1 2000 30 2000) 1000000000 in
  (exists w1 s,
     get_rate_limit_status R "t" world0 = (w1, Ok (Some s)) /\
     remaining (core s) = JNum 1 /\ py_le_int (remaining (core s)) 1 = Ok true)
  /\ preflight R "t" world0 =
       ({| calls := 1; slept := []; logged := []; ticks := 0 |}, true).
Proof.
  split; [|reflexivity].
  eexists _, _. split; [reflexivity|]. split; reflexivity.
Qed.

(** The theorem at a snapshot with no request left in [core] and one left in
    [search], 1000 seconds before the reset: both checks sleep 1001 seconds. *)
Lemma throttle_pauses_witness :
  let R := steady (rate_payload 0 2000 1 2000) 1000000000 in
  search_throttle R "t" world0 =
    ({| calls := 1; slept := [PyFloat (float_of_Z 1001)];
        logged := [(WARNING, low_quota_msg)]; ticks := 1 |}, Ok tt)
  /\ preflight R "t" world0 =
    ({| calls := 2; slept := [PyFloat (float_of_Z 1001)]; logged := []; ticks := 1 |},
     true).
Proof.
  pose (R := steady (rate_payload 0 2000 1 2000) 1000000000).
  destruct (throttle_pauses R "t" world0
              {| calls := 1; slept := []; logged := []; ticks := 0 |}
              {| core := {| remaining := JNum 0; reset := JNum 2000 |};
                 search := {| remaining := JNum 1; reset := JNum 2000 |} |}
              eq_refl) as (Hs & Hp & _).
  split.
  - destruct (Hs 1 2000 eq_refl eq_refl) as (_ & Hpause & _).
    destruct (Hpause ltac:(lia) 2000000000 eq_refl) as [Hgo _].
    exact (Hgo eq_refl).
  - destruct (Hp 0 2000 eq_refl eq_refl) as (_ & Hpause & _).
    destruct (Hpause eq_refl 2000000000 eq_refl) as [Hgo _].
    exact (Hgo eq_refl).
Defined.

(** Local time goes back by an hour 1000 seconds after the epoch.  The
    clock is read 900 seconds before that and the reset time lies 900
    seconds after it: on the wall clock the reset time is 1800 seconds in
    the past, and the throttle sleeps 0 seconds. *)
Example pause_when_clocks_go_back :
  let R := {| respond := fun _ _ => Response (rate_payload 5000 0 1 1900);
              clock := fun _ => 7300000000;
              localtime := fun t => Some (t + (if t <? 1000 then 7200 else 3600));
              monotonic := fun _ => 0 |} in
  search_throttle R "t" world0 =
    ({| calls := 1; slept := [PyInt 0];
        logged := [(WARNING, low_quota_msg)]; ticks := 1 |}, Ok tt).
Proof. vm_compute. reflexivity. Qed.

(** A reset time 430 years ahead: the wait does not fit the nanoseconds of
    [time.sleep], which raises after the warning was logged. *)
Example pause_too_long :
  search_throttle (steady (rate_payload 5000 0 1 13569465600) 0) "t" world0 =
    ({| calls := 1; slept := [];
        logged := [(WARNING, low_quota_msg)]; ticks := 1 |},
     Raise (OverflowError too_large)).
Proof. vm_compute. reflexivity. Qed.

End RateLimitMonitor.

(* ===================================================================== *)
(** * Facts about binary64 arithmetic *)
(* ===================================================================== *)

Module Binary64.

Import Vocabulary.

Lemma shr_1_nonneg mrs : 0 <= shr_m mrs -> 0 <= shr_m (shr_1 mrs).
Proof.
  destruct mrs as [m r s]. cbn [shr_m].
  destruct m as [|p|p]; [| |lia]; intros _.
  - cbn. lia.
  - destruct p; cbn; lia.
Qed.

Lemma iter_pos_preserves {A} (P : A -> Prop) (f : A -> A) :
  (forall x, P x -> P (f x)) -> forall p x, P x -> P (SpecFloat.iter_pos f p x).
Proof.
  intros Hf. induction p as [p IH|p IH|]; intros x Hx; cbn; auto.
Qed.

Lemma shr_nonneg mrs e n : 0 <= shr_m mrs -> 0 <= shr_m (shr mrs e n).1.
Proof.
  intros H. unfold shr. destruct n; cbn [fst]; try assumption.
  apply (iter_pos_preserves (fun x => 0 <= shr_m x)); auto using shr_1_nonneg.
Qed.

Lemma shr_fexp_nonneg prec emax m e l :
  0 <= m -> 0 <= shr_m (shr_fexp prec emax m e l).1.
Proof.
  intros H. unfold shr_fexp. apply shr_nonneg.
  destruct l as [|[]]; exact H.
Qed.

Lemma round_nearest_even_nonneg m l : 0 <= m -> 0 <= round_nearest_even m l.
Proof.
  intros H. destruct l as [|[]]; cbn; try lia. destruct (Z.even m); lia.
Qed.

Lemma binary_round_aux_signed prec emax s m e l :
  0 <= m -> signed s (binary_round_aux prec emax s m e l).
Proof.
  intros H. unfold binary_round_aux.
  pose proof (shr_fexp_nonneg prec emax m e l H) as H1.
  destruct (shr_fexp prec emax m e l) as [mrs1 e1]. cbn [fst] in H1.
  pose proof (shr_fexp_nonneg prec emax _ e1 loc_Exact
                (round_nearest_even_nonneg _ (loc_of_shr_record mrs1) H1)) as H2.
  destruct (shr_fexp prec emax _ e1 loc_Exact) as [mrs2 e2]. cbn [fst] in H2.
  destruct (shr_m mrs2) as [|p|p]; [reflexivity| |lia].
  destruct (e2 <=? emax - prec); reflexivity.
Qed.

Lemma float_of_Z_signed z : 0 <= z -> signed false (float_of_Z z).
Proof.
  intros H. unfold float_of_Z, binary_normalize.
  destruct z as [|p|p]; [reflexivity| |lia].
  unfold binary_round. destruct (shl_align _ _ _) as [mz ez].
  apply binary_round_aux_signed. lia.
Qed.

Lemma fdiv_signed x y :
  signed false x -> signed false y -> is_finite y -> signed false (fdiv x y).
Proof.
  unfold fdiv, SFdiv.
  destruct x as [sx|sx| |sx mx ex], y as [sy|sy| |sy my ey]; cbn;
    try contradiction; try (intros; subst; reflexivity).
  intros -> -> _.
  destruct (SFdiv_core_binary 53 1024 (Z.pos mx) ex (Z.pos my) ey) as [[mz ez] lz] eqn:E.
  apply binary_round_aux_signed.
  unfold SFdiv_core_binary in E.
  destruct (Z.div_eucl _ (Z.pos my)) as [q r] eqn:D. inversion E; subst.
  match type of D with Z.div_eucl ?a _ = _ =>
    pose proof (Z_div_mod a (Z.pos my) ltac:(lia)) as Hd; rewrite D in Hd;
    assert (0 <= a) end.
  { destruct (ex - ey - _); try lia. apply Z.shiftl_nonneg. lia. }
  nia.
Qed.

Lemma fmul_signed x y :
  signed false x -> signed false y -> is_finite y -> signed false (fmul x y).
Proof.
  unfold fmul, SFmul.
  destruct x as [sx|sx| |sx mx ex], y as [sy|sy| |sy my ey]; cbn;
    try contradiction; try (intros; subst; reflexivity).
  intros -> -> _. apply binary_round_aux_signed. lia.
Qed.

Lemma fleb_zero_signed x : signed false x -> fleb fzero x = true.
Proof. destruct x; cbn; try contradiction; intros ->; reflexivity. Qed.

Lemma digits2_pos_size p : digits2_pos p = Pos.size p.
Proof. induction p; cbn; congruence. Qed.

Lemma digits2_pos_iter p k :
  digits2_pos (Pos.iter xO p k) = (digits2_pos p + k)%positive.
Proof.
  induction k as [|k IH] using Pos.peano_ind.
  - cbn. lia.
  - rewrite Pos.iter_succ. cbn. rewrite IH. lia.
Qed.

Lemma digits2_pos_bound p : Z.pos p < 2 ^ 53 -> Z.pos (digits2_pos p) <= 53.
Proof.
  intros H. rewrite digits2_pos_size.
  pose proof (Pos.size_le p) as Hs.
  assert (2 ^ Z.pos (Pos.size p) <= 2 * Z.pos p) as Hz.
  { rewrite <- Pos2Z.inj_pow. change (2 * Z.pos p) with (Z.pos p~0). lia. }
  assert (2 ^ Z.pos (Pos.size p) < 2 ^ 54) as Hlt.
  { change (2 ^ 54) with (2 * 2 ^ 53). lia. }
  apply Z.pow_lt_mono_r_iff in Hlt; lia.
Qed.

Lemma binary_round_aux_exact s m e :
  Z.pos (digits2_pos m) = 53 -> -1074 <= e <= 971 ->
  binary_round_aux 53 1024 s (Z.pos m) e loc_Exact = S754_finite s m e.
Proof.
  intros Hd He.
  assert (shr_fexp 53 1024 (Z.pos m) e loc_Exact =
          ({| shr_m := Z.pos m; shr_r := false; shr_s := false |}, e)) as Hshr.
  { unfold shr_fexp, Zdigits2, fexp, emin. rewrite Hd.
    replace (Z.max (53 + e - 53) (3 - 1024 - 53) - e) with 0 by lia.
    reflexivity. }
  unfold binary_round_aux. rewrite Hshr. cbn [shr_m loc_of_shr_record round_nearest_even].
  rewrite Hshr. cbn [shr_m].
  destruct (Z.leb_spec e (1024 - 53)); [reflexivity|lia].
Qed.

Lemma float_of_Z_finite z : 0 < z < 2 ^ 53 -> is_finite (float_of_Z z).
Proof.
  intros [H0 H]. destruct z as [|p|p]; try lia. clear H0.
  pose proof (digits2_pos_bound p H) as Hd.
  unfold float_of_Z, binary_normalize, binary_round, shl_align.
  assert (fexp 53 1024 (Z.pos (digits2_pos p) + 0) = Z.pos (digits2_pos p) - 53) as ->.
  { unfold fexp, emin. lia. }
  destruct (Z.pos (digits2_pos p) - 53 - 0) as [|k|k] eqn:Hk; try lia.
  - rewrite binary_round_aux_exact; [exact I| lia | lia].
  - rewrite binary_round_aux_exact; [exact I| | lia].
    rewrite digits2_pos_iter. lia.
Qed.

End Binary64.

(* ===================================================================== *)
(** * Properties of the line statistics *)
(* ===================================================================== *)

Module ContentStats.

Import Vocabulary.

Import Binary64.

Lemma count_comments_from lines : forall a,
  a <= fold_left (fun comment_lines line =>
                    if is_comment line then comment_lines + 1 else comment_lines)
         lines a
    <= a + Z.of_nat (length lines).
Proof.
  induction lines as [|line lines IH]; intros a; cbn [fold_left length].
  - lia.
  - destruct (is_comment line); specialize (IH (a + 1)) as IH1;
      specialize (IH a) as IH0; lia.
Qed.

Lemma count_comments_bounds lines :
  0 <= count_comments lines <= Z.of_nat (length lines).
Proof. apply (count_comments_from lines 0). Qed.

(** Only the empty text has no lines. *)
Lemma splitlines_from_nil cur s : splitlines_from cur s = [] -> cur = [] /\ s = [].
Proof.
  revert cur. induction s as [|c rest IH]; intros cur; cbn [splitlines_from].
  - destruct cur; [tauto|discriminate].
  - destruct (N.eqb c 13).
    + destruct rest as [|c2 rest2]; [discriminate|].
      destruct (N.eqb c2 10); discriminate.
    + destruct (is_linebreak c); [discriminate|].
      intros H. apply IH in H as [H _]. discriminate.
Qed.

Lemma splitlines_nil s : splitlines s = [] <-> s = [].
Proof.
  split.
  - intros H. now apply splitlines_from_nil in H.
  - intros ->. reflexivity.
Qed.

(** C7.  For the triple computed from a decoded file of fewer than 2^53
    lines: the line count is the number of lines; it is the sum of the
    comment lines and the code lines, both non-negative; the ratio is
    non-negative; it is [comment_lines / code_lines * 100] (binary64) when
    there is a code line, and exactly [0.0] when there is none, the empty
    file included, for which the triple is [("", 0, 0.0)]. *)
Theorem stats_of_invariants content :
  let lines := splitlines content in
  let total := Z.of_nat (length lines) in
  let comments := count_comments lines in
  let code := code_lines_of total comments in
  total < 2 ^ 53 ->
  (stats_of content).1.2 = total /\
  total = comments + code /\ 0 <= comments /\ 0 <= code /\
  fleb fzero (stats_of content).2 = true /\
  (0 < code ->
     (stats_of content).2 = fmul (int_truediv comments code) (float_of_Z 100)) /\
  (code = 0 -> (stats_of content).2 = fzero) /\
  (content = [] -> stats_of content = ([], 0, fzero)).
Proof.
  intros lines total comments code Hbound.
  pose proof (count_comments_bounds lines) as Hc.
  fold total comments in Hc.
  assert (total = comments + code) as Hsum by (unfold code, code_lines_of; lia).
  assert (0 <= code) as Hcode by (unfold code, code_lines_of; lia).
  unfold stats_of. fold lines total comments code.
  destruct (Z.eqb_spec total 0) as [Hz|Hnz].
  - cbn [fst snd]. split_and!; first [lia | reflexivity | intros; lia].
  - cbn [fst snd]. unfold comment_ratio_of.
    split; [reflexivity|]. split; [exact Hsum|].
    split; [lia|]. split; [exact Hcode|].
    split; [|split; [|split]].
    + destruct (Z.ltb_spec 0 code) as [Hpos|Hle]; [|reflexivity].
      apply fleb_zero_signed. apply fmul_signed; [| reflexivity | exact I].
      apply fdiv_signed.
      * apply float_of_Z_signed. lia.
      * apply float_of_Z_signed. lia.
      * apply float_of_Z_finite. lia.
    + intros Hpos. destruct (Z.ltb_spec 0 code); [reflexivity|lia].
    + intros H0. destruct (Z.ltb_spec 0 code); [lia|reflexivity].
    + intros ->. exfalso. apply Hnz. reflexivity.
Qed.

(** The theorem at a file of three lines, two of them comments. *)
Lemma stats_of_invariants_witness :
  let content := text_of "# one
x = 1
  # two
" in
  (stats_of content).1.2 = 3 /\ 3 = 2 + 1 /\
  fleb fzero (stats_of content).2 = true /\
  (stats_of content).2 = fmul (int_truediv 2 1) (float_of_Z 100).
Proof.
  pose (content := text_of "# one
x = 1
  # two
").
  destruct (stats_of_invariants content) as (Hn & Hsum & _ & _ & Hge & Hratio & _).
  - vm_compute. reflexivity.
  - split_and!.
    + exact Hn.
    + exact Hsum.
    + exact Hge.
    + apply Hratio. vm_compute. reflexivity.
Defined.

(** Ten lines, three of them comments: the ratio is [3/7 * 100], the double
    nearest to 42.857142857142854. *)
Example stats_of_ten_lines :
  stats_of (text_of "# a
# b
# c
d
e
f
g
h
i
j") =
  (text_of "# a
# b
# c
d
e
f
g
h
i
j", 10, S754_finite false 6031606643799771 (-47)).
Proof. vm_compute. reflexivity. Qed.

(** A file made of comments only reports [0.0]. *)
Example stats_of_comments_only :
  stats_of (text_of "# a
# b") = (text_of "# a
# b", 2, fzero).
Proof. vm_compute. reflexivity. Qed.

Section Returned.

Variable R : remote.
Variable decode_content : json -> result text.

(** What [get_file_content_and_stats] returns: [None] when the payload has
    no ["content"], the triple of the decoded text when it has, the triple
    of the empty text when the request failed for good. *)
Lemma get_file_content_and_stats_returns token repo_full_name file_path w w1 t :
  get_file_content_and_stats R decode_content token repo_full_name file_path w
    = (w1, Ok (Some t)) ->
  exists decoded_content, t = stats_of decoded_content.
Proof.
  unfold get_file_content_and_stats.
  destruct (github_get R _ _ w) as [w2 [file_data|e]].
  - destruct (py_in "content" file_data) as [[|]|]; try discriminate.
    destruct (rbind _ decode_content) as [d|]; [|discriminate].
    intros H. inversion H. eauto.
  - destruct e; try discriminate. intros H. inversion H. exists []. reflexivity.
Qed.

End Returned.

End ContentStats.

(* ===================================================================== *)
(** * Properties of the path filter *)
(* ===================================================================== *)

Module TreeFilter.

Import Vocabulary.

Lemma match_here_literal lit : forall bol s,
  match_here (literal lit) bol s = String.prefix lit s.
Proof.
  induction lit as [|a lit IH]; intros bol s.
  - destruct s; reflexivity.
  - destruct s as [|b s]; [reflexivity|].
    cbn [literal list_ascii_of_string map match_here String.prefix].
    fold (literal lit). rewrite IH.
    destruct (ascii_dec a b) as [->|Hne].
    + now rewrite Ascii.eqb_refl.
    + apply Ascii.eqb_neq in Hne. now rewrite Hne.
Qed.

Lemma search_from_caret_later p s : search_from (Caret :: p) false s = false.
Proof. induction s as [|c s IH]; cbn; [reflexivity|exact IH]. Qed.

(** [^lit] finds a match exactly in the strings that start with [lit]. *)
Lemma search_anchored lit s :
  search_from (Caret :: literal lit) true s = String.prefix lit s.
Proof.
  destruct s as [|c s]; cbn [search_from match_here andb].
  - rewrite match_here_literal. now rewrite orb_false_r.
  - rewrite match_here_literal, search_from_caret_later. now rewrite orb_false_r.
Qed.

Lemma star_literal_sound lit : forall s bol,
  match_here (AnyStar :: literal lit) bol s = true -> substringb lit s = true.
Proof.
  induction s as [|c s IH]; intros bol; cbn [match_here].
  - rewrite match_here_literal. cbn. now rewrite !orb_false_r.
  - rewrite match_here_literal. cbn [substringb].
    destruct (String.prefix lit (String c s)); [reflexivity|]. cbn [orb].
    intros H. apply andb_true_iff in H as [_ H]. exact (IH false H).
Qed.

(** [.*lit] finds a match exactly in the strings that contain [lit]. *)
Lemma search_floating lit : forall s bol,
  search_from (AnyStar :: literal lit) bol s = substringb lit s.
Proof.
  induction s as [|c s IH]; intros bol.
  - cbn. rewrite match_here_literal. cbn. now rewrite !orb_false_r.
  - cbn [search_from substringb]. rewrite IH.
    destruct (String.prefix lit (String c s)) eqn:Hp.
    + cbn [match_here]. rewrite match_here_literal, Hp. reflexivity.
    + cbn [orb].
      destruct (match_here (AnyStar :: literal lit) bol (String c s)) eqn:Hm;
        [|reflexivity].
      apply star_literal_sound in Hm. cbn [substringb] in Hm. rewrite Hp in Hm.
      cbn [orb] in *. now rewrite Hm.
Qed.

(** The exclusion test, pattern by pattern. *)
Lemma excluded_spec path :
  excluded path =
    String.prefix "env/" path || String.prefix "venv/" path
    || substringb "/site-packages/" path || substringb "/dist-packages/" path
    || String.prefix "tests/" path || String.prefix "docs/" path
    || String.prefix "." path.
Proof.
  unfold excluded, exclude_patterns, re_search. cbn [existsb].
  change (compile "^env/") with (Caret :: literal "env/").
  change (compile "^venv/") with (Caret :: literal "venv/").
  change (compile ".*/site-packages/") with (AnyStar :: literal "/site-packages/").
  change (compile ".*/dist-packages/") with (AnyStar :: literal "/dist-packages/").
  change (compile "^tests/") with (Caret :: literal "tests/").
  change (compile "^docs/") with (Caret :: literal "docs/").
  change (compile "^\.") with (Caret :: literal ".").
  rewrite !search_anchored, !search_floating.
  rewrite orb_false_r. now rewrite !orb_assoc.
Qed.

Section Facts.

Variable R : remote.
Variable decode_content : json -> result text.

Lemma github_get_calls url headers w :
  (calls w < calls (github_get R url headers w).1)%nat.
Proof.
  unfold github_get.
  rewrite (RequestExecutor.make_github_request_cases R url headers None "GET" None
             (HttpGet url headers None)) by reflexivity.
  repeat match goal with
         | |- context [match respond R ?n ?c with _ => _ end] =>
             destruct (respond R n c)
         end; cbn; lia.
Qed.

Lemma get_file_content_and_stats_calls token repo_full_name file_path w :
  (calls w <
   calls (get_file_content_and_stats R decode_content token repo_full_name file_path w).1)%nat.
Proof.
  unfold get_file_content_and_stats.
  pose proof (github_get_calls (contents_url repo_full_name file_path)
                (headers_of token) w) as H.
  destruct (github_get R _ _ w) as [w1 [file_data|e]]; cbn [fst] in H.
  - destruct (py_in "content" file_data) as [[|]|]; cbn [fst]; try exact H.
    destruct (rbind _ decode_content); exact H.
  - destruct e; exact H.
Qed.

Lemma walk_item_cases token repo_full_name min_lines max_lines quality_threshold
    item ty path results w :
  py_getitem item "type" = Ok (JStr ty) ->
  py_getitem item "path" = Ok (JStr path) ->
  walk_item R decode_content token repo_full_name min_lines max_lines
    quality_threshold item results w =
  if String.eqb "blob" ty && endswith path ".py" && negb (excluded path)
  then keep min_lines max_lines quality_threshold path results
         (get_file_content_and_stats R decode_content token repo_full_name path w)
  else (w, Ok results).
Proof.
  intros Hty Hpath. unfold walk_item, bind, lift. rewrite Hty. cbn [is_str].
  destruct (String.eqb "blob" ty); [|reflexivity].
  rewrite Hpath. cbn [andb].
  destruct (endswith path ".py"); [|reflexivity].
  destruct (excluded path); [reflexivity|]. cbn [andb negb].
  unfold keep.
  destruct (get_file_content_and_stats R decode_content token repo_full_name path w)
    as [w1 [[[[t n] r]|]|e]]; try reflexivity.
  unfold ret. destruct (_ && _); reflexivity.
Qed.

(** C6, as the code has it.  A tree entry with a textual type and path has
    its content requested exactly when it is a blob whose path ends in [.py]
    and is not excluded; otherwise the loop leaves the world and the results
    as they are.  A path is excluded exactly when it starts with [env/],
    [venv/], [tests/], [docs/] or a dot, or contains [/site-packages/] or
    [/dist-packages/] (so below the top level).  [tests/unit/test_x.py] is
    excluded and [app/tests_helper.py] is not. *)
Theorem tree_filter token repo_full_name min_lines max_lines quality_threshold
    item ty path results w :
  py_getitem item "type" = Ok (JStr ty) ->
  py_getitem item "path" = Ok (JStr path) ->
  let survives := String.eqb "blob" ty && endswith path ".py" && negb (excluded path) in
  let out := walk_item R decode_content token repo_full_name min_lines max_lines
               quality_threshold item results w in
  excluded path =
    (String.prefix "env/" path || String.prefix "venv/" path
     || substringb "/site-packages/" path || substringb "/dist-packages/" path
     || String.prefix "tests/" path || String.prefix "docs/" path
     || String.prefix "." path)
  /\ (survives = false -> out = (w, Ok results))
  /\ (survives = true ->
       out = keep min_lines max_lines quality_threshold path results
               (get_file_content_and_stats R decode_content token repo_full_name path w)
       /\ (calls w < calls out.1)%nat)
  /\ excluded "tests/unit/test_x.py" = true
  /\ excluded "app/tests_helper.py" = false.
Proof.
  intros Hty Hpath survives out. subst out.
  rewrite (walk_item_cases _ _ _ _ _ _ ty path) by assumption.
  fold survives.
  split; [apply excluded_spec|].
  split; [intros ->; reflexivity|].
  split; [|split; reflexivity].
  intros ->. split; [reflexivity|].
  pose proof (get_file_content_and_stats_calls token repo_full_name path w) as H.
  unfold keep.
  destruct (get_file_content_and_stats R decode_content token repo_full_name path w)
    as [w1 [[[[t n] r]|]|e]]; exact H.
Qed.

End Facts.

(** A top-level [site-packages/] has a [site-packages/] segment, yet the
    patterns do not exclude it and the file becomes a candidate. *)
Lemma top_level_site_packages_kept :
  let R := serving "o/r" (JDict [("default_branch", JStr "main")])
             (JDict [("tree", JList [entry "blob" "site-packages/a.py"])])
             (fun _ => one_line) in
  excluded_as_specified "site-packages/a.py" = true
  /\ excluded "site-packages/a.py" = false
  /\ (find_python_files R decode_ascii "t" "o/r" 1 100 fzero world0).2
     = Ok [("site-packages/a.py", 1, fzero)].
Proof. vm_compute. auto. Qed.

(** The theorem at [src/a.py], which is fetched and kept, and at
    [tests/a.py], which is excluded. *)
Lemma tree_filter_witness :
  let R := serving "o/r" (JDict [("default_branch", JStr "main")]) JNull
             (fun _ => one_line) in
  walk_item R decode_ascii "t" "o/r" 1 100 fzero (entry "blob" "src/a.py") [] world0
    = ({| calls := 1; slept := []; logged := []; ticks := 0 |},
       Ok [("src/a.py", 1, fzero)])
  /\ walk_item R decode_ascii "t" "o/r" 1 100 fzero (entry "blob" "tests/a.py") [] world0
    = (world0, Ok []).
Proof.
  pose (R := serving "o/r" (JDict [("default_branch", JStr "main")]) JNull
               (fun _ => one_line)).
  split.
  - destruct (tree_filter R decode_ascii "t" "o/r" 1 100 fzero
                (entry "blob" "src/a.py") "blob" "src/a.py" [] world0
                eq_refl eq_refl) as (_ & _ & H & _).
    destruct (H eq_refl) as [H1 _]. exact H1.
  - destruct (tree_filter R decode_ascii "t" "o/r" 1 100 fzero
                (entry "blob" "tests/a.py") "blob" "tests/a.py" [] world0
                eq_refl eq_refl) as (_ & H & _).
    exact (H eq_refl).
Defined.

End TreeFilter.

(* ===================================================================== *)
(** * Properties of the file-tree walk *)
(* ===================================================================== *)

Module FileTreeWalker.

Import Vocabulary.

Import TreeFilter.

Section Facts.

Variable R : remote.
Variable decode_content : json -> result text.

(** A payload that is a dictionary without ["content"] makes the function
    fall off its end: it returns [None], not a triple. *)
Lemma get_file_content_and_stats_no_content token repo_full_name file_path w w1 d :
  github_get R (contents_url repo_full_name file_path) (headers_of token) w
    = (w1, Ok (JDict d)) ->
  dict_get "content" d = None ->
  get_file_content_and_stats R decode_content token repo_full_name file_path w
    = (w1, Ok None).
Proof.
  intros Hget Hd. unfold get_file_content_and_stats. rewrite Hget.
  cbn [py_in]. rewrite Hd. reflexivity.
Qed.

(** Repository information without ["default_branch"]: a warning is logged
    and the walk returns the empty list. *)
Lemma find_python_files_no_default_branch token repo_full_name min_lines max_lines
    quality_threshold w w1 d :
  github_get R (repo_url_of repo_full_name) (headers_of token) w = (w1, Ok (JDict d)) ->
  dict_get "default_branch" d = None ->
  find_python_files R decode_content token repo_full_name min_lines max_lines
    quality_threshold w
  = (logging WARNING "Repository info for {repo_full_name} is invalid or missing 'default_branch'.  Repo info: {repo_info}" w1, Ok []).
Proof.
  intros Hget Hd. unfold find_python_files. rewrite Hget.
  cbn [is_dict py_in]. rewrite Hd. reflexivity.
Qed.

(** A tree payload without ["tree"]: the walk returns the empty list, and
    nothing is written to the log. *)
Lemma find_python_files_no_tree token repo_full_name min_lines max_lines
    quality_threshold w w1 w2 d branch t :
  github_get R (repo_url_of repo_full_name) (headers_of token) w = (w1, Ok (JDict d)) ->
  dict_get "default_branch" d = Some branch ->
  github_get R (tree_url repo_full_name branch) (headers_of token) w1
    = (w2, Ok (JDict t)) ->
  dict_get "tree" t = None ->
  find_python_files R decode_content token repo_full_name min_lines max_lines
    quality_threshold w
  = (w2, Ok []).
Proof.
  intros Hget Hd Htree Ht. unfold find_python_files. rewrite Hget.
  cbn [is_dict py_in py_getitem]. rewrite Hd. cbn.
  unfold walk_tree. rewrite Htree. cbn [py_in]. rewrite Ht. reflexivity.
Qed.

(** The loop only appends. *)
Lemma walk_item_extends token repo_full_name min_lines max_lines quality_threshold
    item results w w1 results1 :
  walk_item R decode_content token repo_full_name min_lines max_lines
    quality_threshold item results w = (w1, Ok results1) ->
  results `prefix_of` results1.
Proof.
  unfold walk_item, bind, lift, ret, raise.
  destruct (py_getitem item "type") as [ty|]; [|discriminate].
  destruct (is_str "blob" ty); [|intros H; inversion H; reflexivity].
  destruct (py_getitem item "path") as [[| | |p| |]|]; try discriminate.
  destruct (endswith p ".py"); [|intros H; inversion H; reflexivity].
  destruct (excluded p); [intros H; inversion H; reflexivity|].
  destruct (get_file_content_and_stats R decode_content token repo_full_name p w)
    as [w2 [[[[t n] r]|]|e]]; try discriminate.
  destruct (_ && _); intros H; inversion H; [apply prefix_app_r|]; reflexivity.
Qed.

Lemma walk_items_extends token repo_full_name min_lines max_lines quality_threshold
    items : forall results w,
  results `prefix_of`
    (walk_items R decode_content token repo_full_name min_lines max_lines
       quality_threshold items results w).1.2.
Proof.
  induction items as [|item items IH]; intros results w; cbn [walk_items].
  - reflexivity.
  - destruct (walk_item R decode_content token repo_full_name min_lines max_lines
                quality_threshold item results w) as [w1 [results1|e]] eqn:E.
    + etrans; [exact (walk_item_extends _ _ _ _ _ _ _ _ _ _ E)|apply IH].
    + reflexivity.
Qed.

(** C10, as the code has it.  When the three attempts to fetch the content
    of a file fail, [get_file_content_and_stats] returns [("", 0, 0.0)].  If
    the file passed the path filter, [min_lines <= 0 <= max_lines] and
    [quality_threshold <= 0.0], the loop appends [(path, 0, 0.0)] to the
    results, where it stays while the loop goes on. *)
Theorem failed_fetch_is_candidate token repo_full_name min_lines max_lines
    quality_threshold item path results w :
  py_getitem item "type" = Ok (JStr "blob") ->
  py_getitem item "path" = Ok (JStr path) ->
  endswith path ".py" = true ->
  excluded path = false ->
  (forall j, (j < 3)%nat ->
     exists e, respond R (calls w + j)%nat
                 (HttpGet (contents_url repo_full_name path) (headers_of token) None)
               = RequestException e) ->
  exists w1,
    get_file_content_and_stats R decode_content token repo_full_name path w
      = (w1, Ok (Some ([], 0, fzero)))
    /\ calls w1 = (calls w + 3)%nat
    /\ (min_lines <= 0 <= max_lines -> fleb quality_threshold fzero = true ->
        walk_item R decode_content token repo_full_name min_lines max_lines
          quality_threshold item results w = (w1, Ok (results ++ [(path, 0, fzero)]))
        /\ forall rest,
             (path, 0, fzero) ∈
               (walk_items R decode_content token repo_full_name min_lines max_lines
                  quality_threshold (item :: rest) results w).1.2).
Proof.
  intros Hty Hpath Hpy Hex Hfail.
  destruct (RequestExecutor.make_github_request_exhausted R
              (contents_url repo_full_name path) (headers_of token) None "GET" None
              _ w eq_refl Hfail) as (w0 & cause & Hraise & Hcalls).
  assert (get_file_content_and_stats R decode_content token repo_full_name path w
          = (logging ERROR "Error getting file stats for {repo_full_name}/{file_path}: {e}"
               (github_get R (contents_url repo_full_name path) (headers_of token) w).1,
             Ok (Some ([], 0, fzero)))) as Hstats.
  { unfold get_file_content_and_stats, github_get in *. rewrite Hraise. reflexivity. }
  assert (calls (github_get R (contents_url repo_full_name path) (headers_of token) w).1
          = (calls w + 3)%nat) as Hcalls'.
  { unfold github_get. rewrite Hraise. exact Hcalls. }
  eexists. split; [exact Hstats|]. split; [exact Hcalls'|].
  intros [Hmin Hmax] Hq.
  assert (walk_item R decode_content token repo_full_name min_lines max_lines
            quality_threshold item results w
          = (logging ERROR "Error getting file stats for {repo_full_name}/{file_path}: {e}"
               (github_get R (contents_url repo_full_name path) (headers_of token) w).1,
             Ok (results ++ [(path, 0, fzero)]))) as Hitem.
  { rewrite (walk_item_cases R decode_content _ _ _ _ _ _ "blob" path) by assumption.
    rewrite Hpy, Hex. cbn [String.eqb Ascii.eqb Bool.eqb andb negb].
    rewrite Hstats. unfold keep. rewrite Hq.
    destruct (Z.leb_spec min_lines 0); [|lia].
    destruct (Z.leb_spec 0 max_lines); [|lia]. reflexivity. }
  split; [exact Hitem|].
  intros rest. cbn [walk_items]. rewrite Hitem.
  eapply elem_of_prefix; [|apply walk_items_extends].
  apply elem_of_app. right. apply list_elem_of_singleton. reflexivity.
Qed.

End Facts.

(** With [min_lines = -5] and [max_lines = -1] (so [min_lines <= 0] and
    [min_lines <= max_lines]) and a threshold of [0.0], a file whose content
    cannot be fetched gets the triple [("", 0, 0.0)] and is not a candidate:
    its line count 0 is above [max_lines]. *)
Lemma failed_fetch_above_max_lines :
  let R := serving "o/r" main_branch JNull (fun _ => unreachable) in
  (get_file_content_and_stats R decode_ascii "t" "o/r" "a.py" world0).2
    = Ok (Some ([], 0, fzero))
  /\ -5 <= 0 /\ -5 <= -1 /\ fleb fzero fzero = true
  /\ (walk_item R decode_ascii "t" "o/r" (-5) (-1) fzero (entry "blob" "a.py") [] world0).2
     = Ok [].
Proof. vm_compute. split_and!; try reflexivity; discriminate. Qed.

(** The theorem at a file that cannot be fetched, with [min_lines = 0] and
    [max_lines = 100]. *)
Lemma failed_fetch_is_candidate_witness :
  let R := serving "o/r" main_branch JNull (fun _ => unreachable) in
  exists w1,
    walk_item R decode_ascii "t" "o/r" 0 100 fzero (entry "blob" "a.py") [] world0
      = (w1, Ok [("a.py", 0, fzero)]).
Proof.
  pose (R := serving "o/r" main_branch JNull (fun _ => unreachable)).
  destruct (failed_fetch_is_candidate R decode_ascii "t" "o/r" 0 100 fzero
              (entry "blob" "a.py") "a.py" [] world0
              eq_refl eq_refl eq_refl eq_refl) as (w1 & _ & _ & H).
  - intros j _. exists "502 Bad Gateway". reflexivity.
  - exists w1. destruct H as [H _]; [lia | reflexivity | exact H].
Defined.

(** C2, where the code departs from it.  The tree lists [a.py], [b.py] and
    [c.py]; [a.py] has its content, the payload for [b.py] has none.
    [get_file_content_and_stats] returns [None] for [b.py], the unpacking
    raises [TypeError], and the walk ends with that exception: the candidate
    found for [a.py] is lost and [c.py] is never requested (four requests
    were made: the repository, the tree, [a.py] and [b.py]); nothing is
    logged. *)
Lemma missing_content_raises :
  find_python_files bare_entry_remote decode_ascii "t" "o/r" 1 100 fzero world0
  = ({| calls := 4; slept := []; logged := []; ticks := 0 |},
     Raise (TypeError "cannot unpack non-iterable NoneType object"))
  /\ (walk_items bare_entry_remote decode_ascii "t" "o/r" 1 100 fzero
        [entry "blob" "a.py"] [] world0).1.2 = [("a.py", 1, fzero)].
Proof. vm_compute. split; reflexivity. Qed.

End FileTreeWalker.

(* ===================================================================== *)
(** * Properties of the repository search *)
(* ===================================================================== *)

Module RepositorySearcher.

Import Vocabulary.

Import RateLimitMonitor.

(** ** The inner loop *)

Lemma append_items_take items : forall repos max_repos,
  len repos < max_repos ->
  append_items items repos max_repos
    = repos ++ take (Z.to_nat (max_repos - len repos)) items.
Proof.
  unfold len.
  induction items as [|item rest IH]; intros repos max_repos Hlt; cbn [append_items].
  - now rewrite take_nil, app_nil_r.
  - replace (Z.to_nat (max_repos - Z.of_nat (length repos)))
      with (S (Z.to_nat (max_repos - Z.of_nat (length (repos ++ [item])))))
      by (rewrite length_app; cbn [length]; lia).
    cbn [take]. unfold len.
    destruct (Z.leb_spec max_repos (Z.of_nat (length (repos ++ [item])))) as [Hle|Hgt].
    + replace (Z.to_nat (max_repos - Z.of_nat (length (repos ++ [item])))) with 0%nat by lia.
      reflexivity.
    + rewrite IH by exact Hgt. rewrite <- app_assoc. reflexivity.
Qed.

Lemma append_items_grows items repos max_repos :
  items <> [] -> (length repos < length (append_items items repos max_repos))%nat.
Proof.
  destruct items as [|item rest]; [congruence|]. intros _. cbn [append_items].
  assert (forall its rs, (length rs <= length (append_items its rs max_repos))%nat) as Hmono.
  { induction its as [|i its IH]; intros rs; cbn [append_items]; [lia|].
    destruct (max_repos <=? len (rs ++ [i])).
    - rewrite length_app. cbn. lia.
    - etrans; [|apply IH]. rewrite length_app. cbn. lia. }
  destruct (max_repos <=? len (repos ++ [item])).
  - rewrite length_app. cbn. lia.
  - eapply Nat.lt_le_trans; [|apply Hmono]. rewrite length_app. cbn. lia.
Qed.

Lemma py_iter_nonempty items its :
  py_truthy items = true -> py_iter items = Ok its -> its <> [].
Proof.
  destruct items as [| | |s|l|d]; cbn; try discriminate.
  - destruct s as [|c s]; [discriminate|]. intros _ H. inversion H.
    unfold chars. cbn [code_points].
    destruct s as [|c2 s2]; [discriminate|].
    destruct (is_continuation c2); [|discriminate].
    destruct (code_points (String c2 s2)); discriminate.
  - destruct l; [discriminate|]. intros _ H. inversion H. discriminate.
  - destruct d; [discriminate|]. intros _ H. inversion H. discriminate.
Qed.

Section Facts.

Variable R : remote.

(** ** One page *)

Lemma search_page_continue headers query max_repos repos page w w1 repos1 page1 :
  search_page R headers query max_repos repos page w = (w1, Ok (Continue repos1 page1)) ->
  (length repos < length repos1)%nat.
Proof.
  unfold search_page, bind, lift, ret.
  destruct (make_github_request R _ _ _ _ _ w) as [w2 [data|e]]; [|discriminate].
  destruct (py_in "items" data) as [[|]|]; cbn [negb]; try discriminate.
  destruct (py_getitem data "items") as [items|]; [|discriminate].
  destruct (py_truthy items) eqn:Ht; cbn [negb]; [|discriminate].
  destruct (py_iter items) as [its|] eqn:Hi; [|discriminate].
  destruct (py_len items) as [n|]; [|discriminate].
  destruct (n <? per_page); [discriminate|].
  intros H. inversion H. subst.
  apply append_items_grows. eapply py_iter_nonempty; eassumption.
Qed.

Lemma search_iteration_continue token headers query max_repos repos page w w1 repos1 page1 :
  search_iteration R token headers query max_repos repos page w
    = (w1, Ok (Continue repos1 page1)) ->
  (length repos < length repos1)%nat.
Proof.
  unfold search_iteration, bind.
  destruct (search_throttle R token w) as [w2 [[]|e]]; [|discriminate].
  destruct (search_page R headers query max_repos repos page w2) as [w3 [f|e]] eqn:E.
  - intros H. inversion H. subst. eapply search_page_continue. exact E.
  - destruct e; discriminate.
Qed.



(** ** The loop returns *)


(** ** A remote that serves every request *)






End Facts.



(** A reset time 1000 seconds ahead of the clock is one the pause can be
    made for. *)
Example steady_pausable body : pausable (steady body 1000000000) 2000.
Proof. exists 2000000000. split; [reflexivity|]. intros k n. reflexivity. Qed.


(** No request fails, but the status leaves one search request and names
    a reset time in the year 33658: the throttle raises before the first
    page is asked for. *)
Example search_raises_at_far_reset :
  search_repositories (steady (rate_payload 5000 0 1 1000000000000) 0) "t" 2
    "2024-01-01" "2024-12-31" world0
  = Some ({| calls := 1; slept := []; logged := []; ticks := 0 |},
          Raise (ValueError "year 33658 is out of range")).
Proof. vm_compute. reflexivity. Qed.

(** The second page cannot be fetched: the first page is what is returned. *)
Example search_repositories_partial :
  let R := {| respond := fun n c =>
                match c with
                | HttpGet _ _ (Some _) =>
                    if (n <? 2)%nat
                    then Response (JDict [("items", JList (replicate 100 (repo "a/a")))])
                    else RequestException "timed out"
                | _ => Response (rate_payload 5000 0 30 0)
                end;
              clock := fun _ => 0; localtime := Some;
              monotonic := fun _ => 0 |} in
  (option_map snd (search_repositories R "t" 150 "2024-01-01" "2024-12-31" world0))
  = Some (Ok (replicate 100 (repo "a/a"))).
Proof. vm_compute. reflexivity. Qed.

End RepositorySearcher.

(* ===================================================================== *)
(** * Properties of the shared set under concurrency *)
(* ===================================================================== *)

Module DedupCoordinator.

Import Vocabulary.

Import Orch.

(** ** Lists of lists under an update *)

Lemma concat_insert_app {A} (l : list (list A)) i x y :
  l !! i = Some x -> concat (<[i := x ++ y]> l) ≡ₚ y ++ concat l.
Proof.
  intros Hi.
  rewrite insert_take_drop by (eapply lookup_lt_Some; exact Hi).
  rewrite <- (take_drop_middle l i x Hi) at 3.
  rewrite !concat_app. cbn [concat].
  rewrite (comm (++) y). rewrite <- !(assoc_L (++)).
  do 2 f_equiv. apply (comm (++)).
Qed.

Section PerThread.

Context {A : Type} (f : thread -> list A).

Lemma concat_map_insert_same (l : list thread) i t t1 :
  l !! i = Some t -> f t1 = f t ->
  map f (<[i := t1]> l) = map f l.
Proof.
  intros Hi Heq. change (map f) with (fmap (M:=list) f).
  rewrite list_fmap_insert, Heq.
  apply list_insert_id. now rewrite list_lookup_fmap, Hi.
Qed.

Lemma concat_map_insert_app (l : list thread) i t t1 y :
  l !! i = Some t -> f t1 = f t ++ y ->
  concat (map f (<[i := t1]> l)) ≡ₚ y ++ concat (map f l).
Proof.
  intros Hi Heq. change (map f) with (fmap (M:=list) f).
  rewrite list_fmap_insert, Heq.
  apply concat_insert_app. now rewrite list_lookup_fmap, Hi.
Qed.

Lemma concat_map_insert_drop (l : list thread) i t t1 :
  l !! i = Some t -> f t1 = [] ->
  f t ++ concat (map f (<[i := t1]> l)) ≡ₚ concat (map f l).
Proof.
  intros Hi Heq.
  rewrite <- (concat_map_insert_app (<[i := t1]> l) i t1 t (f t)).
  - now rewrite list_insert_insert_eq, list_insert_id.
  - apply list_lookup_insert_eq. eapply lookup_lt_Some. exact Hi.
  - now rewrite Heq.
Qed.

End PerThread.

Lemma unjoined_start E jobs : concat (map unjoined_keys (map (start E) jobs)) = [].
Proof.
  induction jobs as [|j jobs IH]; [reflexivity|].
  cbn [map concat]. rewrite IH. unfold unjoined_keys, start, joined; cbn.
  now destruct j.2.
Qed.

(** ** The invariant holds when the tasks are submitted *)

Lemma inv_submit E jobs : inv E (submit E jobs).
Proof.
  assert (forall i t, map (start E) jobs !! i = Some t -> exists j, t = start E j) as Hst.
  { intros i t H. change (map (start E)) with (fmap (M:=list) (start E)) in H.
    apply list_lookup_fmap_Some in H as (j & -> & _). eauto. }
  split; unfold emitted; cbn [submit threads all_results processed_files
                                processed_files_lock map app];
    rewrite ?unjoined_start.
  - intros i t H. apply Hst in H as [j ->]. reflexivity.
  - intros i t H. apply Hst in H as [j ->]. cbn. destruct j.2; cbn; split; discriminate.
  - constructor.
  - intros k H. inversion H.
  - intros k. split.
    + intros H. inversion H.
    + intros [H|(i & t & H & Ha)]; [set_solver|].
      apply Hst in H as [j ->]. unfold adding in Ha. cbn in Ha.
      destruct j.2; discriminate.
  - intros i t c H Hpc. apply Hst in H as [j ->]. cbn in Hpc. destruct j.2; discriminate.
  - intros i t c H Hpc. apply Hst in H as [j ->]. cbn in Hpc. destruct j.2; discriminate.
  - intros i t e H _. apply Hst in H as [j ->]. reflexivity.
Qed.

(** ** Steps that change only the thread that moves *)

Lemma inv_local E s i t t1 :
  inv E s -> threads s !! i = Some t ->
  initial_existing_data t1 = initial_existing_data t ->
  results t1 = results t -> joined t1 = joined t ->
  holds_lock (at_pc t1) = holds_lock (at_pc t) ->
  adding t1 = adding t ->
  (forall c, at_pc t1 = AtAppend c ->
     candidate_key (html_url t1) c ∉ processed_files s) ->
  (forall c, in_hand (at_pc t1) = Some c -> candidate_key (html_url t1) c ∉ E) ->
  (forall e, at_pc t1 = Crashed e -> results t1 = []) ->
  inv E (update s (processed_files s) (processed_files_lock s) i t1).
Proof.
  intros [Hcopy Hlock Hnodup Hfresh Hset Happend Hhand Hcrash]
         Hi Hdata Hres Hjoined Hholds Hadding Happ1 Hhand1 Hcrash1.
  assert (emitted (update s (processed_files s) (processed_files_lock s) i t1)
          = emitted s) as Hem.
  { unfold emitted, update; cbn [threads all_results]. f_equal. f_equal.
    apply (concat_map_insert_same unjoined_keys _ i t); [exact Hi|].
    unfold unjoined_keys. now rewrite Hjoined, Hres. }
  split; rewrite ?Hem; cbn [update threads processed_files processed_files_lock];
    try assumption.
  - intros j tj Hj. updated Hj; [rewrite Hdata|]; eauto.
  - intros j tj Hj. updated Hj; [rewrite Hholds|]; eauto.
  - intros k. rewrite Hset. apply or_iff_compat_l. split.
    + intros (j & tj & Hj & Ha). destruct (decide (i = j)) as [<-|Hne].
      * exists i, t1. split; [|congruence].
        apply list_lookup_insert_eq. eapply lookup_lt_Some; eassumption.
      * exists j, tj. split; [|exact Ha]. rewrite list_lookup_insert_ne; assumption.
    + intros (j & tj & Hj & Ha). updated Hj.
      * exists i, t. split; [assumption|congruence].
      * exists j, tj. split; assumption.
  - intros j tj c Hj Hpc. updated Hj; eauto.
  - intros j tj c Hj Hpc. updated Hj; eauto.
  - intros j tj e Hj Hpc. updated Hj; eauto.
Qed.

(** ** Acquiring and releasing the lock *)

Lemma inv_acquire E s i t c :
  inv E s -> threads s !! i = Some t -> at_pc t = AtWith c ->
  processed_files_lock s = None ->
  inv E (update s (processed_files s) (Some i) i (goto t (AtTest c))).
Proof.
  intros [Hcopy Hlock Hnodup Hfresh Hset Happend Hhand Hcrash] Hi Hpc Hfree.
  assert (emitted (update s (processed_files s) (Some i) i (goto t (AtTest c)))
          = emitted s) as Hem.
  { unfold emitted, update; cbn [threads all_results]. f_equal. f_equal.
    apply (concat_map_insert_same unjoined_keys _ i t); [exact Hi|].
    unfold unjoined_keys, joined. cbn. now rewrite Hpc. }
  split; rewrite ?Hem; cbn [update threads processed_files processed_files_lock];
    try assumption.
  - intros j tj Hj. updated Hj; cbn; eauto.
  - intros j tj Hj. updated Hj; cbn; [tauto|].
    pose proof (Hlock j tj Hj) as Hl. rewrite Hfree in Hl.
    split; [intros Hh; apply Hl in Hh; discriminate | intros [=]; congruence].
  - intros k. rewrite Hset. apply or_iff_compat_l. split.
    + intros (j & tj & Hj & Ha). destruct (decide (i = j)) as [<-|Hne].
      * exfalso. unfold adding in Ha. rewrite Hi in Hj. inversion Hj; subst tj.
        rewrite Hpc in Ha. discriminate.
      * exists j, tj. split; [|exact Ha]. rewrite list_lookup_insert_ne; assumption.
    + intros (j & tj & Hj & Ha). updated Hj; [discriminate|].
      exists j, tj. split; assumption.
  - intros j tj c1 Hj Hpc1. updated Hj; [discriminate|]. eauto.
  - intros j tj c1 Hj Hpc1. updated Hj; [|eauto].
    cbn in Hpc1. inversion Hpc1; subst c1. apply (Hhand i t c Hi). now rewrite Hpc.
  - intros j tj e Hj Hpc1. updated Hj; [discriminate|]. eauto.
Qed.

Lemma inv_release E s i t :
  inv E s -> threads s !! i = Some t -> at_pc t = AtExit ->
  inv E (update s (processed_files s) None i (goto t AtFor)).
Proof.
  intros [Hcopy Hlock Hnodup Hfresh Hset Happend Hhand Hcrash] Hi Hpc.
  assert (processed_files_lock s = Some i) as Hmine
    by (apply (Hlock i t Hi); now rewrite Hpc).
  assert (emitted (update s (processed_files s) None i (goto t AtFor)) = emitted s)
    as Hem.
  { unfold emitted, update; cbn [threads all_results]. f_equal. f_equal.
    apply (concat_map_insert_same unjoined_keys _ i t); [exact Hi|].
    unfold unjoined_keys, joined. cbn. now rewrite Hpc. }
  split; rewrite ?Hem; cbn [update threads processed_files processed_files_lock];
    try assumption.
  - intros j tj Hj. updated Hj; cbn; eauto.
  - intros j tj Hj. updated Hj; cbn; [split; discriminate|].
    split; [|discriminate]. intros Hh. apply (Hlock j tj Hj) in Hh. congruence.
  - intros k. rewrite Hset. apply or_iff_compat_l. split.
    + intros (j & tj & Hj & Ha). destruct (decide (i = j)) as [<-|Hne].
      * exfalso. unfold adding in Ha. rewrite Hi in Hj. inversion Hj; subst tj.
        rewrite Hpc in Ha. discriminate.
      * exists j, tj. split; [|exact Ha]. rewrite list_lookup_insert_ne; assumption.
    + intros (j & tj & Hj & Ha). updated Hj; [discriminate|].
      exists j, tj. split; assumption.
  - intros j tj c1 Hj Hpc1. updated Hj; [discriminate|]. eauto.
  - intros j tj c1 Hj Hpc1. updated Hj; [discriminate|]. eauto.
  - intros j tj e Hj Hpc1. updated Hj; [discriminate|]. eauto.
Qed.

(** ** Appending the record, then adding the key *)

(** Under the lock nobody else is between the append and the add. *)
Lemma nobody_adding E s i t k :
  inv E s -> threads s !! i = Some t ->
  holds_lock (at_pc t) = true -> adding t = None ->
  ~ exists j tj, threads s !! j = Some tj /\ adding tj = Some k.
Proof.
  intros H Hi Hh Ha (j & tj & Hj & Haj).
  assert (holds_lock (at_pc tj) = true) as Hhj.
  { unfold adding in Haj. destruct (at_pc tj); try discriminate. reflexivity. }
  apply (inv_lock E s H j tj Hj) in Hhj. apply (inv_lock E s H i t Hi) in Hh.
  assert (i = j) as <- by congruence. congruence.
Qed.

Lemma inv_emit E s i t c :
  inv E s -> threads s !! i = Some t -> at_pc t = AtAppend c ->
  inv E (update s (processed_files s) (processed_files_lock s) i
           (append t (record_of (html_url t) c) (AtAdd c))).
Proof.
  intros Hinv Hi Hpc. set (k := candidate_key (html_url t) c).
  pose proof Hinv as [Hcopy Hlock Hnodup Hfresh Hset Happend Hhand Hcrash].
  assert (k ∉ emitted s) as Hnew.
  { intros Hin. apply Hset in Hin as [Hin|Hin].
    - exact (Happend i t c Hi Hpc Hin).
    - revert Hin. apply (nobody_adding E s i t k Hinv Hi).
      + now rewrite Hpc.
      + unfold adding. now rewrite Hpc. }
  assert (emitted (update s (processed_files s) (processed_files_lock s) i
                     (append t (record_of (html_url t) c) (AtAdd c)))
          ≡ₚ k :: emitted s) as Hem.
  { unfold emitted, update; cbn [threads all_results].
    rewrite (concat_map_insert_app unjoined_keys _ i t _ [k] Hi).
    - now rewrite Permutation_middle.
    - unfold unjoined_keys, joined. cbn. rewrite Hpc. now rewrite map_app. }
  split; cbn [update threads processed_files processed_files_lock].
  - intros j tj Hj. updated Hj; cbn; eauto.
  - intros j tj Hj. updated Hj; cbn; [|eauto].
    rewrite <- (Hlock i t Hi), Hpc. reflexivity.
  - rewrite Hem. now constructor.
  - intros k1. rewrite Hem. intros [->|Hin]%elem_of_cons; [|eauto].
    apply (Hhand i t c Hi). now rewrite Hpc.
  - intros k1. rewrite Hem, elem_of_cons, Hset. split.
    + intros [->|[Hin|(j & tj & Hj & Ha)]].
      * right. exists i, (append t (record_of (html_url t) c) (AtAdd c)).
        split; [|reflexivity].
        apply list_lookup_insert_eq. eapply lookup_lt_Some; eassumption.
      * now left.
      * exfalso. apply (nobody_adding E s i t k1 Hinv Hi).
        -- now rewrite Hpc.
        -- unfold adding. now rewrite Hpc.
        -- eauto.
    + intros [Hin|(j & tj & Hj & Ha)]; [tauto|]. updated Hj.
      * left. unfold adding in Ha. cbn in Ha. injection Ha as <-. reflexivity.
      * right. right. eauto.
  - intros j tj c1 Hj Hpc1. updated Hj; [discriminate|]. eauto.
  - intros j tj c1 Hj Hpc1. updated Hj; [|eauto].
    cbn in Hpc1. inversion Hpc1; subst c1. apply (Hhand i t c Hi). now rewrite Hpc.
  - intros j tj e Hj Hpc1. updated Hj; [discriminate|]. eauto.
Qed.

Lemma inv_add E s i t c :
  inv E s -> threads s !! i = Some t -> at_pc t = AtAdd c ->
  inv E (update s ({[ candidate_key (html_url t) c ]} ∪ processed_files s)
           (processed_files_lock s) i (goto t AtExit)).
Proof.
  intros Hinv Hi Hpc. set (k := candidate_key (html_url t) c).
  pose proof Hinv as [Hcopy Hlock Hnodup Hfresh Hset Happend Hhand Hcrash].
  assert (emitted (update s ({[k]} ∪ processed_files s) (processed_files_lock s) i
                     (goto t AtExit)) = emitted s) as Hem.
  { unfold emitted, update; cbn [threads all_results]. f_equal. f_equal.
    apply (concat_map_insert_same unjoined_keys _ i t); [exact Hi|].
    unfold unjoined_keys, joined. cbn. now rewrite Hpc. }
  assert (processed_files_lock s = Some i) as Hmine
    by (apply (Hlock i t Hi); now rewrite Hpc).
  split; rewrite ?Hem; cbn [update threads processed_files processed_files_lock];
    try assumption.
  - intros j tj Hj. updated Hj; cbn; eauto.
  - intros j tj Hj. updated Hj; cbn; [|eauto].
    rewrite <- (Hlock i t Hi), Hpc. reflexivity.
  - intros k1. rewrite Hset, elem_of_union, elem_of_singleton. split.
    + intros [Hin|(j & tj & Hj & Ha)]; [tauto|].
      destruct (decide (i = j)) as [<-|Hne].
      * left. left. rewrite Hi in Hj. inversion Hj; subst tj.
        unfold adding in Ha. rewrite Hpc in Ha. injection Ha as <-. reflexivity.
      * right. exists j, tj. split; [|exact Ha].
        rewrite list_lookup_insert_ne; assumption.
    + intros [[->|Hin]|(j & tj & Hj & Ha)].
      * right. exists i, t. split; [assumption|]. unfold adding. now rewrite Hpc.
      * now left.
      * updated Hj; [discriminate|]. right. eauto.
  - intros j tj c1 Hj Hpc1. updated Hj; [discriminate|].
    exfalso. assert (holds_lock (at_pc tj) = true) as Hh by now rewrite Hpc1.
    apply (Hlock j tj Hj) in Hh. congruence.
  - intros j tj c1 Hj Hpc1. updated Hj; [discriminate|]. eauto.
  - intros j tj e Hj Hpc1. updated Hj; [discriminate|]. eauto.
Qed.

(** ** Every step of a worker keeps the invariant *)

Lemma inv_process_repository E i s : inv E s -> inv E (process_repository i s).
Proof.
  intros Hinv. unfold process_repository.
  destruct (threads s !! i) as [t|] eqn:Hi; [|exact Hinv].
  destruct (at_pc t) as [|c|c|c|c| | |e|] eqn:Hpc; try exact Hinv.
  - destruct (python_files t !! position t) as [c|].
    + destruct (decide (candidate_key (html_url t) c ∈ initial_existing_data t))
        as [Hin|Hout].
      * apply (inv_local E s i t); auto; cbn; try discriminate;
          unfold joined, adding; cbn; now rewrite Hpc.
      * apply (inv_local E s i t); auto; cbn; try discriminate;
          try (unfold joined, adding; cbn; now rewrite Hpc).
        intros c1 [= <-]. now rewrite <- (inv_copy E s Hinv i t Hi).
    + apply (inv_local E s i t); auto; cbn; try discriminate;
        unfold joined, adding; cbn; now rewrite Hpc.
  - destruct (processed_files_lock s) eqn:Hl; [exact Hinv|].
    now apply inv_acquire.
  - destruct (decide (candidate_key (html_url t) c ∈ processed_files s)) as [Hin|Hout].
    + apply (inv_local E s i t); auto; cbn; try discriminate;
        unfold joined, adding; cbn; now rewrite Hpc.
    + apply (inv_local E s i t); auto; cbn; try discriminate;
        try (unfold joined, adding; cbn; now rewrite Hpc).
      * intros c1 [= <-]. exact Hout.
      * intros c1 [= <-]. apply (inv_hand E s Hinv i t c Hi). now rewrite Hpc.
  - now apply inv_emit.
  - now apply inv_add.
  - now apply inv_release.
Qed.

(** ** Taking a future keeps the invariant *)

Lemma inv_join E i s : inv E s -> inv E (join i s).
Proof.
  intros Hinv. unfold join.
  destruct (threads s !! i) as [t|] eqn:Hi; [|exact Hinv].
  pose proof Hinv as [Hcopy Hlock Hnodup Hfresh Hset Happend Hhand Hcrash].
  assert (forall p, at_pc t = p -> holds_lock p = false -> adding t = None ->
          unjoined_keys t = map key_of (results t) ->
          forall final,
            threads final = <[i := goto t Joined]> (threads s) ->
            processed_files final = processed_files s ->
            processed_files_lock final = processed_files_lock s ->
            map key_of (all_results final)
              = map key_of (all_results s) ++ unjoined_keys t ->
            inv E final) as Hgen.
  { intros p Hpc Hh Ha Hu final Hth Hpf Hlk Hall.
    assert (emitted final ≡ₚ emitted s) as Hem.
    { unfold emitted. rewrite Hall, Hth, <- (assoc_L (++)). f_equiv.
      apply (concat_map_insert_drop unjoined_keys _ i t); [exact Hi|reflexivity]. }
    split; rewrite ?Hth, ?Hpf, ?Hlk.
    - intros j tj Hj. updated Hj; cbn; eauto.
    - intros j tj Hj. updated Hj; cbn; [|eauto].
      rewrite <- (Hlock i t Hi), Hpc, Hh. reflexivity.
    - now rewrite Hem.
    - intros k. rewrite Hem. apply Hfresh.
    - intros k. rewrite Hem, Hset. apply or_iff_compat_l. split.
      + intros (j & tj & Hj & Haj). destruct (decide (i = j)) as [<-|Hne].
        * congruence.
        * exists j, tj. split; [|exact Haj]. rewrite list_lookup_insert_ne; assumption.
      + intros (j & tj & Hj & Haj). updated Hj; [discriminate|]. eauto.
    - intros j tj c1 Hj Hpc1. updated Hj; [discriminate|]. eauto.
    - intros j tj c1 Hj Hpc1. updated Hj; [discriminate|]. eauto.
    - intros j tj e Hj Hpc1. updated Hj; [discriminate|]. eauto. }
  destruct (at_pc t) as [|c|c|c|c| | |e|] eqn:Hpc; try exact Hinv.
  - eapply (Hgen Returned); try reflexivity.
    + unfold adding. now rewrite Hpc.
    + unfold unjoined_keys, joined. now rewrite Hpc.
    + cbn [all_results]. rewrite map_app. f_equal.
      unfold unjoined_keys, joined. now rewrite Hpc.
  - eapply (Hgen (Crashed e)); try reflexivity.
    + unfold adding. now rewrite Hpc.
    + unfold unjoined_keys, joined. now rewrite Hpc.
    + cbn [all_results]. unfold unjoined_keys, joined. rewrite Hpc.
      rewrite (Hcrash i t e Hi Hpc). cbn. now rewrite app_nil_r.
Qed.

Lemma inv_run E schedule : forall s, inv E s -> inv E (run schedule s).
Proof.
  induction schedule as [|a schedule IH]; intros s Hinv; [exact Hinv|].
  cbn [run fold_left]. apply IH. destruct a; [apply inv_process_repository|apply inv_join]; exact Hinv.
Qed.

Lemma filter_key_length (l : list record) (k : key) :
  NoDup (map key_of l) ->
  (length (filter (fun r => key_of r = k) l) <= 1)%nat.
Proof.
  induction l as [|r l IH]; intros Hnd; [cbn; lia|].
  cbn [map] in Hnd. apply NoDup_cons in Hnd as [Hnotin Hnd].
  rewrite filter_cons. destruct (decide (key_of r = k)) as [Hk|Hk]; [|auto].
  cbn [length]. destruct (filter (fun r0 => key_of r0 = k) l) as [|r1 rest] eqn:Hf;
    [cbn; lia|].
  exfalso. apply Hnotin.
  assert (r1 ∈ filter (fun r0 => key_of r0 = k) l) as Hin
    by (rewrite Hf; apply list_elem_of_here).
  apply list_elem_of_filter in Hin as [Hk1 Hin].
  rewrite Hk, <- Hk1. apply list_elem_of_fmap. eauto.
Qed.

(** C1.  Under any interleaving of the workers' steps and of [main]'s
    collection: the keys of the records emitted so far are pairwise
    distinct and none is in the pre-existing snapshot; a thread whose test
    under the lock has just succeeded holds a key no record has; so every
    key passes the test at most once in a run.  In particular no two records
    of [all_results] share a key (for every key, at most one record has it),
    and no record of [all_results] has a key of the snapshot. *)
Theorem no_key_emitted_twice (E : gset key) (jobs : list job) (schedule : list action) :
  let s := run schedule (submit E jobs) in
  NoDup (emitted s)
  /\ (forall k, k ∈ E -> k ∉ emitted s)
  /\ (forall i t c, threads s !! i = Some t -> at_pc t = AtAppend c ->
        candidate_key (html_url t) c ∉ emitted s)
  /\ NoDup (map key_of (all_results s))
  /\ (forall k, (length (filter (fun r => key_of r = k) (all_results s)) <= 1)%nat)
  /\ (forall r, r ∈ all_results s -> key_of r ∉ E).
Proof.
  intros s. pose proof (inv_run E schedule _ (inv_submit E jobs)) as Hinv.
  fold s in Hinv.
  assert (NoDup (map key_of (all_results s))) as Hnd.
  { pose proof (inv_nodup E s Hinv) as H. unfold emitted in H.
    now apply NoDup_app in H as [H _]. }
  split_and!.
  - apply (inv_nodup E s Hinv).
  - intros k Hk Hin. exact (inv_fresh E s Hinv k Hin Hk).
  - intros i t c Hi Hpc Hin.
    apply (inv_set E s Hinv) in Hin as [Hin|Hin].
    + exact (inv_append E s Hinv i t c Hi Hpc Hin).
    + revert Hin. apply (nobody_adding E s i t _ Hinv Hi).
      * now rewrite Hpc.
      * unfold adding. now rewrite Hpc.
  - exact Hnd.
  - intros k. now apply filter_key_length.
  - intros r Hr. apply (inv_fresh E s Hinv). unfold emitted.
    apply elem_of_app. left. apply list_elem_of_fmap. eauto.
Qed.

(** Two workers race for the same key: one record. *)
Example contested_key :
  let c : candidate := ("a.py", 3, fzero) in
  let s := run [Work 0; Work 1; Work 1; Work 0; Work 1; Work 1; Work 1; Work 1;
                Work 0; Work 0; Work 0; Work 0; Work 1; Join 1; Join 0]
             (submit ∅ [("u", Ok [c]); ("u", Ok [c])]) in
  all_results s = [record_of "u" c] /\ total_skipped s = 0 /\ all_joined s = true.
Proof. vm_compute. auto. Qed.

End DedupCoordinator.

(* ===================================================================== *)
(** * Properties of the orchestration *)
(* ===================================================================== *)

Module Orchestrator.

Import Vocabulary.

Import Orch DedupCoordinator.

(** ** A thread's step seen from the thread *)

Lemma process_repository_tstep i s :
  process_repository i s = s \/
  exists t t1,
    threads s !! i = Some t
    /\ tstep (processed_files s) t (processed_files (process_repository i s)) t1
    /\ threads (process_repository i s) = <[i := t1]> (threads s)
    /\ all_results (process_repository i s) = all_results s
    /\ total_skipped (process_repository i s) = total_skipped s.
Proof.
  unfold process_repository. destruct (threads s !! i) as [t|] eqn:Hi; [|now left].
  destruct (at_pc t) as [|c|c|c|c| | |e|] eqn:Hpc; try (now left).
  - destruct (python_files t !! position t) as [c|] eqn:Hc.
    + destruct (decide (candidate_key (html_url t) c ∈ initial_existing_data t)).
      * right. eexists t, _. split_and!; try reflexivity. eapply ts_skip; eassumption.
      * right. eexists t, _. split_and!; try reflexivity. eapply ts_take; eassumption.
    + right. eexists t, _. split_and!; try reflexivity. now apply ts_end.
  - destruct (processed_files_lock s); [now left|].
    right. eexists t, _. split_and!; try reflexivity. now apply ts_acquire.
  - destruct (decide (candidate_key (html_url t) c ∈ processed_files s)).
    + right. eexists t, _. split_and!; try reflexivity. eapply ts_seen; eassumption.
    + right. eexists t, _. split_and!; try reflexivity. eapply ts_unseen; eassumption.
  - right. eexists t, _. split_and!; try reflexivity. now apply ts_append.
  - right. eexists t, _. split_and!; try reflexivity. now apply ts_add.
  - right. eexists t, _. split_and!; try reflexivity. now apply ts_release.
Qed.

Lemma tstep_static set t set1 t1 :
  tstep set t set1 t1 ->
  html_url t1 = html_url t /\ python_files t1 = python_files t
  /\ initial_existing_data t1 = initial_existing_data t
  /\ joined t1 = false /\ joined t = false
  /\ set ⊆ set1.
Proof.
  intros H. inversion H; subst; cbn; unfold joined; cbn;
    repeat match goal with Hpc : at_pc t = _ |- _ => rewrite Hpc; clear Hpc end;
    split_and!; try reflexivity; set_solver.
Qed.

(** ** The candidate keys of a run *)

Lemma task_keys_submit E jobs :
  map task_keys (threads (submit E jobs)) = map job_keys jobs.
Proof. cbn. rewrite map_map. reflexivity. Qed.

Lemma task_keys_exec s a : map task_keys (threads (exec s a)) = map task_keys (threads s).
Proof.
  destruct a as [i|i]; cbn [exec].
  - destruct (process_repository_tstep i s) as [->|(t & t1 & Hi & Hstep & Hth & _)]; [reflexivity|].
    rewrite Hth. apply (concat_map_insert_same task_keys _ i t); [exact Hi|].
    apply tstep_static in Hstep as (Hu & Hf & _). unfold task_keys. now rewrite Hu, Hf.
  - unfold join. destruct (threads s !! i) as [t|] eqn:Hi; [|reflexivity].
    destruct (at_pc t); try reflexivity; cbn [threads];
      now apply (concat_map_insert_same task_keys _ i t).
Qed.

Lemma task_keys_run schedule : forall s,
  map task_keys (threads (run schedule s)) = map task_keys (threads s).
Proof.
  induction schedule as [|a schedule IH]; intros s; [reflexivity|].
  cbn [run fold_left]. fold (run schedule (exec s a)). now rewrite IH, task_keys_exec.
Qed.

Lemma candidates_run E jobs schedule :
  concat (map task_keys (threads (run schedule (submit E jobs)))) = candidates jobs.
Proof. now rewrite task_keys_run, task_keys_submit. Qed.

Lemma elem_of_concat {A} (x : A) (ls : list (list A)) :
  x ∈ concat ls <-> exists l, x ∈ l /\ l ∈ ls.
Proof.
  induction ls as [|l ls IH]; cbn [concat].
  - split; [intros H; inversion H|intros (l & _ & H); inversion H].
  - rewrite elem_of_app, IH. split.
    + intros [H|(l1 & H1 & H2)].
      * exists l. split; [exact H|apply list_elem_of_here].
      * exists l1. split; [exact H1|now apply list_elem_of_further].
    + intros (l1 & H1 & H2). apply elem_of_cons in H2 as [->|H2]; [now left|].
      right. eauto.
Qed.

Lemma elem_of_task_keys (l : list thread) i t c :
  l !! i = Some t -> c ∈ python_files t ->
  candidate_key (html_url t) c ∈ concat (map task_keys l).
Proof.
  intros Hi Hc. apply elem_of_concat. exists (task_keys t). split.
  - unfold task_keys. apply list_elem_of_fmap. eauto.
  - apply list_elem_of_fmap. exists t. split; [reflexivity|].
    eapply list_elem_of_lookup_2. exact Hi.
Qed.

(** ** What each thread has done with its candidates *)

Lemma covered_start E j : covered E ∅ (start E j).
Proof.
  split; cbn.
  - reflexivity.
  - intros p c Hp. lia.
  - intros c. destruct j.2; discriminate.
  - destruct j.2; intros [H|H]; discriminate.
  - intros e. unfold files_of. destruct j.2; [discriminate|reflexivity].
  - reflexivity.
  - intros r H. inversion H.
Qed.

Lemma covered_mono E set set1 t : set ⊆ set1 -> covered E set t -> covered E set1 t.
Proof.
  intros Hsub [H1 H2 H3 H4 H5 H6 H7]. split; try assumption.
  intros p c Hp Hc. destruct (H2 p c Hp Hc) as [H|[H|H]]; [tauto| |tauto].
  right. left. now apply Hsub.
Qed.

Lemma covered_tstep E set t set1 t1 :
  covered E set t -> tstep set t set1 t1 -> covered E set1 t1.
Proof.
  intros [Hcopy Hdone Hhand Hend Hcrash Hskip Hres] Hstep.
  destruct Hstep as [Hpc Hnone|c Hpc Hc Hin|c Hpc Hc Hout|c Hpc|c Hpc Hin|c Hpc Hout
                     |c Hpc|c Hpc|Hpc].
  - (* the end of the list *)
    split; cbn; [exact Hcopy | passed Hdone Hpc | discriminate | | discriminate
                 | exact Hskip | exact Hres].
    intros _. now apply lookup_ge_None.
  - (* a candidate of the snapshot *)
    split; cbn; [exact Hcopy | | discriminate | intros [?|?]; discriminate
                 | discriminate | | exact Hres].
    + intros p c1 Hp Hc1. destruct (decide (p = position t)) as [->|Hne].
      * left. rewrite Hc in Hc1. inversion Hc1; subst c1. now rewrite <- Hcopy.
      * destruct (Hdone p c1 ltac:(lia) Hc1) as [H|[H|H]]; [tauto|tauto|].
        rewrite Hpc in H. discriminate.
    + rewrite (take_S_r _ _ c Hc), filter_app, length_app, Hskip.
      rewrite filter_cons, decide_True by now rewrite <- Hcopy. cbn. lia.
  - (* a candidate outside the snapshot *)
    split; cbn; [exact Hcopy | | | intros [?|?]; discriminate
                 | discriminate | | exact Hres].
    + intros p c1 Hp Hc1. destruct (decide (p = position t)) as [->|Hne].
      * right. right. rewrite Hc in Hc1. now inversion Hc1.
      * destruct (Hdone p c1 ltac:(lia) Hc1) as [H|[H|H]]; [tauto|tauto|].
        rewrite Hpc in H. discriminate.
    + intros c1 [= <-]. split; [eapply list_elem_of_lookup_2; exact Hc|].
      now rewrite <- Hcopy.
    + rewrite (take_S_r _ _ c Hc), filter_app, length_app, Hskip.
      rewrite filter_cons, decide_False by now rewrite <- Hcopy. cbn. lia.
  - (* the lock is taken *)
    split; cbn; [exact Hcopy | passed Hdone Hpc | | intros [?|?]; discriminate
                 | discriminate | exact Hskip | exact Hres].
    intros c1 [= <-]. apply Hhand. now rewrite Hpc.
  - (* the key is in the set *)
    split; cbn; [exact Hcopy | passed Hdone Hpc | discriminate
                 | intros [?|?]; discriminate | discriminate | exact Hskip | exact Hres].
  - (* the key is not in the set *)
    split; cbn; [exact Hcopy | passed Hdone Hpc | | intros [?|?]; discriminate
                 | discriminate | exact Hskip | exact Hres].
    intros c1 [= <-]. apply Hhand. now rewrite Hpc.
  - (* the record is appended *)
    split; cbn; [exact Hcopy | passed Hdone Hpc | | intros [?|?]; discriminate
                 | discriminate | exact Hskip | ].
    + intros c1 [= <-]. apply Hhand. now rewrite Hpc.
    + intros r [Hr|Hr]%elem_of_app; [auto|].
      apply list_elem_of_singleton in Hr as ->.
      destruct (Hhand c) as [Hmem Hnew]; [now rewrite Hpc|]. eauto.
  - (* the key is added *)
    split; cbn; [exact Hcopy | passed Hdone Hpc | discriminate
                 | intros [?|?]; discriminate | discriminate | exact Hskip | exact Hres].
  - (* the lock is released *)
    split; cbn; [exact Hcopy | passed Hdone Hpc | discriminate
                 | intros [?|?]; discriminate | discriminate | exact Hskip | exact Hres].
Qed.

Lemma covered_joined E set t :
  covered E set t -> (at_pc t = Returned \/ exists e, at_pc t = Crashed e) ->
  covered E set (goto t Joined).
Proof.
  intros [Hcopy Hdone Hhand Hend Hcrash Hskip Hres] Hpc. split; cbn; try assumption.
  - intros p c Hp Hc. destruct (Hdone p c Hp Hc) as [H|[H|H]]; [tauto|tauto|].
    destruct Hpc as [Hpc|[e Hpc]]; rewrite Hpc in H; discriminate.
  - discriminate.
  - intros _. destruct Hpc as [Hpc|[e Hpc]]; [auto|].
    rewrite (Hcrash e Hpc). cbn. lia.
  - discriminate.
Qed.

Lemma accounted_submit E jobs : accounted E (submit E jobs).
Proof.
  split; cbn.
  - intros i t H. change (map (start E)) with (fmap (M:=list) (start E)) in H.
    apply list_lookup_fmap_Some in H as (j & -> & _). apply covered_start.
  - intros r H. inversion H.
Qed.

Lemma tstep_results set t set1 t1 r :
  tstep set t set1 t1 -> r ∈ results t -> r ∈ results t1.
Proof.
  intros H Hr. inversion H; subst; cbn; try assumption.
  apply elem_of_app. now left.
Qed.

Lemma accounted_exec E s a : accounted E s -> accounted E (exec s a).
Proof.
  intros [Hth Hres]. destruct a as [i|i]; cbn [exec].
  - destruct (process_repository_tstep i s) as [->|(t & t1 & Hi & Hstep & Heq & Hall & _)];
      [now split|].
    pose proof (tstep_static _ _ _ _ Hstep) as (_ & _ & _ & _ & _ & Hsub).
    split.
    + intros j tj Hj. rewrite Heq in Hj. updated Hj.
      * eapply covered_tstep; [|exact Hstep]. exact (Hth i t Hi).
      * eapply covered_mono; [exact Hsub|]. exact (Hth j tj Hj).
    + intros r Hr. rewrite Hall in Hr. destruct (Hres r Hr) as (j & tj & Hj & Hin).
      rewrite Heq. destruct (decide (i = j)) as [<-|Hne].
      * exists i, t1. split.
        -- apply list_lookup_insert_eq. eapply lookup_lt_Some; eassumption.
        -- rewrite Hi in Hj. inversion Hj; subst tj. eapply tstep_results; eassumption.
      * exists j, tj. split; [|exact Hin]. now rewrite list_lookup_insert_ne.
  - unfold join. destruct (threads s !! i) as [t|] eqn:Hi; [|now split].
    assert (forall r, (r ∈ all_results s \/ r ∈ results t) ->
            exists j tj, <[i := goto t Joined]> (threads s) !! j = Some tj
                         /\ r ∈ results tj) as Hkeep.
    { intros r [Hr|Hr].
      - destruct (Hres r Hr) as (j & tj & Hj & Hin).
        destruct (decide (i = j)) as [<-|Hne].
        + exists i, (goto t Joined). split.
          * apply list_lookup_insert_eq. eapply lookup_lt_Some; eassumption.
          * rewrite Hi in Hj. now inversion Hj; subst tj.
        + exists j, tj. split; [|exact Hin]. now rewrite list_lookup_insert_ne.
      - exists i, (goto t Joined). split; [|exact Hr].
        apply list_lookup_insert_eq. eapply lookup_lt_Some; eassumption. }
    destruct (at_pc t) as [|c|c|c|c| | |e|] eqn:Hpc; try (now split).
    + split; cbn [threads processed_files all_results].
      * intros j tj Hj. updated Hj; [|exact (Hth j tj Hj)].
        apply covered_joined; [exact (Hth i t Hi)|now left].
      * intros r [Hr|Hr]%elem_of_app; apply Hkeep; [now left|now right].
    + split; cbn [threads processed_files all_results].
      * intros j tj Hj. updated Hj; [|exact (Hth j tj Hj)].
        apply covered_joined; [exact (Hth i t Hi)|right; eauto].
      * intros r Hr. apply Hkeep. now left.
Qed.

Lemma accounted_run E schedule : forall s, accounted E s -> accounted E (run schedule s).
Proof.
  induction schedule as [|a schedule IH]; intros s H; [exact H|].
  cbn [run fold_left]. apply IH. now apply accounted_exec.
Qed.

(** ** A run in which every candidate is in the snapshot *)

(** Such a thread is at the loop head, returned, crashed or joined. *)
Lemma quiet_at t : quiet t -> holds_lock (at_pc t) = false /\ in_hand (at_pc t) = None.
Proof.
  intros [_ _ [(H & _)|[(H & _)|[([e H] & _)|H]]]]; rewrite H; split; reflexivity.
Qed.

Lemma quiet_tstep set t set1 t1 : quiet t -> tstep set t set1 t1 -> quiet t1.
Proof.
  intros Hq Hstep. pose proof (quiet_at t Hq) as [Hhold Hhand].
  destruct Hq as [Hknown Hres Hpc].
  destruct Hstep as [Hat Hnone|c Hat Hc Hin|c Hat Hc Hout|c Hat|c Hat Hin|c Hat Hout
                     |c Hat|c Hat|Hat];
    rewrite Hat in Hhold, Hhand; try discriminate.
  - split; cbn; [exact Hknown|exact Hres|].
    right. left. split; [reflexivity|].
    destruct Hpc as [(_ & Hs & Hle)|[(H & _)|[([e H] & _)|H]]]; try congruence.
    apply lookup_ge_None in Hnone. rewrite Hs. f_equal. lia.
  - split; cbn; [exact Hknown|exact Hres|].
    left. split; [reflexivity|].
    destruct Hpc as [(_ & Hs & Hle)|[(H & _)|[([e H] & _)|H]]]; try congruence.
    apply lookup_lt_Some in Hc. split; lia.
  - exfalso. apply Hout, Hknown. eapply list_elem_of_lookup_2. exact Hc.
Qed.

Lemma rerun_exec n s a : rerun n s -> rerun n (exec s a).
Proof.
  intros [Hq Hres Hsk]. destruct a as [i|i]; cbn [exec].
  - destruct (process_repository_tstep i s) as [->|(t & t1 & Hi & Hstep & Heq & Hall & Htot)];
      [now split|].
    pose proof (tstep_static _ _ _ _ Hstep) as (_ & Hf & _ & Hj1 & Hj & _).
    split.
    + intros j tj Hj0. rewrite Heq in Hj0. updated Hj0.
      * eapply quiet_tstep; [|exact Hstep]. exact (Hq i t Hi).
      * exact (Hq j tj Hj0).
    + now rewrite Hall.
    + rewrite Htot, Heq, (concat_map_insert_same owed _ i t); [exact Hsk|exact Hi|].
      unfold owed. now rewrite Hj1, Hj, Hf.
  - unfold join. destruct (threads s !! i) as [t|] eqn:Hi; [|now split].
    pose proof (Hq i t Hi) as [Hknown Hnone Hpc].
    assert (quiet (goto t Joined)) as Hquiet.
    { split; cbn; [exact Hknown|exact Hnone|]. now do 3 right. }
    assert (forall skipped,
              at_pc t <> Joined -> skipped = Z.of_nat (length (python_files t)) ->
              total_skipped s + skipped
              + Z.of_nat (length (concat (map owed (<[i := goto t Joined]> (threads s)))))
              = n) as Hcount.
    { intros skipped Hnj ->. rewrite <- Hsk.
      assert (owed t = python_files t) as Howed
        by (unfold owed, joined; destruct (at_pc t); congruence).
      rewrite <- (concat_map_insert_drop owed (threads s) i t (goto t Joined) Hi)
        by reflexivity.
      rewrite length_app, Howed. lia. }
    destruct (at_pc t) as [|c|c|c|c| | |e|] eqn:Hat; try (now split).
    + split; cbn [threads all_results total_skipped].
      * intros j tj Hj. updated Hj; [exact Hquiet|exact (Hq j tj Hj)].
      * now rewrite Hres, Hnone.
      * apply Hcount; [discriminate|].
        destruct Hpc as [(H & _)|[(_ & H)|[([e H] & _)|H]]]; congruence.
    + split; cbn [threads all_results total_skipped].
      * intros j tj Hj. updated Hj; [exact Hquiet|exact (Hq j tj Hj)].
      * exact Hres.
      * rewrite <- (Z.add_0_r (total_skipped s)). apply Hcount; [discriminate|].
        destruct Hpc as [(H & _)|[(H & _)|[(_ & H)|H]]]; try congruence.
        now rewrite H.
Qed.

Lemma rerun_run n schedule : forall s, rerun n s -> rerun n (run schedule s).
Proof.
  induction schedule as [|a schedule IH]; intros s H; [exact H|].
  cbn [run fold_left]. apply IH. now apply rerun_exec.
Qed.

Lemma length_candidates jobs :
  length (candidates jobs) = length (concat (map files_of jobs)).
Proof.
  unfold candidates. induction jobs as [|j jobs IH]; [reflexivity|].
  cbn [map concat]. rewrite !length_app, IH. unfold job_keys. now rewrite length_map.
Qed.

Lemma rerun_submit E jobs :
  (forall k, k ∈ candidates jobs -> k ∈ E) ->
  rerun (Z.of_nat (length (candidates jobs))) (submit E jobs).
Proof.
  intros Hall. split; cbn.
  - intros i t H. change (map (start E)) with (fmap (M:=list) (start E)) in H.
    apply list_lookup_fmap_Some in H as (j & -> & Hj).
    split; cbn.
    + intros c Hc. apply Hall. unfold candidates. apply elem_of_concat.
      exists (job_keys j). split.
      * unfold job_keys. apply list_elem_of_fmap. eauto.
      * apply list_elem_of_fmap. exists j. split; [reflexivity|].
        eapply list_elem_of_lookup_2. exact Hj.
    + reflexivity.
    + unfold files_of. destruct j.2 as [files|e].
      * left. split_and!; [reflexivity|reflexivity|lia].
      * right. right. left. split; [eauto|reflexivity].
  - reflexivity.
  - rewrite length_candidates, map_map.
    rewrite (map_ext (fun j => owed (start E j)) files_of); [lia|].
    intros j. unfold owed, joined, start; cbn. now destruct j.2.
Qed.

Lemma all_joined_owed s : all_joined s = true -> concat (map owed (threads s)) = [].
Proof.
  unfold all_joined. induction (threads s) as [|t l IH]; [reflexivity|].
  cbn [forallb map concat]. intros [Ht Hl]%andb_true_iff.
  rewrite (IH Hl). unfold owed. now rewrite Ht.
Qed.

Lemma all_joined_emitted s :
  all_joined s = true -> emitted s = map key_of (all_results s).
Proof.
  unfold all_joined, emitted. intros H.
  assert (concat (map unjoined_keys (threads s)) = []) as ->; [|apply app_nil_r].
  induction (threads s) as [|t l IH]; [reflexivity|].
  cbn [forallb map concat] in *. apply andb_true_iff in H as [Ht Hl].
  rewrite (IH Hl). unfold unjoined_keys. now rewrite Ht.
Qed.

Lemma all_joined_lookup s i t :
  all_joined s = true -> threads s !! i = Some t -> at_pc t = Joined.
Proof.
  unfold all_joined. intros H Hi.
  apply list_elem_of_lookup_2 in Hi.
  rewrite forallb_forall in H. apply list_elem_of_In, H in Hi.
  unfold joined in Hi. destruct (at_pc t); try discriminate. reflexivity.
Qed.

(** ** A completed run *)

Lemma completed_run E jobs schedule :
  let s := run schedule (submit E jobs) in
  all_joined s = true ->
  (forall k, k ∈ candidates jobs -> k ∈ E \/ k ∈ map key_of (all_results s))
  /\ (forall k, k ∈ map key_of (all_results s) -> k ∈ candidates jobs /\ k ∉ E)
  /\ NoDup (map key_of (all_results s)).
Proof.
  intros s Hdone.
  pose proof (inv_run E schedule _ (inv_submit E jobs)) as Hinv.
  pose proof (accounted_run E schedule _ (accounted_submit E jobs)) as [Hth Hres].
  pose proof (candidates_run E jobs schedule) as Hkeys.
  fold s in Hinv, Hth, Hres, Hkeys.
  pose proof (all_joined_emitted s Hdone) as Hem.
  split_and!.
  - intros k Hk. rewrite <- Hkeys in Hk.
    apply elem_of_concat in Hk as (l & Hk & Hl).
    apply list_elem_of_fmap in Hl as (t & -> & Ht).
    apply list_elem_of_lookup_1 in Ht as [i Hi].
    unfold task_keys in Hk. apply list_elem_of_fmap in Hk as (c & -> & Hc).
    apply list_elem_of_lookup_1 in Hc as [p Hp].
    pose proof (Hth i t Hi) as Hcov.
    pose proof (all_joined_lookup s i t Hdone Hi) as Hpc.
    assert (p < position t)%nat as Hlt.
    { apply lookup_lt_Some in Hp.
      pose proof (cov_end _ _ _ Hcov (or_intror Hpc)). lia. }
    destruct (cov_done _ _ _ Hcov p c Hlt Hp) as [H|[H|H]].
    + now left.
    + right. rewrite <- Hem. apply (inv_set E s Hinv). now left.
    + rewrite Hpc in H. discriminate.
  - intros k Hk. apply list_elem_of_fmap in Hk as (r & -> & Hr).
    destruct (Hres r Hr) as (i & t & Hi & Hin).
    destruct (cov_results _ _ _ (Hth i t Hi) r Hin) as (c & Hc & Hnew & ->).
    split; [|exact Hnew].
    rewrite <- Hkeys. exact (elem_of_task_keys _ i t c Hi Hc).
  - rewrite <- Hem. apply (inv_nodup E s Hinv).
Qed.

(** C3, as the code has it.  In a completed run, each task's skip counter
    is the number of its candidates whose key is in the pre-existing
    snapshot, and each of its records comes from a candidate whose key is not
    in the snapshot; the key of every candidate is in the snapshot or is the
    key of exactly one record of the run (so a candidate outside the
    snapshot whose key another task emitted is neither emitted nor
    counted).  A
    second run of the same tasks, against the snapshot extended with the
    records of the first, emits no record and skips every candidate: its
    skip count is the number of candidates, which is at least the record
    count of the first run, and equal to it when the candidates have distinct
    keys of which none was in the first snapshot. *)
Theorem rerun_skips_every_candidate (E : gset key) (jobs : list job)
    (schedule1 schedule2 : list action) :
  let s1 := run schedule1 (submit E jobs) in
  let E2 := E ∪ list_to_set (map key_of (all_results s1)) in
  let s2 := run schedule2 (submit E2 jobs) in
  all_joined s1 = true -> all_joined s2 = true ->
  (forall i t, threads s1 !! i = Some t ->
     skipped_count t =
       Z.of_nat (length (filter (fun c => candidate_key (html_url t) c ∈ E)
                           (python_files t)))
     /\ forall r, r ∈ results t ->
          exists c, c ∈ python_files t /\ (candidate_key (html_url t) c ∉ E)
                    /\ r = record_of (html_url t) c)
  /\ (forall k, k ∈ candidates jobs -> k ∈ E \/ k ∈ map key_of (all_results s1))
  /\ NoDup (map key_of (all_results s1))
  /\ all_results s2 = []
  /\ total_skipped s2 = Z.of_nat (length (candidates jobs))
  /\ (length (all_results s1) <= length (candidates jobs))%nat
  /\ (NoDup (candidates jobs) -> (forall k, k ∈ candidates jobs -> k ∉ E) ->
      total_skipped s2 = Z.of_nat (length (all_results s1))).
Proof.
  intros s1 E2 s2 Hdone1 Hdone2.
  destruct (completed_run E jobs schedule1 Hdone1) as (Hcover & Hfrom & Hnodup).
  fold s1 in Hcover, Hfrom, Hnodup.
  pose proof (accounted_run E schedule1 _ (accounted_submit E jobs)) as [Hth _].
  fold s1 in Hth.
  assert (rerun (Z.of_nat (length (candidates jobs))) s2) as [_ Hnone Hskipped].
  { apply rerun_run, rerun_submit. intros k Hk. unfold E2.
    apply elem_of_union.
    destruct (Hcover k Hk) as [H|H]; [now left|].
    right. now apply elem_of_list_to_set. }
  rewrite (all_joined_owed s2 Hdone2) in Hskipped. cbn [length] in Hskipped.
  assert (total_skipped s2 = Z.of_nat (length (candidates jobs))) as Htotal by lia.
  split_and!.
  - intros i t Hi. pose proof (Hth i t Hi) as Hcov. split.
    + rewrite (cov_skipped _ _ _ Hcov). rewrite take_ge; [reflexivity|].
      apply (cov_end _ _ _ Hcov). right. exact (all_joined_lookup s1 i t Hdone1 Hi).
    + exact (cov_results _ _ _ Hcov).
  - exact Hcover.
  - exact Hnodup.
  - exact Hnone.
  - exact Htotal.
  - rewrite <- (length_map key_of). apply submseteq_length.
    apply NoDup_submseteq; [exact Hnodup|]. intros k Hk. now apply Hfrom.
  - intros Hdistinct Hfresh. rewrite Htotal. f_equal.
    rewrite <- (length_map key_of (all_results s1)). apply Permutation_length.
    apply NoDup_Permutation; [exact Hdistinct|exact Hnodup|].
    intros k. split.
    + intros Hk. destruct (Hcover k Hk) as [H|H]; [|exact H]. now apply Hfresh in H.
    + intros Hk. now apply Hfrom.
Qed.

(** Two tasks with the same URL list the same file.  The second task
    neither emits nor counts its candidate; run again on the output, the
    skip count is 2 while the first run wrote 1 record. *)
Lemma shared_key_neither_emitted_nor_skipped :
  let c : candidate := ("a.py", 3, fzero) in
  let jobs : list job := [("u", Ok [c]); ("u", Ok [c])] in
  let s1 := run (one_by_one jobs) (submit ∅ jobs) in
  let s2 := run (one_by_one jobs)
              (submit (list_to_set (map key_of (all_results s1))) jobs) in
  all_joined s1 = true /\ all_joined s2 = true
  /\ (exists t, threads s1 !! 1%nat = Some t /\ python_files t = [c]
               /\ results t = [] /\ skipped_count t = 0)
  /\ all_results s1 = [record_of "u" c] /\ total_skipped s1 = 0
  /\ all_results s2 = [] /\ total_skipped s2 = 2.
Proof.
  vm_compute. split_and!; try reflexivity.
  eexists. split_and!; reflexivity.
Qed.

(** The theorem at three tasks, one of which raised: the second run skips
    the three candidates of the other two. *)
Lemma rerun_skips_every_candidate_witness :
  let a : candidate := ("a.py", 3, fzero) in
  let b : candidate := ("b.py", 4, fzero) in
  let jobs : list job := [("u", Ok [a; b]); ("v", Ok [a]); ("w", Raise (KeyError "x"))] in
  let s1 := run (one_by_one jobs) (submit ∅ jobs) in
  let s2 := run (one_by_one jobs)
              (submit (∅ ∪ list_to_set (map key_of (all_results s1))) jobs) in
  all_results s2 = [] /\ total_skipped s2 = 3.
Proof.
  pose (a := ("a.py", 3, fzero) : candidate).
  pose (b := ("b.py", 4, fzero) : candidate).
  pose (jobs := [("u", Ok [a; b]); ("v", Ok [a]); ("w", Raise (KeyError "x"))] : list job).
  destruct (rerun_skips_every_candidate ∅ jobs (one_by_one jobs) (one_by_one jobs))
    as (_ & _ & _ & Hnone & Hskip & _).
  - vm_compute. reflexivity.
  - vm_compute. reflexivity.
  - split; [exact Hnone|exact Hskip].
Defined.

End Orchestrator.

(* ===================================================================== *)
(** * Outcomes and log of a request *)
(* ===================================================================== *)

Module RequestOutcomes.

Import Vocabulary.

Section Facts.

Variable R : remote.

(** X1.  Where the outcome of a call comes from.  A payload returned is
    the response of one of the three attempts, the attempts before it having
    failed: the [return None] after the loop is never reached.  An exception
    raised is [ValueError], for a method other than GET and POST, before any
    attempt and with the world unchanged, or [GitHubAPIError] after three
    failed attempts, with the text of the third failure. *)
Theorem make_github_request_outcome url headers params method data w :
  let out := make_github_request R url headers params method data w in
  (forall body, out.2 = Ok body ->
     exists c (k : nat),
       http_call_of url headers params method data = Some c
       /\ (k < 3)%nat
       /\ (forall j, (j < k)%nat ->
             exists e, respond R (calls w + j)%nat c = RequestException e)
       /\ respond R (calls w + k)%nat c = Response body
       /\ calls out.1 = (calls w + S k)%nat)
  /\ (forall e, out.2 = Raise e ->
        (http_call_of url headers params method data = None
         /\ e = ValueError ("Unsupported HTTP method: " +:+ method)
         /\ out.1 = w)
        \/ (exists c cause,
              http_call_of url headers params method data = Some c
              /\ e = GitHubAPIError url MAX_RETRIES cause
              /\ respond R (calls w + 2)%nat c = RequestException cause
              /\ (forall j, (j < 3)%nat ->
                    exists e1, respond R (calls w + j)%nat c = RequestException e1)
              /\ calls out.1 = (calls w + 3)%nat)).
Proof.
  intros out. subst out.
  destruct (http_call_of url headers params method data) as [c|] eqn:Hc.
  - rewrite (RequestExecutor.make_github_request_cases R _ _ _ _ _ c w Hc).
    replace (calls w + 2)%nat with (S (S (calls w))) by lia.
    assert (forall (P : nat -> Prop), P 0%nat -> P 1%nat -> P 2%nat ->
            forall j, (j < 3)%nat -> P j) as Hthree.
    { intros P H0 H1 H2 j Hj. destruct j as [|[|[|j]]]; [assumption..|lia]. }
    destruct (respond R (calls w) c) as [b1|e1] eqn:H1.
    { split; [|discriminate]. intros body [= <-]. exists c, 0%nat.
      split_and!; [reflexivity | lia | intros j Hj; lia | | cbn; lia].
      now rewrite Nat.add_0_r. }
    cbn zeta. destruct (respond R (S (calls w)) c) as [b2|e2] eqn:H2.
    { split; [|discriminate]. intros body [= <-]. exists c, 1%nat.
      split_and!; [reflexivity | lia | | | cbn; lia].
      - intros j Hj. replace j with 0%nat by lia. rewrite Nat.add_0_r. eauto.
      - now replace (calls w + 1)%nat with (S (calls w)) by lia. }
    destruct (respond R (S (S (calls w))) c) as [b3|e3] eqn:H3.
    { split; [|discriminate]. intros body [= <-]. exists c, 2%nat.
      split_and!; [reflexivity | lia | | | cbn; lia].
      - intros j Hj. destruct j as [|[|j]]; [| |lia].
        + rewrite Nat.add_0_r. eauto.
        + replace (calls w + 1)%nat with (S (calls w)) by lia. eauto.
      - now replace (calls w + 2)%nat with (S (S (calls w))) by lia. }
    split; [discriminate|]. intros e [= <-]. right. exists c, e3.
    split_and!; [reflexivity | reflexivity | exact H3 | | cbn; lia].
    apply Hthree.
    + rewrite Nat.add_0_r. eauto.
    + replace (calls w + 1)%nat with (S (calls w)) by lia. eauto.
    + replace (calls w + 2)%nat with (S (S (calls w))) by lia. eauto.
  - rewrite (RequestExecutor.make_github_request_unsupported R _ _ _ _ _ w Hc).
    split; [discriminate|]. intros e [= <-]. left. auto.
Qed.

(** X2.  The log of a call: one warning per retry, of which there are at
    most two, then one error exactly when the call gives up, which happens
    only after two retries.  Every retry sleeps once, and the clock is never
    read. *)
Theorem make_github_request_log url headers params method data w :
  let out := make_github_request R url headers params method data w in
  exists retries : nat,
    (retries <= 2)%nat
    /\ logged out.1 =
         logged w ++ repeat (WARNING, retry_msg) retries
           ++ (if gave_up out.2 then [(ERROR, failed_msg)] else [])
    /\ length (slept out.1) = (length (slept w) + retries)%nat
    /\ (gave_up out.2 = true -> retries = 2%nat)
    /\ ticks out.1 = ticks w.
Proof.
  intros out. subst out.
  destruct (http_call_of url headers params method data) as [c|] eqn:Hc.
  - rewrite (RequestExecutor.make_github_request_cases R _ _ _ _ _ c w Hc).
    destruct (respond R (calls w) c) as [b1|e1].
    { exists 0%nat. cbn. rewrite !app_nil_r.
      split_and!; [lia | reflexivity | lia | discriminate | reflexivity]. }
    cbn zeta. destruct (respond R (S (calls w)) c) as [b2|e2].
    { exists 1%nat. cbn. rewrite length_app. cbn.
      split_and!; [lia | reflexivity | lia | discriminate | reflexivity]. }
    destruct (respond R (S (S (calls w))) c) as [b3|e3].
    { exists 2%nat. cbn. rewrite !length_app, <- !app_assoc. cbn.
      split_and!; [lia | reflexivity | lia | discriminate | reflexivity]. }
    exists 2%nat. cbn. rewrite !length_app, <- !app_assoc. cbn.
    split_and!; [lia | reflexivity | lia | reflexivity | reflexivity].
  - rewrite (RequestExecutor.make_github_request_unsupported R _ _ _ _ _ w Hc).
    exists 0%nat. cbn. rewrite !app_nil_r.
    split_and!; [lia | reflexivity | lia | discriminate | reflexivity].
Qed.

End Facts.

End RequestOutcomes.

(* ===================================================================== *)
(** * The status request and the two throttles *)
(* ===================================================================== *)

Module StatusAndThrottle.

Import Vocabulary.

Lemma max0_sleepable x : sleepable (max0 x) = true.
Proof.
  unfold max0. change (float_of_Z 0) with fzero.
  destruct (fltb fzero x) eqn:H; [|reflexivity].
  cbn [sleepable]. unfold fltb, SFltb in H. unfold fleb, SFleb.
  destruct (SFcompare fzero x) as [[| |]|]; try discriminate. reflexivity.
Qed.

Section Facts.

Variable R : remote.

(** The sleeps and the attempts of one request with the default arguments. *)
Lemma github_get_effects url headers w :
  let out := github_get R url headers w in
  (calls w < calls out.1 <= calls w + 3)%nat
  /\ (exists ds, slept out.1 = slept w ++ ds
                 /\ forallb sleepable ds = true /\ (length ds <= 2)%nat)
  /\ ticks out.1 = ticks w.
Proof.
  intros out. subst out. unfold github_get.
  rewrite (RequestExecutor.make_github_request_cases R url headers None "GET" None
             (HttpGet url headers None)) by reflexivity.
  destruct (respond R (calls w) _) as [b1|e1].
  { cbn. split_and!; [lia | lia | | reflexivity].
    exists []. rewrite app_nil_r. split_and!; [reflexivity | reflexivity | cbn; lia]. }
  cbn zeta. destruct (respond R (S (calls w)) _) as [b2|e2].
  { cbn. split_and!; [lia | lia | | reflexivity].
    exists [PyInt 5]. split_and!; [reflexivity | reflexivity | cbn; lia]. }
  destruct (respond R (S (S (calls w))) _) as [b3|e3].
  { cbn. split_and!; [lia | lia | | reflexivity].
    exists [PyInt 5; PyInt 10]. rewrite <- app_assoc.
    split_and!; [reflexivity | reflexivity | cbn; lia]. }
  cbn. split_and!; [lia | lia | | reflexivity].
  exists [PyInt 5; PyInt 10]. rewrite <- app_assoc.
  split_and!; [reflexivity | reflexivity | cbn; lia].
Qed.

(** The status request changes the world as its one request does, but for
    the log. *)
Lemma get_rate_limit_status_world token w :
  let out := get_rate_limit_status R token w in
  let req := github_get R (GITHUB_API_URL +:+ "/rate_limit") (headers_of token) w in
  calls out.1 = calls req.1 /\ slept out.1 = slept req.1 /\ ticks out.1 = ticks req.1.
Proof.
  intros out req. subst out req. unfold get_rate_limit_status.
  destruct (github_get R _ _ w) as [w1 [data|e]]; cbn [fst].
  - destruct (py_truthy data); [|auto]. destruct (read_snapshot data); auto.
  - destruct e; auto.
Qed.

(** X3.  [get_rate_limit_status] never raises, whatever the remote answers,
    and makes between one and three attempts.  It returns a snapshot exactly
    when the request returns a truthy payload that holds the four numbers.
    When it returns [None], either the payload was falsy and nothing was
    logged, or an error record was logged. *)
Theorem get_rate_limit_status_never_raises token w :
  let out := get_rate_limit_status R token w in
  let req := github_get R rate_url (headers_of token) w in
  (exists o, out.2 = Ok o)
  /\ (calls w < calls out.1 <= calls w + 3)%nat
  /\ (forall s, out.2 = Ok (Some s) <->
        exists data, req.2 = Ok data /\ py_truthy data = true
                     /\ read_snapshot data = Ok s)
  /\ (out.2 = Ok None ->
        (exists data, req.2 = Ok data /\ py_truthy data = false /\ out.1 = req.1)
        \/ exists msg, logged out.1 = logged req.1 ++ [(ERROR, msg)]).
Proof.
  intros out req.
  pose proof (github_get_effects rate_url (headers_of token) w) as (Hcalls & _ & _).
  pose proof (get_rate_limit_status_world token w) as (Hc & _ & _).
  fold out in Hc. change (GITHUB_API_URL +:+ "/rate_limit") with rate_url in Hc.
  fold req in Hc, Hcalls.
  split; [apply RateLimitMonitor.get_rate_limit_status_total|].
  split; [rewrite Hc; exact Hcalls|].
  subst out. unfold get_rate_limit_status.
  change (GITHUB_API_URL +:+ "/rate_limit") with rate_url. fold req.
  clear Hc Hcalls.
  destruct req as [w1 [data|e]]; cbn [fst snd].
  - destruct (py_truthy data) eqn:Ht.
    + destruct (read_snapshot data) as [s0|e0] eqn:Hr; cbn [fst snd].
      * split; [|discriminate]. intros s. split.
        -- intros [= <-]. eauto.
        -- intros (d & [= <-] & _ & Hs). rewrite Hr in Hs. now inversion Hs.
      * split.
        -- intros s. split; [discriminate|].
           intros (d & [= <-] & _ & Hs). rewrite Hr in Hs. discriminate.
        -- intros _. right. eauto.
    + cbn [fst snd]. split.
      * intros s. split; [discriminate|].
        intros (d & [= <-] & Hd & _). congruence.
      * intros _. left. eauto.
  - assert (forall (o : world * result (option snapshot)) msg,
              o = (logging ERROR msg w1, Ok None) ->
              (forall s, o.2 = Ok (Some s) <->
                 exists data, Raise e = Ok data /\ py_truthy data = true
                              /\ read_snapshot data = Ok s)
              /\ (o.2 = Ok None ->
                  (exists data, Raise e = Ok data /\ py_truthy data = false /\ o.1 = w1)
                  \/ exists msg, logged o.1 = logged w1 ++ [(ERROR, msg)])) as Hgen.
    { intros o msg ->. cbn [fst snd]. split.
      - intros s. split; [discriminate|]. intros (d & H & _). discriminate.
      - intros _. right. eauto. }
    destruct e; eapply Hgen; reflexivity.
Qed.

(** X4.  When the three attempts of the status request fail,
    [get_rate_limit_status] returns [None]; the throttle of the search loop
    then goes on without pausing, while the check before any work makes
    [main] return.  Each has made three attempts, slept 5 and 10 seconds and
    logged two warnings and two errors. *)
Theorem status_unavailable token w :
  (forall j, (j < 3)%nat ->
     exists e, respond R (calls w + j)%nat (HttpGet rate_url (headers_of token) None)
               = RequestException e) ->
  exists w1,
    get_rate_limit_status R token w = (w1, Ok None)
    /\ search_throttle R token w = (w1, Ok tt)
    /\ preflight R token w = (w1, false)
    /\ calls w1 = (calls w + 3)%nat
    /\ slept w1 = slept w ++ [PyInt 5; PyInt 10]
    /\ logged w1 = logged w ++ [(WARNING, retry_msg); (WARNING, retry_msg);
                                (ERROR, failed_msg);
                                (ERROR, "Error getting rate limit status: {e}")].
Proof.
  intros Hfail.
  assert (exists cause,
            github_get R rate_url (headers_of token) w =
              (logging ERROR failed_msg
                 (attempt_made
                    (sleep (PyInt 10)
                       (logging WARNING retry_msg
                          (attempt_made
                             (sleep (PyInt 5)
                                (logging WARNING retry_msg (attempt_made w))))))),
               Raise (GitHubAPIError rate_url 3 cause))) as [cause Hget].
  { unfold github_get.
    rewrite (RequestExecutor.make_github_request_cases R rate_url (headers_of token)
               None "GET" None (HttpGet rate_url (headers_of token) None))
      by reflexivity.
    destruct (Hfail 0%nat ltac:(lia)) as [e0 H0].
    destruct (Hfail 1%nat ltac:(lia)) as [e1 H1].
    destruct (Hfail 2%nat ltac:(lia)) as [e2 H2].
    rewrite Nat.add_0_r in H0.
    replace (calls w + 1)%nat with (S (calls w)) in H1 by lia.
    replace (calls w + 2)%nat with (S (S (calls w))) in H2 by lia.
    rewrite H0. cbn zeta. rewrite H1, H2. eauto. }
  unfold rate_url in Hget.
  eexists. split_and!.
  - unfold get_rate_limit_status. rewrite Hget. reflexivity.
  - unfold search_throttle, bind, get_rate_limit_status. rewrite Hget. reflexivity.
  - unfold preflight, preflight_body, bind, get_rate_limit_status. rewrite Hget.
    reflexivity.
  - cbn. lia.
  - cbn. now rewrite <- app_assoc.
  - cbn. now rewrite <- !app_assoc.
Qed.

Lemma get_rate_limit_status_sleeps token w :
  let out := get_rate_limit_status R token w in
  exists ds, slept out.1 = slept w ++ ds
             /\ forallb sleepable ds = true /\ (length ds <= 2)%nat.
Proof.
  intros out.
  pose proof (get_rate_limit_status_world token w) as (_ & Hs & _).
  pose proof (github_get_effects (GITHUB_API_URL +:+ "/rate_limit")
                (headers_of token) w) as (_ & Hds & _).
  fold out in Hs. rewrite Hs. exact Hds.
Qed.

Lemma wait_for_reset_sleeps q notice w :
  let out := wait_for_reset R q notice w in
  exists ds, slept out.1 = slept w ++ ds
             /\ forallb sleepable ds = true /\ (length ds <= 1)%nat.
Proof.
  intros out. subst out.
  destruct (fromtimestamp R (reset q)) as [reset_time|e] eqn:Hr.
  - rewrite (RateLimitMonitor.wait_for_reset_sleep R q notice reset_time w Hr).
    set (d := max0 (seconds_until reset_time (clock R (ticks w)))).
    set (w1 := match notice with
               | Some msg => logging WARNING msg (tick w)
               | None => tick w
               end).
    assert (slept w1 = slept w) as Hw1 by (unfold w1; destruct notice; reflexivity).
    assert (sleepable d = true) as Hd by apply max0_sleepable.
    destruct (carried_out R (length (slept w1)) d) eqn:Hgo.
    + rewrite RateLimitMonitor.time_sleep_carried_out by exact Hgo.
      exists [d]. cbn [fst sleep slept forallb length]. rewrite Hw1, Hd.
      split_and!; [reflexivity | reflexivity | lia].
    + destruct (RateLimitMonitor.time_sleep_refused R d w1 Hgo) as [e ->].
      exists []. cbn [fst]. rewrite Hw1, app_nil_r.
      split_and!; [reflexivity | reflexivity | cbn; lia].
  - rewrite (RateLimitMonitor.wait_for_reset_no_datetime R q notice e w Hr).
    exists []. rewrite app_nil_r. split_and!; [reflexivity | reflexivity | cbn; lia].
Qed.

(** X5.  Every duration the throttle of the search loop and the check
    before any work sleep is a number that is not negative and not NaN,
    whatever the reset time and the clock.  The throttle sleeps at most
    three times, the check at most five. *)
Theorem throttles_sleep_sleepable token w :
  (exists ds, slept (search_throttle R token w).1 = slept w ++ ds
              /\ forallb sleepable ds = true /\ (length ds <= 3)%nat)
  /\ (exists ds, slept (preflight R token w).1 = slept w ++ ds
                 /\ forallb sleepable ds = true /\ (length ds <= 5)%nat).
Proof.
  split.
  - unfold search_throttle, bind.
    destruct (get_rate_limit_status_sleeps token w) as (d1 & H1 & Hv1 & Hl1).
    destruct (get_rate_limit_status R token w) as [w1 [[s|]|e]]; cbn [fst] in H1;
      try (exists d1; cbn [fst]; split_and!; [assumption | assumption | lia]).
    unfold lift at 1.
    destruct (py_le_int (remaining (search s)) 1) as [[|]|e]; cbn [fst];
      try (exists d1; split_and!; [assumption | assumption | lia]).
    destruct (wait_for_reset_sleeps (search s) (Some low_quota_msg) w1)
      as (d2 & H2 & Hv2 & Hl2).
    exists (d1 ++ d2). rewrite H2, H1, <- app_assoc, forallb_app, Hv1, Hv2, length_app.
    split_and!; [reflexivity | reflexivity | lia].
  - unfold preflight, preflight_body, bind.
    destruct (get_rate_limit_status_sleeps token w) as (d1 & H1 & Hv1 & Hl1).
    destruct (get_rate_limit_status R token w) as [w1 [[s|]|e]]; cbn [fst] in H1;
      try (exists d1; cbn [fst]; split_and!; [assumption | assumption | lia]).
    destruct (py_eq_int (remaining (core s)) 0);
      [|exists d1; cbn [fst]; split_and!; [assumption | assumption | lia]].
    destruct (wait_for_reset_sleeps (core s) None w1) as (d2 & H2 & Hv2 & Hl2).
    destruct (wait_for_reset R (core s) None w1) as [w2 [[]|e]]; cbn [fst] in H2.
    + destruct (get_rate_limit_status_sleeps token w2) as (d3 & H3 & Hv3 & Hl3).
      assert (slept (get_rate_limit_status R token w2).1 = slept w ++ (d1 ++ d2 ++ d3)) as H.
      { rewrite H3, H2, H1, <- !app_assoc. reflexivity. }
      exists (d1 ++ d2 ++ d3).
      rewrite !forallb_app, Hv1, Hv2, Hv3, !length_app.
      destruct (get_rate_limit_status R token w2) as [w3 [[s3|]|e3]]; cbn [fst] in *;
        (split_and!; [exact H | reflexivity | lia]).
    + exists (d1 ++ d2). cbn [fst].
      rewrite H2, H1, <- app_assoc, forallb_app, Hv1, Hv2, length_app.
      split_and!; [reflexivity | reflexivity | lia].
Qed.

End Facts.

Lemma status_unavailable_witness :
  search_throttle (failing_first 3 JNull) "t" world0 =
    ({| calls := 3; slept := [PyInt 5; PyInt 10];
        logged := [(WARNING, retry_msg); (WARNING, retry_msg); (ERROR, failed_msg);
                   (ERROR, "Error getting rate limit status: {e}")];
        ticks := 0 |}, Ok tt)
  /\ preflight (failing_first 3 JNull) "t" world0 =
    ({| calls := 3; slept := [PyInt 5; PyInt 10];
        logged := [(WARNING, retry_msg); (WARNING, retry_msg); (ERROR, failed_msg);
                   (ERROR, "Error getting rate limit status: {e}")];
        ticks := 0 |}, false).
Proof.
  destruct (status_unavailable (failing_first 3 JNull) "t" world0)
    as (w1 & Hs & Ht & Hp & Hc & Hsl & Hl).
  - intros j Hj. exists "timed out".
    destruct j as [|[|[|j]]]; [reflexivity | reflexivity | reflexivity | exfalso; lia].
  - rewrite Ht, Hp. destruct w1 as [c s l t]. cbn in Hc, Hsl, Hl. subst c s l.
    assert (t = 0%nat) as ->; [|split; reflexivity].
    pose proof (f_equal (fun o => ticks o.1) Hs) as Hticks. cbn in Hticks.
    symmetry. exact Hticks.
Defined.

End StatusAndThrottle.

(* ===================================================================== *)
(** * The budget of the search *)
(* ===================================================================== *)

Module SearchBudget.

Import Vocabulary.

Lemma py_iter_len items its n :
  py_iter items = Ok its -> py_len items = Ok n -> n = Z.of_nat (length its).
Proof.
  destruct items as [| | |s|l|d]; cbn; try discriminate; intros [= <-] [= <-].
  - unfold chars. now rewrite length_map.
  - reflexivity.
  - now rewrite length_map.
Qed.

Lemma pages_for_pos max_repos n : n < max_repos -> (1 <= pages_for (max_repos - n))%nat.
Proof.
  intros Hlt. unfold pages_for.
  assert (1 <= (max_repos - n + 99) / 100); [|lia].
  replace (max_repos - n + 99) with ((max_repos - n - 1) + 1 * 100) by lia.
  rewrite Z.div_add by lia.
  assert (0 <= (max_repos - n - 1) / 100) by (apply Z.div_pos; lia). lia.
Qed.

Lemma pages_for_step max_repos n n1 :
  n < max_repos -> n + 100 <= n1 ->
  (pages_for (max_repos - n1) + 1 <= pages_for (max_repos - n))%nat.
Proof.
  intros Hlt Hge. pose proof (pages_for_pos max_repos n Hlt) as Hpos.
  unfold pages_for in *.
  assert ((max_repos - n1 + 99) / 100 + 1 <= (max_repos - n + 99) / 100) as H.
  { replace (max_repos - n + 99) with ((max_repos - n - 100 + 99) + 1 * 100) by lia.
    rewrite Z.div_add by lia.
    apply Z.add_le_mono_r. apply Z.div_le_mono; lia. }
  lia.
Qed.

Section Facts.

Variable R : remote.

Lemma make_github_request_calls url headers params method data w :
  (calls (make_github_request R url headers params method data w).1 <= calls w + 3)%nat.
Proof.
  destruct (http_call_of url headers params method data) as [c|] eqn:Hc.
  - rewrite (RequestExecutor.make_github_request_cases R _ _ _ _ _ c w Hc).
    repeat match goal with
           | |- context [match respond R ?n c with _ => _ end] =>
               destruct (respond R n c)
           end; cbn; lia.
  - rewrite (RequestExecutor.make_github_request_unsupported R _ _ _ _ _ w Hc). cbn. lia.
Qed.

Lemma get_rate_limit_status_calls token w :
  (calls (get_rate_limit_status R token w).1 <= calls w + 3)%nat.
Proof.
  unfold get_rate_limit_status, github_get.
  pose proof (make_github_request_calls (GITHUB_API_URL +:+ "/rate_limit")
                (headers_of token) None "GET" None w) as H.
  destruct (make_github_request R _ _ _ _ _ w) as [w1 [data|e]]; cbn [fst] in *.
  - destruct (py_truthy data); [|exact H]. destruct (read_snapshot data); exact H.
  - destruct e; exact H.
Qed.

(** The pause makes no request. *)
Lemma wait_for_reset_calls q notice w :
  calls (wait_for_reset R q notice w).1 = calls w.
Proof.
  destruct (fromtimestamp R (reset q)) as [reset_time|e] eqn:Hr.
  - rewrite (RateLimitMonitor.wait_for_reset_sleep R q notice reset_time w Hr).
    set (d := max0 (seconds_until reset_time (clock R (ticks w)))).
    set (w1 := match notice with
               | Some msg => logging WARNING msg (tick w)
               | None => tick w
               end).
    assert (calls w1 = calls w) as Hw1 by (unfold w1; destruct notice; reflexivity).
    destruct (carried_out R (length (slept w1)) d) eqn:Hgo.
    + rewrite RateLimitMonitor.time_sleep_carried_out by exact Hgo. exact Hw1.
    + destruct (RateLimitMonitor.time_sleep_refused R d w1 Hgo) as [e ->]. exact Hw1.
  - now rewrite (RateLimitMonitor.wait_for_reset_no_datetime R q notice e w Hr).
Qed.

Lemma search_throttle_calls token w :
  (calls (search_throttle R token w).1 <= calls w + 3)%nat.
Proof.
  unfold search_throttle, bind.
  pose proof (get_rate_limit_status_calls token w) as H.
  destruct (get_rate_limit_status R token w) as [w1 [[s|]|e]]; cbn [fst] in *;
    try exact H.
  unfold lift at 1.
  destruct (py_le_int (remaining (search s)) 1) as [[|]|e]; cbn [fst]; try exact H.
  now rewrite wait_for_reset_calls.
Qed.

(** One iteration makes at most six attempts. *)
Lemma search_iteration_calls token headers query max_repos repos page w :
  (calls (search_iteration R token headers query max_repos repos page w).1
   <= calls w + 6)%nat.
Proof.
  unfold search_iteration, bind.
  pose proof (search_throttle_calls token w) as Ht.
  destruct (search_throttle R token w) as [w1 [[]|e]]; cbn [fst] in *; [|lia].
  assert (calls (search_page R headers query max_repos repos page w1).1 <= calls w1 + 3)%nat
    as Hp.
  { unfold search_page, bind.
    pose proof (make_github_request_calls (GITHUB_API_URL +:+ "/search/repositories")
                  headers (Some (search_params query page)) "GET" None w1) as H.
    destruct (make_github_request R _ _ _ _ _ w1) as [w2 [data|e]]; cbn [fst] in *;
      [|exact H].
    unfold lift, ret.
    destruct (py_in "items" data) as [[|]|]; cbn [negb fst]; try exact H.
    destruct (py_getitem data "items") as [items|]; cbn [fst]; [|exact H].
    destruct (py_truthy items); cbn [negb fst]; [|exact H].
    destruct (py_iter items); cbn [fst]; [|exact H].
    destruct (py_len items) as [n|]; cbn [fst]; [|exact H].
    destruct (n <? per_page); exact H. }
  destruct (search_page R headers query max_repos repos page w1) as [w2 [f|e]];
    cbn [fst] in *; [lia|].
  destruct e; cbn [fst logging calls]; lia.
Qed.

(** A page that lets the loop go on held a full page: it brought a hundred
    repositories, or as many as were still wanted. *)
Lemma search_page_full headers query max_repos repos page w w1 repos1 page1 :
  len repos < max_repos ->
  search_page R headers query max_repos repos page w = (w1, Ok (Continue repos1 page1)) ->
  len repos + 100 <= len repos1 \/ max_repos <= len repos1.
Proof.
  intros Hlt. unfold search_page, bind, lift, ret.
  destruct (make_github_request R _ _ _ _ _ w) as [w2 [data|e]]; [|discriminate].
  destruct (py_in "items" data) as [[|]|]; cbn [negb]; try discriminate.
  destruct (py_getitem data "items") as [items|]; [|discriminate].
  destruct (py_truthy items) eqn:Ht; cbn [negb]; [|discriminate].
  destruct (py_iter items) as [its|] eqn:Hi; [|discriminate].
  destruct (py_len items) as [n|] eqn:Hn; [|discriminate].
  destruct (Z.ltb_spec n per_page) as [|Hfull]; [discriminate|].
  intros H. inversion H. subst. clear H.
  rewrite (RepositorySearcher.append_items_take its repos max_repos Hlt).
  pose proof (py_iter_len items its n Hi Hn) as Hlen.
  unfold per_page in Hfull. unfold len in *.
  rewrite length_app, length_take. lia.
Qed.

Lemma search_iteration_full token headers query max_repos repos page w w1 repos1 page1 :
  len repos < max_repos ->
  search_iteration R token headers query max_repos repos page w
    = (w1, Ok (Continue repos1 page1)) ->
  len repos + 100 <= len repos1 \/ max_repos <= len repos1.
Proof.
  intros Hlt. unfold search_iteration, bind.
  destruct (search_throttle R token w) as [w2 [[]|e]]; [|discriminate].
  destruct (search_page R headers query max_repos repos page w2) as [w3 [f|e]] eqn:E.
  - intros H. inversion H. subst. eapply search_page_full; eassumption.
  - destruct e; discriminate.
Qed.

Lemma search_loop_budget token headers query max_repos : forall fuel repos page w,
  max_repos - len repos <= Z.of_nat fuel ->
  exists w1 r,
    search_loop R fuel token headers query max_repos repos page w = Some (w1, r)
    /\ (calls w1 <= calls w + 6 * pages_for (max_repos - len repos))%nat.
Proof.
  induction fuel as [|fuel IH]; intros repos page w Hfuel; cbn [search_loop].
  - destruct (Z.ltb_spec (len repos) max_repos); [lia|].
    eexists _, _. split; [reflexivity|lia].
  - destruct (Z.ltb_spec (len repos) max_repos) as [Hlt|Hge].
    2:{ eexists _, _. split; [reflexivity|lia]. }
    pose proof (search_iteration_calls token headers query max_repos repos page w) as Hc.
    pose proof (pages_for_pos max_repos (len repos) Hlt) as Hpos.
    destruct (search_iteration R token headers query max_repos repos page w)
      as [w1 [[repos1|repos1 page1]|e]] eqn:E; cbn [fst] in Hc.
    + eexists _, _. split; [reflexivity|lia].
    + pose proof (search_iteration_full _ _ _ _ _ _ _ _ _ _ Hlt E) as Hfull.
      pose proof (RepositorySearcher.search_iteration_continue R _ _ _ _ _ _ _ _ _ _ E)
        as Hgrow.
      destruct (IH repos1 page1 w1) as (w2 & r & Hloop & Hcalls).
      { unfold len in *. lia. }
      exists w2, r. split; [exact Hloop|].
      destruct Hfull as [Hfull|Hdone].
      * pose proof (pages_for_step max_repos (len repos) (len repos1) Hlt Hfull). lia.
      * assert (pages_for (max_repos - len repos1) = 0%nat) as H0.
        { unfold pages_for.
          assert ((max_repos - len repos1 + 99) / 100 <= 0); [|lia].
          assert ((max_repos - len repos1 + 99) / 100 <= 99 / 100)
            by (apply Z.div_le_mono; lia).
          change (99 / 100) with 0 in *. lia. }
        lia.
    + eexists _, _. split; [reflexivity|lia].
Qed.

(** X6.  The search always ends, with a list or an exception, after at
    most six attempts per page of 100 that [max_repos] repositories need
    (three of the status request and three of the search request), whatever
    the remote answers.  For [max_repos <= 0] it makes no attempt and returns
    the empty list. *)
Theorem search_repositories_budget token max_repos start_date end_date w :
  exists w1 r,
    search_repositories R token max_repos start_date end_date w = Some (w1, r)
    /\ (calls w1 <= calls w + 6 * pages_for max_repos)%nat
    /\ (max_repos <= 0 -> w1 = w /\ r = Ok []).
Proof.
  destruct (search_loop_budget token (headers_of token) (query_of start_date end_date)
              max_repos (Z.to_nat max_repos) [] 1 w) as (w1 & r & Hloop & Hcalls).
  { unfold len. cbn [length]. lia. }
  change (len (@nil json)) with 0 in Hcalls. rewrite Z.sub_0_r in Hcalls.
  unfold search_repositories. rewrite Hloop.
  assert (max_repos <= 0 -> w1 = w /\ r = Ok []) as Hzero.
  { intros Hle. replace (Z.to_nat max_repos) with 0%nat in Hloop by lia.
    cbn [search_loop] in Hloop. change (len (@nil json)) with 0 in Hloop.
    destruct (Z.ltb_spec 0 max_repos); [lia|]. now inversion Hloop. }
  destruct r as [repos|e].
  - eexists _, _. split; [reflexivity|]. split; [exact Hcalls|].
    intros Hle. destruct (Hzero Hle) as [-> [= ->]]. split; [reflexivity|].
    unfold slice_to. destruct (0 <=? max_repos); now rewrite take_nil.
  - eexists _, _. split; [reflexivity|]. split; [exact Hcalls|exact Hzero].
Qed.

(** X7.  The search loop handles [GitHubAPIError] only.  When the request
    of the first page is answered with [null], a boolean or a number, the
    membership test on the payload raises [TypeError], and
    [search_repositories] raises it. *)
Theorem search_scalar_page_raises token max_repos start_date end_date w w1 body :
  0 < max_repos ->
  search_throttle R token w = (w1, Ok tt) ->
  respond R (calls w1)
    (HttpGet search_url (headers_of token)
       (Some (search_params (query_of start_date end_date) 1))) = Response body ->
  is_scalar body = true ->
  exists msg,
    search_repositories R token max_repos start_date end_date w
      = Some (attempt_made w1, Raise (TypeError msg)).
Proof.
  intros Hpos Hthrottle Hresp Hscalar.
  unfold search_repositories.
  destruct (Z.to_nat max_repos) as [|fuel] eqn:Hfuel; [lia|].
  cbn [search_loop]. change (len (@nil json)) with 0.
  destruct (Z.ltb_spec 0 max_repos); [|lia].
  unfold search_iteration, bind. rewrite Hthrottle.
  unfold search_page, bind. unfold search_url in Hresp.
  rewrite (RequestExecutor.make_github_request_first R _ _ _ "GET" None
             _ w1 _ eq_refl Hresp).
  destruct body; try discriminate; cbn; eauto.
Qed.

End Facts.

Lemma search_scalar_page_raises_witness :
  exists msg,
    search_repositories (steady JNull 0) "t" 10 "2024-01-01" "2024-12-31" world0
      = Some ({| calls := 2; slept := []; logged := []; ticks := 0 |},
              Raise (TypeError msg)).
Proof.
  destruct (search_scalar_page_raises (steady JNull 0) "t" 10 "2024-01-01" "2024-12-31"
              world0 {| calls := 1; slept := []; logged := []; ticks := 0 |} JNull)
    as [msg H]; [lia | reflexivity | reflexivity | reflexivity |].
  exists msg. exact H.
Defined.

End SearchBudget.

(* ===================================================================== *)
(** * Counting lines *)
(* ===================================================================== *)

Module LineCounting.

Import Vocabulary.






(** Every boundary uses up a character. *)
Lemma splitlines_from_length : forall (n : nat) s cur,
  (length s <= n)%nat ->
  (length (splitlines_from cur s) <= length s + match cur with [] => 0 | _ => 1 end)%nat.
Proof.
  induction n as [|n IH]; intros s cur Hn.
  - destruct s; [|cbn in Hn; lia]. cbn. destruct cur; cbn; lia.
  - destruct s as [|c rest]; [cbn; destruct cur; cbn; lia|].
    cbn [length] in Hn. cbn [splitlines_from].
    destruct (N.eqb c 13).
    + destruct rest as [|c2 rest2].
      * cbn. lia.
      * destruct (N.eqb c2 10); cbn [length].
        -- pose proof (IH rest2 [] ltac:(cbn [length] in Hn; lia)) as H.
           cbn in H. destruct cur; lia.
        -- pose proof (IH (c2 :: rest2) [] ltac:(cbn [length] in *; lia)) as H.
           cbn [length] in H. destruct cur; lia.
    + destruct (is_linebreak c); cbn [length].
      * pose proof (IH rest [] ltac:(lia)) as H. cbn beta iota in H.
        destruct cur; lia.
      * pose proof (IH rest (c :: cur) ltac:(lia)) as H. cbn beta iota in H.
        destruct cur; lia.
Qed.

(** X9.  The line count lies between 0 and the number of characters of the
    content, and it is 0 exactly for the empty content; the text returned is
    the decoded content. *)
Theorem num_lines_bounds content :
  let num_lines := (stats_of content).1.2 in
  0 <= num_lines <= Z.of_nat (length content)
  /\ (num_lines = 0 <-> content = [])
  /\ (stats_of content).1.1 = content.
Proof.
  intros num_lines. subst num_lines. unfold stats_of.
  pose proof (splitlines_from_length (length content) content [] ltac:(lia)) as Hlen.
  fold (splitlines content) in Hlen.
  pose proof (ContentStats.splitlines_nil content) as Hnil.
  destruct (Z.eqb_spec (Z.of_nat (length (splitlines content))) 0) as [H0|Hn0];
    cbn [fst snd].
  - assert (content = []) as ->.
    { apply Hnil. destruct (splitlines content); [reflexivity|discriminate]. }
    cbn. split_and!; [lia | lia | tauto | reflexivity].
  - cbn beta iota in Hlen. split_and!; [lia | lia | | reflexivity].
    split; [lia|]. intros ->. exfalso. apply Hn0. reflexivity.
Qed.

(** X10.  A file of fewer than 2^53 lines, none of which is a comment, has
    the ratio [0.0] exactly. *)
Theorem no_comment_ratio_zero content :
  let lines := splitlines content in
  Z.of_nat (length lines) < 2 ^ 53 ->
  count_comments lines = 0 ->
  (stats_of content).2 = fzero.
Proof.
  intros lines Hbound Hnone. unfold stats_of. fold lines.
  destruct (Z.of_nat (length lines) =? 0); [reflexivity|].
  cbn [snd]. rewrite Hnone. unfold comment_ratio_of, code_lines_of.
  rewrite Z.sub_0_r.
  destruct (Z.ltb_spec 0 (Z.of_nat (length lines))) as [Hpos|]; [|reflexivity].
  pose proof (Binary64.float_of_Z_finite (Z.of_nat (length lines)) ltac:(lia)) as Hfin.
  pose proof (Binary64.float_of_Z_signed (Z.of_nat (length lines)) ltac:(lia)) as Hsig.
  unfold int_truediv. change (float_of_Z 0) with fzero.
  destruct (float_of_Z (Z.of_nat (length lines))) as [| | |s m e];
    try contradiction.
  cbn in Hsig. subst s. reflexivity.
Qed.


Lemma no_comment_ratio_zero_witness :
  (stats_of (text_of "x = 1")).2 = fzero.
Proof.
  apply (no_comment_ratio_zero (text_of "x = 1")).
  - vm_compute. reflexivity.
  - reflexivity.
Defined.

End LineCounting.

(* ===================================================================== *)
(** * What the walk returns *)
(* ===================================================================== *)

Module WalkResults.

Import Vocabulary.

Lemma prefix_app_keeps a p s : String.prefix a p = true -> String.prefix a (p +:+ s) = true.
Proof.
  revert p. induction a as [|c a IH]; intros p; [now destruct (p +:+ s)|].
  destruct p as [|d p]; [discriminate|].
  change (String d p +:+ s) with (String d (p +:+ s)). cbn [String.prefix].
  destruct (ascii_dec c d); [apply IH|discriminate].
Qed.

Lemma substringb_app_keeps a p s : substringb a p = true -> substringb a (p +:+ s) = true.
Proof.
  induction p as [|d p IH].
  - cbn [substringb]. rewrite orb_false_r. intros H.
    destruct a; [|discriminate]. change ("" +:+ s) with s. now destruct s.
  - change (String d p +:+ s) with (String d (p +:+ s)). cbn [substringb].
    intros [H|H]%orb_true_iff.
    + apply (prefix_app_keeps a (String d p) s) in H.
      change (String d p +:+ s) with (String d (p +:+ s)) in H.
      rewrite H. reflexivity.
    + rewrite (IH H). apply orb_true_r.
Qed.

(** X11.  Exclusion is inherited: when a path is excluded, so is every path
    that extends it.  Whatever lies below an excluded directory is
    excluded. *)
Theorem excluded_below path rest :
  excluded path = true -> excluded (path +:+ rest) = true.
Proof.
  rewrite !TreeFilter.excluded_spec. intros H.
  repeat (apply orb_true_iff in H as [H|H]);
    [ apply (prefix_app_keeps _ _ rest) in H
    | apply (prefix_app_keeps _ _ rest) in H
    | apply (substringb_app_keeps _ _ rest) in H
    | apply (substringb_app_keeps _ _ rest) in H
    | apply (prefix_app_keeps _ _ rest) in H
    | apply (prefix_app_keeps _ _ rest) in H
    | apply (prefix_app_keeps _ _ rest) in H ];
    rewrite H; rewrite ?orb_true_r; reflexivity.
Qed.

Lemma wanted_paths_cons item items :
  wanted_paths (item :: items) =
    match wanted item with
    | Some p => p :: wanted_paths items
    | None => wanted_paths items
    end.
Proof. reflexivity. Qed.

Section Facts.

Variable R : remote.
Variable decode_content : json -> result text.

Lemma get_file_content_and_stats_budget token repo_full_name file_path w :
  (calls (get_file_content_and_stats R decode_content token repo_full_name file_path w).1
   <= calls w + 3)%nat.
Proof.
  unfold get_file_content_and_stats.
  pose proof (StatusAndThrottle.github_get_effects R
                (contents_url repo_full_name file_path) (headers_of token) w)
    as ([_ H] & _).
  destruct (github_get R _ _ w) as [w1 [file_data|e]]; cbn [fst] in H.
  - destruct (py_in "content" file_data) as [[|]|]; cbn [fst]; try exact H.
    destruct (rbind _ decode_content); exact H.
  - destruct e; exact H.
Qed.

(** What one pass of the loop body does to the results and to the number of
    attempts. *)
Lemma walk_item_step token repo_full_name min_lines max_lines quality_threshold
    item results w :
  let out := walk_item R decode_content token repo_full_name min_lines max_lines
               quality_threshold item results w in
  match wanted item with
  | None => calls out.1 = calls w
  | Some _ => (calls out.1 <= calls w + 3)%nat
  end
  /\ forall results1, out.2 = Ok results1 ->
       results1 = results
       \/ exists c, wanted item = Some c.1.1 /\ results1 = results ++ [c]
                    /\ admissible min_lines max_lines quality_threshold c = true.
Proof.
  intros out. subst out. unfold wanted, walk_item, bind, lift, ret, raise.
  destruct (py_getitem item "type") as [ty|]; [|split; [reflexivity|discriminate]].
  destruct (is_str "blob" ty); cbn [andb].
  2:{ split; [now destruct (py_getitem item "path") as [[]|]|].
      intros results1 [= <-]. now left. }
  destruct (py_getitem item "path") as [[| | |p| |]|];
    try (split; [reflexivity|discriminate]).
  destruct (endswith p ".py") eqn:Hpy; cbn [andb].
  2:{ split; [reflexivity|]. intros results1 [= <-]. now left. }
  destruct (excluded p) eqn:Hex; cbn [negb].
  { split; [reflexivity|]. intros results1 [= <-]. now left. }
  pose proof (get_file_content_and_stats_budget token repo_full_name p w) as Hc.
  destruct (get_file_content_and_stats R decode_content token repo_full_name p w)
    as [w2 [[[[t n] r]|]|e]]; cbn [fst] in Hc;
    try (split; [exact Hc|discriminate]).
  destruct ((min_lines <=? n) && (n <=? max_lines) && fleb quality_threshold r) eqn:Hk;
    (split; [exact Hc|]); intros results1 [= <-]; [|now left].
  right. exists (p, n, r). split_and!; [reflexivity | reflexivity |].
  unfold admissible. cbn [fst snd]. rewrite Hpy, Hex. cbn [negb andb].
  exact Hk.
Qed.

(** X12.  The loop over the tree.  The results after the loop are the
    results before it followed by new candidates.  The paths of the new
    candidates are, in the order of the tree, paths of blobs that end in
    [.py] and are not excluded; every new candidate has a line count within
    the bounds and a ratio that reaches the threshold.  The loop makes at
    most three attempts per such blob, and none for the other entries. *)
Theorem walk_items_results token repo_full_name min_lines max_lines quality_threshold
    items results w :
  let out := walk_items R decode_content token repo_full_name min_lines max_lines
               quality_threshold items results w in
  exists added,
    out.1.2 = results ++ added
    /\ map (fun c : candidate => c.1.1) added `sublist_of` wanted_paths items
    /\ forallb (admissible min_lines max_lines quality_threshold) added = true
    /\ (calls out.1.1 <= calls w + 3 * length (wanted_paths items))%nat.
Proof.
  cbn zeta. revert results w.
  induction items as [|item items IH]; intros results w; cbn [walk_items].
  - exists []. rewrite app_nil_r. cbn. split_and!; [reflexivity | constructor | reflexivity | lia].
  - pose proof (walk_item_step token repo_full_name min_lines max_lines
                  quality_threshold item results w) as [Hcalls Hres].
    cbn zeta in Hcalls, Hres. rewrite wanted_paths_cons.
    destruct (walk_item R decode_content token repo_full_name min_lines max_lines
                quality_threshold item results w) as [w1 [results1|e]];
      cbn [fst snd] in Hcalls, Hres.
    + destruct (IH results1 w1) as (added & Heq & Hsub & Hok & Hc).
      destruct (Hres results1 eq_refl) as [->|(c & Hw & -> & Hadm)].
      * exists added. split; [exact Heq|].
        destruct (wanted item) as [p|]; cbn [length].
        -- split_and!; [now apply sublist_cons | exact Hok | lia].
        -- split_and!; [exact Hsub | exact Hok | lia].
      * exists (c :: added). rewrite Hw in *. cbn [map forallb length].
        rewrite Heq, <- app_assoc, Hadm, Hok.
        split_and!; [reflexivity | now apply sublist_skip | reflexivity | lia].
    + exists []. rewrite app_nil_r. cbn [fst snd map forallb].
      split_and!; [reflexivity | apply sublist_nil_l | reflexivity |].
      destruct (wanted item); cbn [length]; lia.
Qed.

(** The loop only appends admissible candidates. *)
Lemma walk_items_admissible token repo_full_name min_lines max_lines quality_threshold
    items : forall results w,
  forallb (admissible min_lines max_lines quality_threshold) results = true ->
  forallb (admissible min_lines max_lines quality_threshold)
    (walk_items R decode_content token repo_full_name min_lines max_lines
       quality_threshold items results w).1.2 = true.
Proof.
  induction items as [|item items IH]; intros results w Hok; cbn [walk_items];
    [exact Hok|].
  pose proof (walk_item_step token repo_full_name min_lines max_lines
                quality_threshold item results w) as [_ Hres].
  cbn zeta in Hres.
  destruct (walk_item R decode_content token repo_full_name min_lines max_lines
              quality_threshold item results w) as [w1 [results1|e]];
    cbn [fst snd] in *; [|exact Hok].
  apply IH. destruct (Hres results1 eq_refl) as [->|(c & _ & -> & Hadm)]; [exact Hok|].
  rewrite forallb_app, Hok. cbn [forallb]. now rewrite Hadm.
Qed.

(** The tree request and the loop yield admissible candidates only. *)
Lemma walk_tree_results token repo_full_name min_lines max_lines quality_threshold
    default_branch w :
  forallb (admissible min_lines max_lines quality_threshold)
    (walk_tree R decode_content token repo_full_name min_lines max_lines
       quality_threshold default_branch w).1.2 = true.
Proof.
  unfold walk_tree.
  destruct (github_get R _ _ w) as [w1 [tree_data|e]]; [|reflexivity].
  destruct (py_in "tree" tree_data) as [[|]|]; try reflexivity.
  destruct (rbind (py_getitem tree_data "tree") py_iter) as [items|]; [|reflexivity].
  now apply walk_items_admissible.
Qed.

(** X13.  [find_python_files] never raises [GitHubAPIError].  Every
    candidate it returns has a path that ends in [.py] and is not excluded, a
    line count within [min_lines] and [max_lines] and a ratio that reaches
    the threshold; so it returns no candidate when [max_lines < min_lines].
    When the repository cannot be fetched, or its tree cannot, it returns
    the empty list after the three attempts of that request. *)
Theorem find_python_files_outcome token repo_full_name min_lines max_lines
    quality_threshold w :
  let out := find_python_files R decode_content token repo_full_name min_lines
               max_lines quality_threshold w in
  (forall u a c, out.2 <> Raise (GitHubAPIError u a c))
  /\ (forall results, out.2 = Ok results ->
        forallb (admissible min_lines max_lines quality_threshold) results = true
        /\ (max_lines < min_lines -> results = []))
  /\ ((forall j, (j < 3)%nat ->
         exists e, respond R (calls w + j)%nat
                     (HttpGet (repo_url_of repo_full_name) (headers_of token) None)
                   = RequestException e) ->
      out.2 = Ok [] /\ calls out.1 = (calls w + 3)%nat)
  /\ (forall w1 d default_branch,
        github_get R (repo_url_of repo_full_name) (headers_of token) w = (w1, Ok (JDict d)) ->
        dict_get "default_branch" d = Some default_branch ->
        (forall j, (j < 3)%nat ->
           exists e, respond R (calls w1 + j)%nat
                       (HttpGet (tree_url repo_full_name default_branch)
                          (headers_of token) None)
                     = RequestException e) ->
        out.2 = Ok [] /\ calls out.1 = (calls w1 + 3)%nat).
Proof.
  intros out.
  assert (forall results, out.2 = Ok results ->
            forallb (admissible min_lines max_lines quality_threshold) results = true)
    as Hadm.
  { subst out. unfold find_python_files.
    destruct (github_get R _ _ w) as [w1 [repo_info|e]].
    - destruct (if is_dict repo_info then py_in "default_branch" repo_info else Ok false)
        as [[|]|]; try discriminate.
      + destruct (py_getitem repo_info "default_branch") as [default_branch|];
          [|discriminate].
        pose proof (walk_tree_results token repo_full_name min_lines max_lines
                      quality_threshold default_branch w1) as Hok.
        destruct (walk_tree R decode_content token repo_full_name min_lines max_lines
                    quality_threshold default_branch w1) as [[w2 results] [e|]];
          cbn [fst snd] in Hok.
        * destruct e; try discriminate. intros results1 [= <-]. exact Hok.
        * intros results1 [= <-]. exact Hok.
      + intros results [= <-]. reflexivity.
    - destruct e; try discriminate. intros results [= <-]. reflexivity. }
  split_and!.
  - subst out. unfold find_python_files.
    destruct (github_get R _ _ w) as [w1 [repo_info|e]] eqn:Hget.
    + destruct (if is_dict repo_info then py_in "default_branch" repo_info else Ok false)
        as [[|]|e] eqn:Hin; try discriminate.
      * destruct (py_getitem repo_info "default_branch") as [default_branch|e] eqn:Hb.
        -- destruct (walk_tree R decode_content token repo_full_name min_lines max_lines
                       quality_threshold default_branch w1) as [[w2 results] [e|]];
             [destruct e|]; discriminate.
        -- destruct repo_info; try discriminate. cbn in Hb.
           destruct (dict_get "default_branch" d); inversion Hb. discriminate.
      * destruct repo_info; try discriminate.
    + apply RequestExecutor.github_get_raises in Hget as [cause ->]. discriminate.
  - intros results Hres. split; [exact (Hadm results Hres)|].
    intros Hlt. specialize (Hadm results Hres).
    destruct results as [|c results]; [reflexivity|].
    cbn [forallb] in Hadm. apply andb_true_iff in Hadm as [Hc _].
    unfold admissible in Hc.
    repeat (apply andb_true_iff in Hc as [Hc ?]). lia.
  - intros Hfail. subst out. unfold find_python_files, github_get.
    destruct (RequestExecutor.make_github_request_exhausted R
                (repo_url_of repo_full_name) (headers_of token) None "GET" None
                _ w eq_refl Hfail) as (w1 & cause & -> & Hcalls).
    split; [reflexivity|exact Hcalls].
  - intros w1 d default_branch Hget Hd Hfail. subst out.
    unfold find_python_files. rewrite Hget. cbn [is_dict py_in py_getitem].
    rewrite Hd. rewrite bool_decide_eq_true_2 by eauto.
    unfold walk_tree, github_get.
    destruct (RequestExecutor.make_github_request_exhausted R
                (tree_url repo_full_name default_branch) (headers_of token) None
                "GET" None _ w1 eq_refl Hfail) as (w2 & cause & -> & Hcalls).
    split; [reflexivity|exact Hcalls].
Qed.

End Facts.

Lemma excluded_below_witness : excluded ("tests/" +:+ "unit/test_x.py") = true.
Proof. apply (excluded_below "tests/" "unit/test_x.py"). reflexivity. Defined.

(** A repository that cannot be reached, and one whose tree cannot: no
    candidate, and no exception. *)
Example find_python_files_unreachable :
  (find_python_files (failing_first 3 JNull) decode_ascii "t" "o/r" 1 100 fzero world0).2
    = Ok []
  /\ (let R := {| respond := fun _ c =>
                      match c with
                      | HttpGet url _ _ =>
                          if String.eqb url (repo_url_of "o/r") then Response main_branch
                          else unreachable
                      | HttpPost _ _ _ => unreachable
                      end;
                    clock := fun _ => 0; localtime := Some;
                    monotonic := fun _ => 0 |} in
      find_python_files R decode_ascii "t" "o/r" 1 100 fzero world0
      = ({| calls := 4; slept := [PyInt 5; PyInt 10];
            logged := [(WARNING, retry_msg); (WARNING, retry_msg); (ERROR, failed_msg);
                       (ERROR, "Error during file search in {repo_full_name}: {e}")];
            ticks := 0 |}, Ok [])).
Proof. split; reflexivity. Qed.

End WalkResults.

(* ===================================================================== *)
(** * Properties of the data of earlier runs *)
(* ===================================================================== *)

Module ExistingData.

Import Vocabulary.

Import Orch Existing.

Lemma add_pair_union a b E :
  add_pair a b E = rbind (add_pair a b ∅) (fun s => Ok (s ∪ E)).
Proof.
  unfold add_pair. destruct (unhashable a), (unhashable b); try reflexivity.
  cbn [rbind]. f_equal.
  destruct a; try (now rewrite union_empty_l_L).
  destruct b; try (now rewrite union_empty_l_L).
  now rewrite union_empty_r_L.
Qed.

Lemma load_item_union item E :
  load_item item E = rbind (load_item item ∅) (fun s => Ok (s ∪ E)).
Proof.
  unfold load_item.
  destruct (v_in "repo_url" item) as [[|]|]; cbn [rbind];
    try (now rewrite ?union_empty_l_L).
  destruct (v_in "python_file" item) as [[|]|]; cbn [rbind];
    try (now rewrite ?union_empty_l_L).
  destruct (v_getitem item "repo_url") as [a|]; cbn [rbind]; [|reflexivity].
  destruct (v_getitem item "python_file") as [b|]; cbn [rbind]; [|reflexivity].
  apply add_pair_union.
Qed.

(** What one item does: it is passed exactly when it is [item_ok], and then
    it adds its key, if it has one; otherwise [TypeError] is raised. *)
Lemma load_item_spec item E :
  (item_ok item = true ->
   load_item item E = Ok (match item_key item with Some k => {[ k ]} ∪ E | None => E end))
  /\ (item_ok item = false -> exists msg, load_item item E = Raise (TypeError msg)).
Proof.
  unfold load_item, item_ok, item_key.
  destruct item as [| | | |s|l|d]; cbn [v_in rbind];
    try (split; [discriminate|eauto]).
  - destruct (substringb "repo_url" s); cbn [rbind andb negb];
      [|split; [reflexivity|discriminate]].
    destruct (substringb "python_file" s); cbn [rbind andb negb v_getitem];
      split; try reflexivity; try discriminate; eauto.
  - destruct (existsb (v_is_str "repo_url") l); cbn [rbind andb negb];
      [|split; [reflexivity|discriminate]].
    destruct (existsb (v_is_str "python_file") l); cbn [rbind andb negb v_getitem];
      split; try reflexivity; try discriminate; eauto.
  - cbn [v_getitem].
    destruct (v_get "repo_url" d) as [a|] eqn:Ha.
    2:{ rewrite (bool_decide_eq_false_2 (is_Some (@None value)))
          by (intros [? ?]; discriminate).
        cbn [rbind]. split; [reflexivity|discriminate]. }
    rewrite (bool_decide_eq_true_2 (is_Some (Some a))) by eauto. cbn [rbind].
    destruct (v_get "python_file" d) as [b|] eqn:Hb.
    2:{ rewrite (bool_decide_eq_false_2 (is_Some (@None value)))
          by (intros [? ?]; discriminate).
        cbn [rbind]. split; [intros _; now destruct a|discriminate]. }
    rewrite (bool_decide_eq_true_2 (is_Some (Some b))) by eauto. cbn [rbind].
    unfold add_pair.
    destruct (unhashable a) as [ta|] eqn:Hua.
    { rewrite bool_decide_eq_false_2 by discriminate. cbn [andb].
      split; [discriminate|eauto]. }
    rewrite bool_decide_eq_true_2 by reflexivity. cbn [andb].
    destruct (unhashable b) as [tb|] eqn:Hub.
    { rewrite bool_decide_eq_false_2 by discriminate.
      split; [discriminate|eauto]. }
    rewrite bool_decide_eq_true_2 by reflexivity.
    split; [|discriminate]. intros _. f_equal.
    destruct a; try reflexivity. destruct b; reflexivity.
Qed.

Lemma load_items_ok items : forall E,
  forallb item_ok items = true ->
  load_items items E = Ok (list_to_set (omap item_key items) ∪ E).
Proof.
  induction items as [|item items IH]; intros E Hok; cbn [load_items].
  - cbn. now rewrite union_empty_l_L.
  - cbn [forallb] in Hok. apply andb_true_iff in Hok as [Hitem Hitems].
    destruct (load_item_spec item E) as [Hspec _]. rewrite (Hspec Hitem).
    cbn [rbind]. rewrite (IH _ Hitems). f_equal.
    change (omap item_key (item :: items))
      with (match item_key item with
            | Some k => k :: omap item_key items
            | None => omap item_key items
            end).
    destruct (item_key item) as [k|]; [|reflexivity].
    rewrite list_to_set_cons, (assoc_L (∪)).
    now rewrite (comm_L (∪) (list_to_set (omap item_key items)) {[k]}).
Qed.

Lemma load_items_raises items : forall E,
  forallb item_ok items = false ->
  exists msg, load_items items E = Raise (TypeError msg).
Proof.
  induction items as [|item items IH]; intros E Hbad; [discriminate|].
  cbn [forallb] in Hbad. cbn [load_items].
  destruct (item_ok item) eqn:Hitem.
  - destruct (load_item_spec item E) as [Hspec _]. rewrite (Hspec Hitem).
    cbn [rbind]. apply IH. exact Hbad.
  - destruct (load_item_spec item E) as [_ Hspec].
    destruct (Hspec Hitem) as [msg ->]. eauto.
Qed.

Lemma logged_more_nil w : logged_more w [] = w.
Proof. destruct w. unfold logged_more. cbn. now rewrite app_nil_r. Qed.

Lemma logged_more_app w l1 l2 :
  logged_more (logged_more w l1) l2 = logged_more w (l1 ++ l2).
Proof. unfold logged_more. cbn. now rewrite app_assoc. Qed.

Lemma load_file_ok filename f E w :
  file_ok filename f = true ->
  load_file filename f E w =
    (logged_more w (file_warnings filename f),
     Yields (list_to_set (file_keys filename f) ∪ E)).
Proof.
  unfold file_ok, load_file, file_warnings, file_keys, items_of.
  destruct (endswith filename ".json"); cbn [negb orb].
  2:{ intros _. rewrite logged_more_nil. cbn. now rewrite union_empty_l_L. }
  intros [Hitems Hf]%andb_true_iff.
  destruct f as [data|e msg].
  - destruct data as [| | | | |items|];
      try (rewrite logged_more_nil; cbn; now rewrite union_empty_l_L).
    rewrite (load_items_ok items E Hitems). now rewrite logged_more_nil.
  - rewrite Hf. cbn. now rewrite union_empty_l_L.
Qed.

Lemma load_file_raises filename f E w :
  file_ok filename f = false ->
  exists r, load_file filename f E w = (w, Throws r).
Proof.
  unfold file_ok, load_file, items_of.
  destruct (endswith filename ".json"); cbn [negb orb]; [|discriminate].
  destruct f as [data|e msg].
  - rewrite andb_true_r. destruct data as [| | | | |items|]; try discriminate.
    intros Hbad. destruct (load_items_raises items E Hbad) as [msg ->]. eauto.
  - cbn [forallb andb]. intros ->. eauto.
Qed.

Lemma load_files_ok d : forall E w,
  forallb (fun nf => file_ok nf.1 nf.2) d = true ->
  load_files d E w =
    (logged_more w (flat_map (fun nf => file_warnings nf.1 nf.2) d),
     Yields (list_to_set (flat_map (fun nf => file_keys nf.1 nf.2) d) ∪ E)).
Proof.
  induction d as [|[filename f] d IH]; intros E w Hok; cbn [load_files flat_map].
  - rewrite logged_more_nil. cbn. now rewrite union_empty_l_L.
  - cbn [forallb fst snd] in Hok. apply andb_true_iff in Hok as [Hf Hd].
    rewrite (load_file_ok filename f E w Hf), (IH _ _ Hd).
    rewrite logged_more_app. f_equal. f_equal. cbn [fst snd].
    rewrite list_to_set_app_L, (assoc_L (∪)).
    now rewrite (comm_L (∪) (list_to_set (flat_map _ d))).
Qed.

Lemma load_files_raises d : forall E w,
  forallb (fun nf => file_ok nf.1 nf.2) d = false ->
  exists w1 r, load_files d E w = (w1, Throws r).
Proof.
  induction d as [|[filename f] d IH]; intros E w Hbad; [discriminate|].
  cbn [forallb fst snd] in Hbad. cbn [load_files].
  destruct (file_ok filename f) eqn:Hf.
  - rewrite (load_file_ok filename f E w Hf). apply IH. exact Hbad.
  - destruct (load_file_raises filename f E w Hf) as [r ->]. eauto.
Qed.

Lemma file_keys_dumped filename rs :
  endswith filename ".json" = true ->
  file_keys filename (Parsed (dumped rs)) = map key_of rs
  /\ file_ok filename (Parsed (dumped rs)) = true.
Proof.
  intros Hname. unfold file_keys, file_ok, items_of, dumped. rewrite Hname.
  cbn [negb orb]. rewrite andb_true_r.
  induction rs as [|r rs [IH1 IH2]]; [split; reflexivity|].
  split.
  - cbn [map]. change (omap item_key (record_value r :: map record_value rs))
      with (key_of r :: omap item_key (map record_value rs)).
    now rewrite IH1.
  - cbn [map forallb]. rewrite IH2. reflexivity.
Qed.

(** X14.  [load_existing_data] returns exactly when it gets past every
    file ([file_ok]).  It then returns the pairs of strings found at
    [repo_url] and [python_file] in the dictionaries of the lists held by the
    files whose name ends in [.json], and has logged one warning for every
    such file that is not JSON or has vanished; files of another name, and
    JSON files that hold no list, add nothing.  Otherwise it raises: so it
    does whenever a list of a [.json] file holds a number, a boolean or
    [null]. *)
Theorem load_existing_data_outcome (d : directory) (w : world) :
  let out := load_existing_data d w in
  let all_ok := forallb (fun nf => file_ok nf.1 nf.2) d in
  (all_ok = true ->
     out = (logged_more w (flat_map (fun nf => file_warnings nf.1 nf.2) d),
            Yields (list_to_set (flat_map (fun nf => file_keys nf.1 nf.2) d))))
  /\ (all_ok = false -> exists r, out.2 = Throws r)
  /\ (forall filename items item,
        (filename, Parsed (VList items)) ∈ d -> endswith filename ".json" = true ->
        item ∈ items -> v_scalar item = true ->
        exists r, out.2 = Throws r).
Proof.
  intros out all_ok. subst out all_ok. unfold load_existing_data.
  assert (forallb (fun nf => file_ok nf.1 nf.2) d = false ->
          exists r, (load_files d ∅ w).2 = Throws r) as Hbad.
  { intros H. destruct (load_files_raises d ∅ w H) as (w1 & r & ->). eauto. }
  split_and!.
  - intros Hok. rewrite (load_files_ok d ∅ w Hok). now rewrite union_empty_r_L.
  - exact Hbad.
  - intros filename items item Hin Hname Hitem Hscalar. apply Hbad.
    apply not_true_iff_false. intros Hall.
    rewrite forallb_forall in Hall.
    apply list_elem_of_In, Hall in Hin. cbn [fst snd] in Hin.
    unfold file_ok, items_of in Hin. rewrite Hname in Hin.
    apply andb_true_iff in Hin as [Hitems _].
    rewrite forallb_forall in Hitems.
    apply list_elem_of_In, Hitems in Hitem.
    destruct item; discriminate.
Qed.

(** X15.  What an earlier run wrote is recognised: when
    [load_existing_data] returns, the key of every record of a [.json] file
    written by [main] is in the set returned, whatever else the directory
    holds. *)
Theorem previous_output_recognised (d : directory) (w w1 : world) (E : gset key)
    (filename : string) (all_results : list record) (r : record) :
  load_existing_data d w = (w1, Yields E) ->
  (filename, Parsed (dumped all_results)) ∈ d ->
  endswith filename ".json" = true ->
  r ∈ all_results ->
  key_of r ∈ E.
Proof.
  intros Hload Hin Hname Hr.
  destruct (forallb (fun nf => file_ok nf.1 nf.2) d) eqn:Hok.
  2:{ destruct (load_files_raises d ∅ w Hok) as (w2 & r2 & H).
      unfold load_existing_data in Hload. congruence. }
  unfold load_existing_data in Hload. rewrite (load_files_ok d ∅ w Hok) in Hload.
  inversion Hload as [[Hw HE]]. apply elem_of_union. left.
  apply elem_of_list_to_set. apply list_elem_of_In, in_flat_map.
  exists (filename, Parsed (dumped all_results)). split; [now apply list_elem_of_In|].
  cbn [fst snd]. destruct (file_keys_dumped filename all_results Hname) as [-> _].
  apply list_elem_of_In, list_elem_of_fmap. eauto.
Qed.

(** X16.  The order in which [os.listdir] lists the files does not matter:
    with the files listed in another order the function returns the same
    set, or raises as well. *)
Theorem listing_order_irrelevant (d d' : directory) (w : world) :
  d ≡ₚ d' ->
  match (load_existing_data d w).2 with
  | Yields E => (load_existing_data d' w).2 = Yields E
  | Throws _ => exists r, (load_existing_data d' w).2 = Throws r
  end.
Proof.
  intros Hperm. unfold load_existing_data.
  assert (forallb (fun nf => file_ok nf.1 nf.2) d'
          = forallb (fun nf => file_ok nf.1 nf.2) d) as Hsame.
  { apply eq_true_iff_eq. rewrite !forallb_forall. split; intros H x Hx; apply H.
    - eapply Permutation_in; [|exact Hx]. exact Hperm.
    - eapply Permutation_in; [|exact Hx]. symmetry. exact Hperm. }
  destruct (forallb (fun nf => file_ok nf.1 nf.2) d) eqn:Hok.
  - rewrite (load_files_ok d ∅ w Hok), (load_files_ok d' ∅ w Hsame). cbn [snd].
    f_equal. f_equal. apply list_to_set_perm_L.
    apply Permutation_flat_map. now symmetry.
  - destruct (load_files_raises d ∅ w Hok) as (w1 & r & ->). cbn [snd].
    destruct (load_files_raises d' ∅ w Hsame) as (w2 & r2 & ->). eauto.
Qed.

(** The theorem at a directory that holds the output of an earlier run, a
    file that is no JSON and a truncated JSON file. *)
Lemma previous_output_recognised_witness :
  let r := {| repo_url := "u"; python_file := "a.py"; num_lines := 3;
              comment_ratio := fzero |} in
  let d := [("notes.txt", Fails UnicodeDecodeError "invalid start byte");
            ("old.json", Parsed (dumped [r]));
            ("cut.json", Fails JSONDecodeError "Expecting value")] in
  exists w1 E, load_existing_data d world0 = (w1, Yields E) /\ ("u", "a.py") ∈ E.
Proof.
  intros r d. eexists _, _. split; [reflexivity|].
  eapply (previous_output_recognised d world0) with (filename := "old.json")
                                                      (all_results := [r]) (r := r).
  - reflexivity.
  - apply list_elem_of_further, list_elem_of_here.
  - reflexivity.
  - apply list_elem_of_here.
Defined.

(** The theorem at two files listed in either order. *)
Lemma listing_order_irrelevant_witness :
  let f1 := ("one.json", Parsed (VList [VDict [("repo_url", VStr "u");
                                               ("python_file", VStr "a.py")]])) in
  let f2 := ("two.json", Parsed (VList [VDict [("repo_url", VStr "v");
                                               ("python_file", VStr "b.py")]])) in
  exists E, (load_existing_data [f1; f2] world0).2 = Yields E
            /\ (load_existing_data [f2; f1] world0).2 = Yields E.
Proof.
  intros f1 f2. eexists. split; [reflexivity|].
  exact (listing_order_irrelevant [f1; f2] [f2; f1] world0 (perm_swap f2 f1 [])).
Defined.

End ExistingData.

(* ===================================================================== *)
(** * Progress of the worker pool *)
(* ===================================================================== *)

Module PoolProgress.

Import Vocabulary.
Import Orch DedupCoordinator Orchestrator.

(** ** The owner of the lock *)

Lemma owned_submit E jobs : owned (submit E jobs).
Proof. intros i H. discriminate. Qed.

Lemma owned_exec s a : owned s -> owned (exec s a).
Proof.
  intros Hown. destruct a as [i|i]; cbn [exec].
  - unfold process_repository.
    destruct (threads s !! i) as [t|] eqn:Hi; [|exact Hown].
    assert (forall t1,
              holds_lock (at_pc t) = false \/ holds_lock (at_pc t1) = true ->
              owned (update s (processed_files s) (processed_files_lock s) i t1)) as Hkeep.
    { intros t1 Hpc j Hj. cbn [update processed_files_lock threads] in *.
      destruct (Hown j Hj) as (tj & Htj & Hh).
      destruct (decide (i = j)) as [<-|Hne].
      - exists t1. split; [apply list_lookup_insert_eq; eapply lookup_lt_Some; eassumption|].
        rewrite Hi in Htj. inversion Htj; subst tj.
        destruct Hpc as [Hpc|Hpc]; [congruence|exact Hpc].
      - exists tj. split; [|exact Hh]. now rewrite list_lookup_insert_ne. }
    destruct (at_pc t) as [|c|c|c|c| | |e|] eqn:Hpc; try exact Hown.
    + destruct (python_files t !! position t) as [c|].
      * destruct (decide (candidate_key (html_url t) c ∈ initial_existing_data t));
          apply Hkeep; now left.
      * apply Hkeep. now left.
    + destruct (processed_files_lock s) eqn:Hl; [exact Hown|].
      intros j [= <-]. cbn [update threads]. exists (goto t (AtTest c)).
      split; [|reflexivity].
      apply list_lookup_insert_eq. eapply lookup_lt_Some; eassumption.
    + destruct (decide (candidate_key (html_url t) c ∈ processed_files s));
        apply Hkeep; now right.
    + apply Hkeep. now right.
    + intros j Hj. cbn [update processed_files_lock threads] in *.
      destruct (Hown j Hj) as (tj & Htj & Hh).
      destruct (decide (i = j)) as [<-|Hne].
      * exists (goto t AtExit).
        split; [apply list_lookup_insert_eq; eapply lookup_lt_Some; eassumption|].
        reflexivity.
      * exists tj. split; [|exact Hh]. now rewrite list_lookup_insert_ne.
    + intros j Hj. discriminate.
  - unfold join. destruct (threads s !! i) as [t|] eqn:Hi; [|exact Hown].
    assert (holds_lock (at_pc t) = false ->
            forall final,
              threads final = <[i := goto t Joined]> (threads s) ->
              processed_files_lock final = processed_files_lock s ->
              owned final) as Hkeep.
    { intros Hpc final Hth Hlk j Hj. rewrite Hlk in Hj. rewrite Hth.
      destruct (Hown j Hj) as (tj & Htj & Hh).
      destruct (decide (i = j)) as [<-|Hne]; [congruence|].
      exists tj. split; [|exact Hh]. now rewrite list_lookup_insert_ne. }
    destruct (at_pc t) as [|c|c|c|c| | |e|] eqn:Hpc; try exact Hown;
      apply Hkeep; reflexivity.
Qed.

Lemma owned_run schedule : forall s, owned s -> owned (run schedule s).
Proof.
  induction schedule as [|a schedule IH]; intros s H; [exact H|].
  cbn [run fold_left]. apply IH. now apply owned_exec.
Qed.

(** ** The work that is left *)

Lemma tstep_steps_left set t set1 t1 :
  tstep set t set1 t1 -> (steps_left t1 < steps_left t)%nat.
Proof.
  intros H. unfold steps_left.
  destruct H as [Hpc Hnone|c Hpc Hc Hin|c Hpc Hc Hout|c Hpc|c Hpc Hin|c Hpc Hout
                 |c Hpc|c Hpc|Hpc]; rewrite Hpc; cbn [goto advance append at_pc
                                                        python_files position rank];
    try lia.
  - apply lookup_lt_Some in Hc. lia.
  - apply lookup_lt_Some in Hc. lia.
Qed.

Lemma sum_list_insert_lt (f : thread -> nat) (l : list thread) i t t1 :
  l !! i = Some t -> (f t1 < f t)%nat ->
  (foldr (fun t n => f t + n) 0 (<[i := t1]> l) < foldr (fun t n => f t + n) 0 l)%nat.
Proof.
  revert i. induction l as [|x l IH]; intros i Hi Hlt; [discriminate|].
  destruct i as [|i]; cbn in *.
  - inversion Hi; subst x. now apply Nat.add_lt_mono_r.
  - apply Nat.add_lt_mono_l. exact (IH i Hi Hlt).
Qed.

Lemma work_left_exec s a : (work_left (exec s a) <= work_left s)%nat.
Proof.
  unfold work_left. destruct a as [i|i]; cbn [exec].
  - destruct (process_repository_tstep i s) as [->|(t & t1 & Hi & Hstep & Hth & _)]; [lia|].
    rewrite Hth. apply tstep_steps_left in Hstep.
    pose proof (sum_list_insert_lt steps_left _ i t t1 Hi Hstep). lia.
  - unfold join. destruct (threads s !! i) as [t|] eqn:Hi; [|lia].
    destruct (at_pc t) eqn:Hpc; try lia; cbn [threads];
      (assert (steps_left (goto t Joined) < steps_left t)%nat as Hlt
         by (unfold steps_left; cbn; rewrite Hpc; cbn; lia));
      pose proof (sum_list_insert_lt steps_left _ i t _ Hi Hlt); lia.
Qed.

Lemma work_left_run schedule : forall s, (work_left (run schedule s) <= work_left s)%nat.
Proof.
  induction schedule as [|a schedule IH]; intros s; [reflexivity|].
  cbn [run fold_left]. etrans; [apply IH|apply work_left_exec].
Qed.

(** A thread that is not waiting for the lock can move. *)
Lemma process_repository_moves i s t :
  threads s !! i = Some t ->
  (forall c, at_pc t = AtWith c -> processed_files_lock s = None) ->
  at_pc t <> Returned -> (forall e, at_pc t <> Crashed e) -> at_pc t <> Joined ->
  (work_left (process_repository i s) < work_left s)%nat.
Proof.
  intros Hi Hfree Hr Hc Hj.
  assert (exists t1, tstep (processed_files s) t
                       (processed_files (process_repository i s)) t1
                     /\ threads (process_repository i s) = <[i := t1]> (threads s))
    as (t1 & Hstep & Hth).
  { unfold process_repository. rewrite Hi.
    destruct (at_pc t) as [|c|c|c|c| | |e|] eqn:Hpc; try congruence.
    - destruct (python_files t !! position t) as [c|] eqn:Hf.
      + destruct (decide (candidate_key (html_url t) c ∈ initial_existing_data t)).
        * eexists. split; [eapply ts_skip; eassumption|reflexivity].
        * eexists. split; [eapply ts_take; eassumption|reflexivity].
      + eexists. split; [now apply ts_end|reflexivity].
    - rewrite (Hfree c eq_refl). eexists. split; [eapply ts_acquire; eassumption|reflexivity].
    - destruct (decide (candidate_key (html_url t) c ∈ processed_files s)).
      + eexists. split; [eapply ts_seen; eassumption|reflexivity].
      + eexists. split; [eapply ts_unseen; eassumption|reflexivity].
    - eexists. split; [eapply ts_append; eassumption|reflexivity].
    - eexists. split; [eapply ts_add; eassumption|reflexivity].
    - eexists. split; [now apply ts_release|reflexivity]. }
  unfold work_left. rewrite Hth. apply tstep_steps_left in Hstep.
  exact (sum_list_insert_lt steps_left _ i t t1 Hi Hstep).
Qed.

Lemma join_moves i s t :
  threads s !! i = Some t ->
  at_pc t = Returned \/ (exists e, at_pc t = Crashed e) ->
  (work_left (join i s) < work_left s)%nat.
Proof.
  intros Hi Hpc. unfold work_left, join. rewrite Hi.
  assert (steps_left (goto t Joined) < steps_left t)%nat as Hlt.
  { unfold steps_left. cbn. destruct Hpc as [->|[e ->]]; cbn; lia. }
  destruct Hpc as [Hpc|[e Hpc]]; rewrite Hpc; cbn [threads];
    exact (sum_list_insert_lt steps_left _ i t _ Hi Hlt).
Qed.

(** While a future is not taken, some action makes progress. *)
Lemma progress s :
  owned s -> all_joined s = false ->
  exists a, (work_left (exec s a) < work_left s)%nat.
Proof.
  intros Hown Hnot.
  destruct (processed_files_lock s) as [j|] eqn:Hl.
  - destruct (Hown j Hl) as (t & Hj & Hh).
    exists (Work j). cbn [exec]. apply (process_repository_moves j s t Hj).
    + intros c Hpc. rewrite Hpc in Hh. discriminate.
    + intros Hpc. rewrite Hpc in Hh. discriminate.
    + intros e Hpc. rewrite Hpc in Hh. discriminate.
    + intros Hpc. rewrite Hpc in Hh. discriminate.
  - unfold all_joined in Hnot.
    assert (exists i t, threads s !! i = Some t /\ joined t = false) as (i & t & Hi & Ht).
    { induction (threads s) as [|x l IH]; [discriminate|].
      cbn [forallb] in Hnot. destruct (joined x) eqn:Hx.
      - destruct (IH Hnot) as (i & t & Hi & Ht). exists (S i), t. auto.
      - exists 0%nat, x. auto. }
    destruct (at_pc t) as [|c|c|c|c| | |e|] eqn:Hpc;
      try (exists (Work i); cbn [exec];
           apply (process_repository_moves i s t Hi);
           [intros; exact Hl | congruence | congruence | congruence]).
    + exists (Join i). cbn [exec]. apply (join_moves i s t Hi). now left.
    + exists (Join i). cbn [exec]. apply (join_moves i s t Hi). right. eauto.
    + unfold joined in Ht. rewrite Hpc in Ht. discriminate.
Qed.

Lemma can_complete : forall (n : nat) s,
  owned s -> (work_left s <= n)%nat ->
  exists rest, all_joined (run rest s) = true /\ (length rest <= n)%nat.
Proof.
  induction n as [|n IH]; intros s Hown Hn.
  - destruct (all_joined s) eqn:Hdone.
    + exists []. split; [exact Hdone|cbn; lia].
    + destruct (progress s Hown Hdone) as [a Ha]. lia.
  - destruct (all_joined s) eqn:Hdone.
    + exists []. split; [exact Hdone|cbn; lia].
    + destruct (progress s Hown Hdone) as [a Ha].
      destruct (IH (exec s a) (owned_exec s a Hown) ltac:(lia)) as (rest & Hrest & Hlen).
      exists (a :: rest). split; [exact Hrest|cbn; lia].
Qed.

Lemma steps_left_start E j :
  (steps_left (start E j) <= 6 * length (job_keys j) + 2)%nat.
Proof.
  unfold steps_left, start, job_keys. cbn. rewrite length_map.
  destruct j.2; cbn; lia.
Qed.

Lemma work_left_submit E jobs :
  (work_left (submit E jobs) <= 6 * length (candidates jobs) + 2 * length jobs)%nat.
Proof.
  unfold work_left, submit, candidates. cbn [threads].
  induction jobs as [|j jobs IH]; [cbn; lia|].
  cbn [map foldr concat length]. rewrite length_app.
  pose proof (steps_left_start E j). lia.
Qed.

(** X17.  The workers cannot block each other for good.  After any
    interleaving of their steps the run can be completed: there are further
    actions after which every future has been taken, at most six per
    candidate and two per repository. *)
Theorem run_can_complete (E : gset key) (jobs : list job) (schedule : list action) :
  exists rest,
    all_joined (run (schedule ++ rest) (submit E jobs)) = true
    /\ (length rest <= 6 * length (candidates jobs) + 2 * length jobs)%nat.
Proof.
  pose proof (owned_run schedule _ (owned_submit E jobs)) as Hown.
  pose proof (work_left_run schedule (submit E jobs)) as Hle.
  pose proof (work_left_submit E jobs) as Hsub.
  destruct (can_complete (6 * length (candidates jobs) + 2 * length jobs)
              (run schedule (submit E jobs)) Hown ltac:(lia)) as (rest & Hdone & Hlen).
  exists rest. split; [|exact Hlen].
  unfold run in *. now rewrite fold_left_app.
Qed.

End PoolProgress.

(* ===================================================================== *)
(** * What main collects *)
(* ===================================================================== *)

Module Aggregation.

Import Vocabulary.
Import Orch DedupCoordinator Orchestrator.

Lemma map_insert_same {B} (g : thread -> B) (l : list thread) i t t1 :
  l !! i = Some t -> g t1 = g t -> map g (<[i := t1]> l) = map g l.
Proof.
  intros Hi Heq. change (map g) with (fmap (M:=list) g).
  rewrite list_fmap_insert, Heq.
  apply list_insert_id. now rewrite list_lookup_fmap, Hi.
Qed.

Lemma sumZ_insert (g : thread -> Z) (l : list thread) i t t1 :
  l !! i = Some t ->
  sumZ (map g (<[i := t1]> l)) = sumZ (map g l) - g t + g t1.
Proof.
  unfold sumZ. revert i. induction l as [|x l IH]; intros i Hi; [discriminate|].
  destruct i as [|i]; cbn in Hi.
  - inversion Hi; subst x. change (<[0%nat := t1]> (t :: l)) with (t1 :: l).
    cbn [map foldr]. lia.
  - change (<[S i := t1]> (x :: l)) with (x :: <[i := t1]> l).
    cbn [map foldr]. rewrite (IH i Hi). lia.
Qed.

Lemma tstep_not_crashed set t set1 t1 e : tstep set t set1 t1 -> at_pc t1 <> Crashed e.
Proof. intros H. inversion H; subst; cbn; discriminate. Qed.

Lemma collected_submit E jobs : collected (submit E jobs).
Proof.
  split; cbn [submit threads all_results total_skipped].
  - induction jobs as [|j jobs IH]; [reflexivity|].
    cbn [map concat]. unfold taken at 1, joined, start. cbn.
    destruct j.2; exact IH.
  - induction jobs as [|j jobs IH]; [reflexivity|].
    cbn [map sumZ foldr]. unfold counted at 1, joined, start. cbn.
    destruct j.2; exact IH.
  - intros i t e Hi _. change (map (start E)) with (fmap (M:=list) (start E)) in Hi.
    apply list_lookup_fmap_Some in Hi as (j & -> & _). split; reflexivity.
Qed.

Lemma collected_exec s a : collected s -> collected (exec s a).
Proof.
  intros [Hres Hskip Hcrash]. destruct a as [i|i]; cbn [exec].
  - destruct (process_repository_tstep i s)
      as [->|(t & t1 & Hi & Hstep & Hth & Hall & Htot)]; [now split|].
    pose proof (tstep_static _ _ _ _ Hstep) as (_ & _ & _ & Hj1 & Hj & _).
    split.
    + rewrite Hall, Hth, (map_insert_same taken _ i t t1 Hi); [exact Hres|].
      unfold taken. now rewrite Hj1, Hj.
    + rewrite Htot, Hth, (map_insert_same counted _ i t t1 Hi); [exact Hskip|].
      unfold counted. now rewrite Hj1, Hj.
    + intros j tj e Hjt Hpc. rewrite Hth in Hjt. updated Hjt.
      * exfalso. exact (tstep_not_crashed _ _ _ _ e Hstep Hpc).
      * eauto.
  - unfold join. destruct (threads s !! i) as [t|] eqn:Hi; [|now split].
    destruct (at_pc t) as [|c|c|c|c| | |e|] eqn:Hpc; try (now split).
    + (* a future that returned *)
      assert (taken t = []) as Ht by (unfold taken, joined; now rewrite Hpc).
      assert (counted t = 0) as Hc by (unfold counted, joined; now rewrite Hpc).
      split; cbn [threads all_results total_skipped].
      * rewrite (concat_map_insert_app taken _ i t (goto t Joined) (results t) Hi)
          by (now rewrite Ht).
        rewrite Hres. apply Permutation_app_comm.
      * rewrite (sumZ_insert counted _ i t _ Hi), Hc, Hskip.
        unfold counted, joined. cbn. lia.
      * intros j tj e Hjt Hpcj. updated Hjt; [discriminate|eauto].
    + (* a future that raised *)
      destruct (Hcrash i t e Hi Hpc) as [Hnone Hzero].
      split; cbn [threads all_results total_skipped].
      * rewrite (map_insert_same taken _ i t _ Hi); [exact Hres|].
        unfold taken, joined. cbn. rewrite Hpc. exact Hnone.
      * rewrite (map_insert_same counted _ i t _ Hi); [exact Hskip|].
        unfold counted, joined. cbn. rewrite Hpc. exact Hzero.
      * intros j tj e0 Hjt Hpcj. updated Hjt; [discriminate|eauto].
Qed.

Lemma collected_run schedule : forall s, collected s -> collected (run schedule s).
Proof.
  induction schedule as [|a schedule IH]; intros s H; [exact H|].
  cbn [run fold_left]. apply IH. now apply collected_exec.
Qed.

Lemma all_joined_taken l :
  forallb joined l = true ->
  map taken l = map results l /\ map counted l = map skipped_count l.
Proof.
  induction l as [|t l IH]; [split; reflexivity|].
  cbn [forallb map]. intros [Ht Hl]%andb_true_iff. destruct (IH Hl) as [-> ->].
  unfold taken, counted. rewrite Ht. split; reflexivity.
Qed.

(** X18.  [main] collects every record once.  At any point of a run
    [all_results] holds, in some order, the results of the futures taken so
    far and nothing else, and [total_skipped] is the sum of their skip
    counters; a future that raised has no result and no skip.  When all
    futures are taken, these are the results and the skip counters of all
    tasks. *)
Theorem main_collects_once (E : gset key) (jobs : list job) (schedule : list action) :
  let s := run schedule (submit E jobs) in
  all_results s ≡ₚ concat (map taken (threads s))
  /\ total_skipped s = sumZ (map counted (threads s))
  /\ (forall i t e, threads s !! i = Some t -> at_pc t = Crashed e ->
        results t = [] /\ skipped_count t = 0)
  /\ (all_joined s = true ->
        all_results s ≡ₚ concat (map results (threads s))
        /\ total_skipped s = sumZ (map skipped_count (threads s))).
Proof.
  intros s.
  pose proof (collected_run schedule _ (collected_submit E jobs)) as [Hres Hskip Hcrash].
  fold s in Hres, Hskip, Hcrash.
  split_and!; [exact Hres | exact Hskip | exact Hcrash |].
  intros Hdone. destruct (all_joined_taken (threads s) Hdone) as [Ht Hc].
  rewrite <- Ht, <- Hc. split; assumption.
Qed.

Lemma length_filter_map {A B} (f : A -> B) (P : B -> Prop) `{!forall b, Decision (P b)}
    (l : list A) :
  length (filter P (map f l)) = length (filter (fun a => P (f a)) l).
Proof.
  induction l as [|a l IH]; [reflexivity|].
  cbn [map]. rewrite !filter_cons. destruct (decide (P (f a))); cbn [length]; now rewrite IH.
Qed.

Lemma skipped_total (E : gset key) (l : list thread) :
  Forall (fun t => skipped_count t =
            Z.of_nat (length (filter (fun c => candidate_key (html_url t) c ∈ E)
                                (python_files t)))) l ->
  sumZ (map skipped_count l)
  = Z.of_nat (length (filter (fun k => k ∈ E) (concat (map task_keys l)))).
Proof.
  induction 1 as [|t l Ht Hl IH]; [reflexivity|].
  cbn [map sumZ foldr concat]. fold (sumZ (map skipped_count l)).
  rewrite IH, filter_app, length_app, Ht.
  change (task_keys t) with (map (candidate_key (html_url t)) (python_files t)).
  rewrite (length_filter_map (candidate_key (html_url t)) (fun k => k ∈ E)). lia.
Qed.

(** X19.  Three things about what a completed run puts out are the same
    under every interleaving.  The keys of its records are the keys of the
    candidates that are not in the snapshot, each once, so the number of
    records is the number of these keys; [total_skipped] is the number of
    candidates whose key is in the snapshot.  The records themselves are
    not fixed by this: which thread's line count a key gets that two threads
    hold, and the order of the records, follow the interleaving. *)
Theorem keys_and_totals_of_any_schedule (E : gset key) (jobs : list job)
    (schedule : list action) :
  let s := run schedule (submit E jobs) in
  all_joined s = true ->
  list_to_set (map key_of (all_results s)) = (list_to_set (candidates jobs) ∖ E : gset key)
  /\ length (all_results s) = size (list_to_set (candidates jobs) ∖ E : gset key)
  /\ total_skipped s = Z.of_nat (length (filter (fun k => k ∈ E) (candidates jobs))).
Proof.
  intros s Hdone.
  destruct (completed_run E jobs schedule Hdone) as (Hcover & Hfrom & Hnodup).
  fold s in Hcover, Hfrom, Hnodup.
  assert (list_to_set (map key_of (all_results s))
          = (list_to_set (candidates jobs) ∖ E : gset key)) as Hset.
  { apply set_eq. intros k.
    rewrite elem_of_difference, !elem_of_list_to_set. split.
    - intros Hk. now apply Hfrom.
    - intros [Hk Hnew]. destruct (Hcover k Hk) as [H|H]; [contradiction|exact H]. }
  split_and!.
  - exact Hset.
  - rewrite <- Hset, size_list_to_set by exact Hnodup. now rewrite length_map.
  - pose proof (collected_run schedule _ (collected_submit E jobs)) as [_ Hskip _].
    fold s in Hskip.
    destruct (all_joined_taken (threads s) Hdone) as [_ Hc]. rewrite Hc in Hskip.
    rewrite Hskip, <- (candidates_run E jobs schedule). fold s.
    apply skipped_total.
    pose proof (accounted_run E schedule _ (accounted_submit E jobs)) as [Hth _].
    fold s in Hth. apply Forall_lookup. intros i t Hi.
    pose proof (Hth i t Hi) as Hcov.
    rewrite (cov_skipped _ _ _ Hcov). rewrite take_ge; [reflexivity|].
    apply (cov_end _ _ _ Hcov). right. exact (all_joined_lookup s i t Hdone Hi).
Qed.

(** X20.  At any point of a run at most one thread is inside the [with]
    block, and the lock is held exactly when a thread is, by that thread.
    Every key of [processed_files] is the key of a record; a record whose key
    is not yet in [processed_files] was appended by the thread that holds
    the lock and is about to add the key.  When all futures are taken,
    [processed_files] holds exactly the keys of [all_results]. *)
Theorem lock_excludes (E : gset key) (jobs : list job) (schedule : list action) :
  let s := run schedule (submit E jobs) in
  (forall i j ti tj,
     threads s !! i = Some ti -> threads s !! j = Some tj ->
     holds_lock (at_pc ti) = true -> holds_lock (at_pc tj) = true -> i = j)
  /\ (forall i, processed_files_lock s = Some i <->
        exists t, threads s !! i = Some t /\ holds_lock (at_pc t) = true)
  /\ (forall k, k ∈ processed_files s -> k ∈ emitted s)
  /\ (forall k, k ∈ emitted s -> k ∉ processed_files s ->
        exists i t c, threads s !! i = Some t /\ at_pc t = AtAdd c
                      /\ k = candidate_key (html_url t) c
                      /\ processed_files_lock s = Some i)
  /\ (all_joined s = true ->
        processed_files s = list_to_set (map key_of (all_results s))).
Proof.
  intros s.
  pose proof (inv_run E schedule _ (inv_submit E jobs)) as Hinv.
  pose proof (PoolProgress.owned_run schedule _ (PoolProgress.owned_submit E jobs)) as Hown.
  fold s in Hinv, Hown.
  split_and!.
  - intros i j ti tj Hi Hj Hhi Hhj.
    apply (inv_lock E s Hinv i ti Hi) in Hhi. apply (inv_lock E s Hinv j tj Hj) in Hhj.
    congruence.
  - intros i. split.
    + apply Hown.
    + intros (t & Hi & Hh). now apply (inv_lock E s Hinv i t Hi).
  - intros k Hk. apply (inv_set E s Hinv). now left.
  - intros k Hk Hnot. apply (inv_set E s Hinv) in Hk as [Hk|(i & t & Hi & Ha)];
      [contradiction|].
    unfold adding in Ha. destruct (at_pc t) as [|c|c|c|c| | |e|] eqn:Hpc; try discriminate.
    injection Ha as <-. exists i, t, c. split_and!; try reflexivity; try assumption.
    apply (inv_lock E s Hinv i t Hi). now rewrite Hpc.
  - intros Hdone. apply set_eq. intros k.
    rewrite elem_of_list_to_set, <- (all_joined_emitted s Hdone).
    rewrite (inv_set E s Hinv k). split; [now left|].
    intros [Hk|(i & t & Hi & Ha)]; [exact Hk|].
    unfold adding in Ha. rewrite (all_joined_lookup s i t Hdone Hi) in Ha. discriminate.
Qed.

Lemma keys_and_totals_of_any_schedule_witness :
  let a : candidate := ("a.py", 3, fzero) in
  let b : candidate := ("b.py", 4, fzero) in
  let jobs : list job := [("u", Ok [a; b]); ("u", Ok [a]); ("w", Raise (KeyError "x"))] in
  let s := run (one_by_one jobs) (submit {[ ("u", "b.py") ]} jobs) in
  length (all_results s) = 1%nat /\ total_skipped s = 1.
Proof.
  pose (a := ("a.py", 3, fzero) : candidate).
  pose (b := ("b.py", 4, fzero) : candidate).
  pose (jobs := [("u", Ok [a; b]); ("u", Ok [a]); ("w", Raise (KeyError "x"))] : list job).
  destruct (keys_and_totals_of_any_schedule {[ ("u", "b.py") ]} jobs (one_by_one jobs))
    as (_ & Hlen & Hskip).
  - vm_compute. reflexivity.
  - split.
    + etrans; [exact Hlen|]. vm_compute. reflexivity.
    + etrans; [exact Hskip|]. vm_compute. reflexivity.
Defined.

(** Two threads hold the key [("u", "a.py")], one with 10 lines and one
    with none.  The record that is put out is the one of the thread that
    takes the lock first. *)
Example records_follow_the_schedule :
  let jobs : list job := [("u", Ok [("a.py", 10, fzero)]); ("u", Ok [("a.py", 0, fzero)])] in
  let s1 := run (one_by_one jobs) (submit ∅ jobs) in
  let s2 := run (repeat (Work 1) 7 ++ repeat (Work 0) 7 ++ [Join 0; Join 1])%nat
              (submit ∅ jobs) in
  all_joined s1 = true /\ all_joined s2 = true
  /\ map num_lines (all_results s1) = [10] /\ map num_lines (all_results s2) = [0].
Proof. vm_compute. split_and!; reflexivity. Qed.

End Aggregation.

(* ===================================================================== *)
(** * Running twice *)
(* ===================================================================== *)

Module SecondRun.

Import Vocabulary.
Import Orch Existing DedupCoordinator Orchestrator.

(** What a directory loads to once the output of a run is in it. *)
Lemma load_with_output (d d2 : directory) (w w1 w2 : world) (E : gset key)
    (filename : string) (all_results : list record) :
  load_existing_data d w = (w1, Yields E) ->
  endswith filename ".json" = true ->
  d2 ≡ₚ (filename, Parsed (dumped all_results)) :: d ->
  exists w3,
    load_existing_data d2 w2 = (w3, Yields (E ∪ list_to_set (map key_of all_results))).
Proof.
  intros Hload Hname Hperm. unfold load_existing_data in *.
  destruct (forallb (fun nf => file_ok nf.1 nf.2) d) eqn:Hok.
  2:{ destruct (ExistingData.load_files_raises d ∅ w Hok) as (w0 & r & H). congruence. }
  rewrite (ExistingData.load_files_ok d ∅ w Hok) in Hload.
  inversion Hload as [[Hw HE]]. clear Hload.
  destruct (ExistingData.file_keys_dumped filename all_results Hname) as [Hkeys Hfile].
  assert (forallb (fun nf => file_ok nf.1 nf.2) d2 = true) as Hok2.
  { rewrite forallb_forall. intros x Hx.
    apply (Permutation_in _ Hperm) in Hx. destruct Hx as [<-|Hx]; [exact Hfile|].
    rewrite forallb_forall in Hok. now apply Hok. }
  rewrite (ExistingData.load_files_ok d2 ∅ w2 Hok2). eexists. f_equal. f_equal.
  rewrite !union_empty_r_L.
  rewrite (list_to_set_perm_L _ _ (Permutation_flat_map _ Hperm)).
  cbn [flat_map fst snd]. rewrite list_to_set_app_L, Hkeys.
  apply (comm_L (∪)).
Qed.

(** X21.  Running twice adds nothing.  When the records of a completed run
    are written to a [.json] file of the directory that [load_existing_data]
    reads, the next load returns the earlier snapshot extended with the keys
    of these records, and a completed run of the same tasks against it emits
    no record and skips every candidate. *)
Theorem second_run_adds_nothing (d d2 : directory) (w w1 w2 : world) (E : gset key)
    (filename : string) (jobs : list job) (schedule1 schedule2 : list action) :
  let s1 := run schedule1 (submit E jobs) in
  load_existing_data d w = (w1, Yields E) ->
  all_joined s1 = true ->
  endswith filename ".json" = true ->
  d2 ≡ₚ (filename, Parsed (dumped (all_results s1))) :: d ->
  exists w3 E2,
    load_existing_data d2 w2 = (w3, Yields E2)
    /\ E2 = E ∪ list_to_set (map key_of (all_results s1))
    /\ let s2 := run schedule2 (submit E2 jobs) in
       all_joined s2 = true ->
       all_results s2 = []
       /\ total_skipped s2 = Z.of_nat (length (candidates jobs)).
Proof.
  intros s1 Hload Hdone1 Hname Hperm.
  destruct (load_with_output d d2 w w1 w2 E filename (all_results s1) Hload Hname Hperm)
    as [w3 Hload2].
  exists w3, (E ∪ list_to_set (map key_of (all_results s1))).
  split; [exact Hload2|]. split; [reflexivity|].
  intros s2 Hdone2.
  destruct (completed_run E jobs schedule1 Hdone1) as (Hcover & _ & _).
  fold s1 in Hcover.
  assert (rerun (Z.of_nat (length (candidates jobs))) s2) as [_ Hnone Hskipped].
  { apply rerun_run, rerun_submit. intros k Hk. apply elem_of_union.
    destruct (Hcover k Hk) as [H|H]; [now left|].
    right. now apply elem_of_list_to_set. }
  rewrite (all_joined_owed s2 Hdone2) in Hskipped. cbn [length] in Hskipped.
  split; [exact Hnone|lia].
Qed.

(** The theorem at a directory with one earlier output: the first run adds
    the record for [b.py], the second run adds nothing and skips both
    candidates. *)
Lemma second_run_adds_nothing_witness :
  let a : candidate := ("a.py", 3, fzero) in
  let b : candidate := ("b.py", 4, fzero) in
  let jobs : list job := [("u", Ok [a; b])] in
  let d := [("old.json", Parsed (dumped [record_of "u" a]))] in
  let s1 := run (one_by_one jobs) (submit (list_to_set [("u", "a.py")] ∪ ∅) jobs) in
  let d2 := ("new.json", Parsed (dumped (all_results s1))) :: d in
  all_results s1 = [record_of "u" b]
  /\ exists w3 E2,
       load_existing_data d2 world0 = (w3, Yields E2)
       /\ all_results (run (one_by_one jobs) (submit E2 jobs)) = []
       /\ total_skipped (run (one_by_one jobs) (submit E2 jobs)) = 2.
Proof.
  intros a b jobs d s1 d2. split; [vm_compute; reflexivity|].
  destruct (second_run_adds_nothing d d2 world0 world0 world0
              (list_to_set [("u", "a.py")] ∪ ∅) "new.json" jobs
              (one_by_one jobs) (one_by_one jobs))
    as (w3 & E2 & Hload & HE & Hrun).
  - reflexivity.
  - vm_compute. reflexivity.
  - reflexivity.
  - reflexivity.
  - exists w3, E2. split; [exact Hload|].
    apply Hrun. subst E2. vm_compute. reflexivity.
Defined.

End SecondRun.

(* ===================================================================== *)
(** * The output file under its name *)
(* ===================================================================== *)

Module OutputFile.

Import Vocabulary.

Import Orch Existing Naming.

Lemma length_append a b :
  String.length (a +:+ b) = (String.length a + String.length b)%nat.
Proof.
  induction a as [|c a IH]; [reflexivity|].
  change (String c a +:+ b) with (String c (a +:+ b)). cbn [String.length]. now rewrite IH.
Qed.

Lemma substring_all s : substring 0 (String.length s) s = s.
Proof. induction s as [|c s IH]; [reflexivity|]. cbn. now rewrite IH. Qed.

Lemma substring_append a b :
  substring (String.length a) (String.length b) (a +:+ b) = b.
Proof.
  induction a as [|c a IH]; [apply substring_all|].
  change (String c a +:+ b) with (String c (a +:+ b)). cbn [String.length substring].
  exact IH.
Qed.

(** [(a + b).endswith(b)]. *)
Lemma endswith_append a b : endswith (a +:+ b) b = true.
Proof.
  unfold endswith. rewrite length_append.
  replace (String.length a + String.length b - String.length b)%nat
    with (String.length a) by lia.
  rewrite substring_append, String.eqb_refl, andb_true_r.
  apply Nat.leb_le. lia.
Qed.

Lemma append_assoc a b c : (a +:+ b) +:+ c = a +:+ (b +:+ c).
Proof.
  induction a as [|x a IH]; [reflexivity|].
  change (String x a +:+ b) with (String x (a +:+ b)).
  change (String x (a +:+ b) +:+ c) with (String x ((a +:+ b) +:+ c)).
  now rewrite IH.
Qed.

Section Facts.

Variable R : remote.
Variable strftime : Z -> string.
Variable format_float : float -> string.

(** X22.  [create_unique_filename] reads the clock once and returns a name
    that ends with a dot and the extension.  The name does not depend on
    [base_name], so [--output] has no effect on it.  Called again with the
    same other arguments at a time whose timestamp text is the same, it
    returns the same name, which is the file [main] opens for writing.
    With the extension [main] passes, ["json"], the name passes the test of
    [load_existing_data]: listed in the directory with the array [main]
    dumped into it, the file gives back the key of every record and logs
    nothing. *)
Theorem output_file_is_read_back base_name max_repos min_lines max_lines
    quality_threshold start_date end_date extension w :
  let out := create_unique_filename R strftime format_float base_name max_repos
               min_lines max_lines quality_threshold start_date end_date extension w in
  exists output_file,
    out = (tick w, Ok output_file)
    /\ endswith output_file ("." +:+ extension) = true
    /\ (forall other_name,
          create_unique_filename R strftime format_float other_name max_repos
            min_lines max_lines quality_threshold start_date end_date extension w = out)
    /\ (forall w0,
          strftime (clock R (ticks w0)) = strftime (clock R (ticks w)) ->
          (create_unique_filename R strftime format_float base_name max_repos
             min_lines max_lines quality_threshold start_date end_date extension w0).2
          = Ok output_file)
    /\ (extension = "json" ->
        forall all_results w1,
          load_existing_data [(output_file, Parsed (dumped all_results))] w1
          = (w1, Yields (list_to_set (map key_of all_results)))).
Proof.
  intros out. subst out. unfold create_unique_filename, bind, now, ret.
  eexists. split; [reflexivity|].
  split_and!.
  - rewrite <- !append_assoc. rewrite append_assoc. apply endswith_append.
  - reflexivity.
  - intros w0 Hclock. cbn [snd]. now rewrite Hclock.
  - intros -> all_results w1.
    match goal with
    | |- load_existing_data [(?name, _)] _ = _ => set (output_file := name)
    end.
    assert (endswith output_file ".json" = true) as Hname.
    { unfold output_file. rewrite <- !append_assoc. rewrite append_assoc.
      apply endswith_append. }
    destruct (ExistingData.file_keys_dumped output_file all_results Hname) as [Hkeys Hok].
    unfold load_existing_data.
    rewrite (ExistingData.load_files_ok [(output_file, Parsed (dumped all_results))] ∅ w1)
      by (cbn [forallb fst snd]; now rewrite Hok).
    cbn [flat_map fst snd]. rewrite Hkeys, !app_nil_r, union_empty_r_L.
    unfold file_warnings. rewrite Hname. cbn. now rewrite ExistingData.logged_more_nil.
Qed.

End Facts.

End OutputFile.
